(** * RAGIT: history reconstruction and index synchronisation

    A shallow embedding of the history tracker
    ([rag_worker/git_service/history_tracker.py]), the git service
    ([rag_worker/git_service/service.py]), the update pipeline
    ([rag_worker/tasks.py]) and the sync endpoint
    ([backend/routers/repository.py]), with the properties the
    specification states about them; and of the code around them: the
    clone and the status check of the git service, the parser service
    ([rag_worker/python_parser/service.py]), the deletion from the index
    ([rag_worker/vector_db/collection_manager.py]), the pipeline of a new
    repository ([rag_worker/tasks.py]), the status endpoint and the status
    checks of the settings page
    ([frontend/src/pages/repository_settings_page.py]), with properties read
    off the code. *)

From Stdlib Require Import String Ascii DecimalString.
From Stdlib Require Import NArith ZArith Bool Lia Arith List.
Import ListNotations.

(* ===================================================================== *)
(** * Python built-ins used by the code *)
(* ===================================================================== *)

Module Py.

(** A Python [str] is a sequence of Unicode code points. *)
Abbreviation char := N (only parsing).
Abbreviation pystr := (list N) (only parsing).

(** ASCII literals of the source. *)
Definition str (s : string) : pystr :=
  map N_of_ascii (list_ascii_of_string s).

Definition nl : pystr := [10%N].

Definition pystr_eq_dec : forall a b : pystr, {a = b} + {a <> b} :=
  list_eq_dec N.eq_dec.

Definition pystr_eqb (a b : pystr) : bool :=
  if pystr_eq_dec a b then true else false.

(** [a == b] on values of type [Optional[str]]. *)
Definition opt_eq_dec : forall a b : option pystr, {a = b} + {a <> b}.
Proof. decide equality. apply pystr_eq_dec. Defined.

Definition opt_eqb (a b : option pystr) : bool :=
  if opt_eq_dec a b then true else false.

Definition is_none {A} (o : option A) : bool :=
  match o with None => true | Some _ => false end.

(** [x or ""] for [x : Optional[str]]. *)
Definition or_empty (o : option pystr) : pystr :=
  match o with None => [] | Some s => s end.

(** [str(x)] inside an f-string, for [x : Optional[str]]. *)
Definition fmt_opt (o : option pystr) : pystr :=
  match o with None => str "None" | Some s => s end.

(** [c.isspace()]. *)
Definition isspace (c : char) : bool :=
  ((9 <=? c) && (c <=? 13) || (28 <=? c) && (c <=? 32)
   || (c =? 133) || (c =? 160) || (c =? 5760)
   || (8192 <=? c) && (c <=? 8202)
   || (c =? 8232) || (c =? 8233) || (c =? 8239) || (c =? 8287)
   || (c =? 12288))%N.

(** The line boundaries of [str.splitlines], carriage return apart. *)
Definition is_linebreak (c : char) : bool :=
  ((c =? 10) || (c =? 11) || (c =? 12) || (c =? 28) || (c =? 29)
   || (c =? 30) || (c =? 133) || (c =? 8232) || (c =? 8233))%N.

Fixpoint lstrip_by (p : char -> bool) (s : pystr) : pystr :=
  match s with
  | [] => []
  | c :: s' => if p c then lstrip_by p s' else s
  end.

Definition rstrip_by (p : char -> bool) (s : pystr) : pystr :=
  rev (lstrip_by p (rev s)).

(** [s.strip()]. *)
Definition strip (s : pystr) : pystr := rstrip_by isspace (lstrip_by isspace s).

(** [s.rstrip('\n')]. *)
Definition rstrip_nl (s : pystr) : pystr := rstrip_by (N.eqb 10) s.

(** [not s], the falsity of a string. *)
Definition is_empty (s : pystr) : bool :=
  match s with [] => true | _ => false end.

(** [s.splitlines(True)]. *)
Fixpoint splitlines_keepends (s : pystr) : list pystr :=
  match s with
  | [] => []
  | c :: s' =>
      if (c =? 13)%N then
        match s' with
        | d :: s'' =>
            if (d =? 10)%N then [c; d] :: splitlines_keepends s''
            else [c] :: splitlines_keepends s'
        | [] => [[c]]
        end
      else if is_linebreak c then [c] :: splitlines_keepends s'
      else match splitlines_keepends s' with
           | [] => [[c]]
           | l :: ls => (c :: l) :: ls
           end
  end.

(** [s.split(sep)] for a one-character separator. *)
Fixpoint split_on (sep : char) (s : pystr) : list pystr :=
  match s with
  | [] => [[]]
  | c :: s' =>
      if (c =? sep)%N then [] :: split_on sep s'
      else match split_on sep s' with
           | [] => [[c]]
           | l :: ls => (c :: l) :: ls
           end
  end.

(** [sep.join(parts)]. *)
Fixpoint join (sep : pystr) (parts : list pystr) : pystr :=
  match parts with
  | [] => []
  | [p] => p
  | p :: ps => p ++ sep ++ join sep ps
  end.

(** [l[a:b]] with Python's treatment of negative and out-of-range bounds. *)
Definition clamp_index (n i : Z) : Z :=
  if (i <? 0)%Z then Z.max (i + n) 0 else Z.min i n.

Definition slice {A} (l : list A) (a b : Z) : list A :=
  let n := Z.of_nat (length l) in
  let a' := clamp_index n a in
  let b' := clamp_index n b in
  firstn (Z.to_nat (b' - a')) (skipn (Z.to_nat a') l).

(** [s[:k]]. *)
Definition prefix_slice {A} (l : list A) (k : nat) : list A := firstn k l.

(** [s.rfind(c)] as the position of the last occurrence, if any. *)
Fixpoint rfind (c : char) (s : pystr) : option nat :=
  match s with
  | [] => None
  | d :: s' =>
      match rfind c s' with
      | Some i => Some (S i)
      | None => if (d =? c)%N then Some 0 else None
      end
  end.

(** A call either returns or raises; [exc] is [str(e)]. *)
Inductive outcome (A : Type) :=
| Returned (a : A)
| Raised (exc : pystr).
Arguments Returned {A} a.
Arguments Raised {A} exc.

End Py.

(* ===================================================================== *)
(** * The line-mode diff of [diff_match_patch] *)
(* ===================================================================== *)

Module Dmp.
Import Py.

(** [DIFF_DELETE], [DIFF_INSERT], [DIFF_EQUAL]. *)
Inductive diff_op := DIFF_DELETE | DIFF_INSERT | DIFF_EQUAL.

Definition diff_op_eqb (a b : diff_op) : bool :=
  match a, b with
  | DIFF_DELETE, DIFF_DELETE | DIFF_INSERT, DIFF_INSERT
  | DIFF_EQUAL, DIFF_EQUAL => true
  | _, _ => false
  end.

(** [diff_linesToChars] cuts each text after every line feed and gives each
    distinct line one character; [diff_main] then compares the two character
    sequences and [diff_charsToLines] puts the lines back.  The renaming of
    lines to characters is injective, so the model compares the sequences of
    lines themselves: a token is a line with its line feed. *)
Fixpoint lines_of (text : pystr) : list pystr :=
  match text with
  | [] => []
  | c :: s' =>
      if (c =? 10)%N then [c] :: lines_of s'
      else match lines_of s' with
           | [] => [[c]]
           | l :: ls => (c :: l) :: ls
           end
  end.

(** The result of [diff_main] on token sequences. *)
Definition diffs := list (diff_op * list pystr).

(** What [diff_main] is: the library's function, outside the repository.  Its
    result depends on a wall-clock deadline, so the model takes the function
    as given together with its contract: the chunks that are not insertions
    spell the first sequence, those that are not deletions the second. *)
Definition side (keep : diff_op -> bool) (d : diffs) : list pystr :=
  concat (map snd (filter (fun x => keep (fst x)) d)).

Definition not_insert (o : diff_op) : bool := negb (diff_op_eqb o DIFF_INSERT).
Definition not_delete (o : diff_op) : bool := negb (diff_op_eqb o DIFF_DELETE).

Definition diff_main_ok (diff_main : list pystr -> list pystr -> diffs) : Prop :=
  forall a b,
    side not_insert (diff_main a b) = a /\ side not_delete (diff_main a b) = b.

(** A diff for the examples.  The library removes the common prefix and the
    common suffix of the two sequences and answers at once when one side is
    then empty or lies inside the other; otherwise it looks for a common
    half and runs a bisection against a deadline; in the end it merges the
    edits and shifts an edit that stands between two equalities.
    [diff_main_coarse] takes the first steps and answers what is left with a
    deletion followed by an insertion, and it shifts nothing: it meets the
    contract on every input, and it is the library's answer for equal texts,
    for a side that is empty once a common prefix or a common suffix is
    removed, for a side that lies inside the other when the two have no
    common prefix or suffix, and for two texts of one line each, which are
    the inputs of the examples.  The theorems take [diff_main] by its
    contract alone. *)
Fixpoint common_prefix (a b : list pystr) : list pystr :=
  match a, b with
  | x :: a', y :: b' => if pystr_eqb x y then x :: common_prefix a' b' else []
  | _, _ => []
  end.

Definition common_suffix (a b : list pystr) : list pystr :=
  rev (common_prefix (rev a) (rev b)).

Definition drop_end {A} (n : nat) (l : list A) : list A :=
  firstn (List.length l - n) l.

(** [longtext.find(shorttext)]. *)
Fixpoint find_sub (short long : list pystr) : option nat :=
  if list_eq_dec pystr_eq_dec (firstn (List.length short) long) short
  then Some 0
  else match long with
       | [] => None
       | _ :: long' => option_map S (find_sub short long')
       end.

Definition diff_compute_coarse (a b : list pystr) : diffs :=
  match a, b with
  | [], _ => [(DIFF_INSERT, b)]
  | _, [] => [(DIFF_DELETE, a)]
  | _, _ =>
      let '(long, short, op) :=
        if List.length b <? List.length a then (a, b, DIFF_DELETE)
        else (b, a, DIFF_INSERT) in
      match find_sub short long with
      | Some i =>
          [(op, firstn i long); (DIFF_EQUAL, short);
           (op, skipn (i + List.length short) long)]
      | None => [(DIFF_DELETE, a); (DIFF_INSERT, b)]
      end
  end.

Definition equal_chunk (l : list pystr) : diffs :=
  match l with [] => [] | _ => [(DIFF_EQUAL, l)] end.

Definition diff_main_coarse (a b : list pystr) : diffs :=
  if list_eq_dec pystr_eq_dec a b then equal_chunk a
  else
    let pre := common_prefix a b in
    let a1 := skipn (List.length pre) a in
    let b1 := skipn (List.length pre) b in
    let suf := common_suffix a1 b1 in
    let a2 := drop_end (List.length suf) a1 in
    let b2 := drop_end (List.length suf) b1 in
    equal_chunk pre ++ diff_compute_coarse a2 b2 ++ equal_chunk suf.

End Dmp.

(* ===================================================================== *)
(** * [history_tracker.py] *)
(* ===================================================================== *)

Module History.
Import Py Dmp.

Definition bytes := list Byte.byte.

(** ** [types.py]: [CommitChange] *)
Record CommitChange := mkCommitChange {
  commit_hash : pystr;
  commit_message : pystr;
  author : pystr;
  date : pystr;
  code_before : option pystr;
  code_after : option pystr;
  highlighted_diff : pystr
}.

(** ** What GitPython hands over *)

(** [commit.committed_datetime]; commit years have four digits. *)
Record datetime := mkDatetime {
  year : N; month : N; day : N; hour : N; minute : N; second : N
}.

Definition digit (n : N) : char := (48 + n mod 10)%N.
Definition pad2 (n : N) : pystr := [digit (n / 10); digit n].
Definition pad4 (n : N) : pystr :=
  [digit (n / 1000); digit (n / 100); digit (n / 10); digit n].

(** [dt.strftime("%Y-%m-%d %H:%M:%S")]. *)
Definition strftime (dt : datetime) : pystr :=
  pad4 (year dt) ++ str "-" ++ pad2 (month dt) ++ str "-" ++ pad2 (day dt)
  ++ str " " ++ pad2 (hour dt) ++ str ":" ++ pad2 (minute dt) ++ str ":"
  ++ pad2 (second dt).

(** A [git.Commit], by the attributes the tracker reads. *)
Record Commit := mkCommit {
  hexsha : pystr;
  message : pystr;
  author_name : pystr;
  committed_datetime : datetime
}.

(** The three ways [commit.tree / file_path] and the read of the blob end:
    the bytes of the blob, a [KeyError] or [ValueError] (as for a path that
    the tree of the commit does not have), or any other exception. *)
Inductive blob_read :=
| Blob (raw_data : bytes)
| LookupFailed
| UnexpectedFailure.

(** [raw_data.decode(encoding)]. *)
Inductive decode_result :=
| Decoded (content : pystr)
| UnicodeDecodeError
| LookupError.

(** A node captured by a tree-sitter query: [node.type] and
    [node.text.decode('utf-8')]. *)
Record ts_node := mkNode { node_kind : pystr; node_text : pystr }.

(** The entries of [CodeParser.QUERIES] that capture a definition by name:
    the text before the [{}] that [format] fills, and the text after it. *)
Definition function_query_head : pystr :=
  nl ++ str "                (function_definition"
  ++ nl ++ str "                  name: (identifier) @node.name"
  ++ nl ++ str "                  (#eq? @node.name " ++ [34%N].

Definition class_query_head : pystr :=
  nl ++ str "                (class_definition"
  ++ nl ++ str "                  name: (identifier) @node.name"
  ++ nl ++ str "                  (#eq? @node.name " ++ [34%N].

Definition query_tail : pystr :=
  [34%N] ++ str ")) @node.def" ++ nl ++ str "            ".

(** The one line [find_node_body] prints. *)
Inductive printed := UnsupportedNodeType (node_type : pystr).

Section Tracker.

(** [repo.iter_commits(paths=file_path)], newest first. *)
Variable iter_commits : pystr -> list Commit.
(** [(repo.commit(commit_hash).tree / file_path).data_stream.read()]. *)
Variable read_blob : pystr -> pystr -> blob_read.
(** Python's codecs, by name, and [decode('utf-8', errors='replace')]. *)
Variable codec_decode : pystr -> bytes -> decode_result.
Variable decode_utf8_replace : bytes -> pystr.
(** Lines 113 to 115 of [find_node_body], on the query string and the source:
    [parser.parse(bytes(source_code, 'utf8'))], [language.query(query_str)]
    and [query.captures(tree.root_node)].  The result is the captured nodes
    in the order tree-sitter reports them, or the exception one of the three
    calls raises: [language.query] raises for a string that is not a
    well-formed query. *)
Variable query_captures : pystr -> pystr -> outcome (list ts_node).
(** [dmp.diff_main(chars1, chars2, False)]. *)
Variable diff_main : list pystr -> list pystr -> diffs.

(** ** [GitHistoryManager] *)

Definition get_file_history (file_path : pystr) : list Commit :=
  iter_commits file_path.

Definition encodings : list pystr :=
  [str "utf-8"; str "cp949"; str "euc-kr"; str "latin-1"].

(** The [for encoding in encodings] loop with its fall-back. *)
Fixpoint decode_with (encs : list pystr) (raw_data : bytes) : pystr :=
  match encs with
  | [] => decode_utf8_replace raw_data
  | encoding :: rest =>
      match codec_decode encoding raw_data with
      | Decoded content => content
      | UnicodeDecodeError | LookupError => decode_with rest raw_data
      end
  end.

Definition get_file_content_at_commit (commit_hash file_path : pystr)
  : option pystr :=
  match read_blob commit_hash file_path with
  | Blob raw_data => Some (decode_with encodings raw_data)
  | LookupFailed => None
  | UnexpectedFailure => None
  end.

(** ** [CodeParser] *)

Definition QUERIES_keys : list pystr :=
  [str "function"; str "async_function"; str "class"; str "module";
   str "script"].

Definition in_keys (k : pystr) (keys : list pystr) : bool :=
  existsb (pystr_eqb k) keys.

(** [QUERIES[node_type].format(node_name)] for the kinds that reach it: the
    name is pasted between the double quotes of the query as it is. *)
Definition format_query (node_type node_name : pystr) : pystr :=
  (if pystr_eqb node_type (str "class") then class_query_head
   else function_query_head)
  ++ node_name ++ query_tail.

(** The [for node, _ in captures] loop. *)
Fixpoint first_definition (captures : list ts_node) : option pystr :=
  match captures with
  | [] => None
  | node :: rest =>
      if in_keys (node_kind node)
           [str "function_definition"; str "class_definition"]
      then Some (node_text node)
      else first_definition rest
  end.

(** What [find_node_body] returns or raises, and what it prints. *)
Definition find_node_body (source_code node_name node_type : pystr)
    (start_line end_line : option Z)
  : outcome (option pystr) * list printed :=
  if negb (in_keys node_type QUERIES_keys) then
    (Returned None, [UnsupportedNodeType node_type])
  else if in_keys node_type [str "module"; str "script"] then
    match start_line, end_line with
    | Some start_line, Some end_line =>
        let lines := splitlines_keepends source_code in
        (Returned
           (Some (rstrip_nl (concat (slice lines (start_line - 1) end_line)))),
         [])
    | _, _ => (Returned (Some (rstrip_nl source_code)), [])
    end
  else
    let query_str := format_query node_type node_name in
    match query_captures query_str source_code with
    | Returned captures => (Returned (first_definition captures), [])
    | Raised e => (Raised e, [])
    end.

(** ** [DiffGenerator] *)

(** [diff_charsToLines]: every chunk becomes the text of its lines. *)
Definition chars_to_lines (d : diffs) : list (diff_op * pystr) :=
  map (fun x => (fst x, concat (snd x))) d.

Definition marker (op : diff_op) : pystr :=
  match op with
  | DIFF_INSERT => str "+ "
  | DIFF_DELETE => str "- "
  | DIFF_EQUAL => str "  "
  end.

(** The lines the loop appends to [result], each with its operation. *)
Definition marked_lines (text1 text2 : pystr) : list (diff_op * pystr) :=
  let diffs := chars_to_lines (diff_main (lines_of text1) (lines_of text2)) in
  flat_map
    (fun x =>
       map (fun line => (fst x, line))
         (filter (fun line => negb (is_empty (strip line)))
            (splitlines_keepends (snd x))))
    diffs.

Definition generate_highlighted_diff (text1 text2 : pystr) : pystr :=
  concat (map (fun x => marker (fst x) ++ snd x) (marked_lines text1 text2)).

(** ** [FunctionHistoryTracker] *)

(** An exception that is not caught ends the function that raised it and
    every caller up to [trace_history], which has no [try]. *)
Definition bind {A B} (m : outcome A) (k : A -> outcome B) : outcome B :=
  match m with
  | Returned a => k a
  | Raised e => Raised e
  end.

Notation "x <- m ;; k" := (bind m (fun x => k))
  (at level 61, m at next level, right associativity).

Section Trace.

Variable file_path : pystr.
Variables node_name node_type : option pystr.
Variables start_line end_line : option Z.

Definition is_full_file : bool := is_none node_type || is_none node_name.

(** [code_after] and [code_before] from the content of a commit. *)
Definition reduced (content : option pystr) : outcome (option pystr) :=
  if is_full_file then Returned content
  else
    match content, node_name, node_type with
    | Some source_code, Some n, Some t =>
        fst (find_node_body source_code n t start_line end_line)
    | _, _, _ => Returned None
    end.

Definition change_of (c : Commit) (before after : option pystr) (diff : pystr)
  : CommitChange :=
  {| commit_hash := prefix_slice (hexsha c) 7;
     commit_message := strip (message c);
     author := author_name c;
     date := strftime (committed_datetime c);
     code_before := before;
     code_after := after;
     highlighted_diff := diff |}.

(** One turn of [for i in range(len(commits) - 1)]: [code_after] is
    computed before [code_before]. *)
Definition compare_step (commits : list Commit) (history : list CommitChange)
    (i : nat) : outcome (list CommitChange) :=
  match nth_error commits i, nth_error commits (i + 1) with
  | Some current_commit, Some parent_commit =>
      let current_content :=
        get_file_content_at_commit (hexsha current_commit) file_path in
      let parent_content :=
        get_file_content_at_commit (hexsha parent_commit) file_path in
      code_after <- reduced current_content ;;
      code_before <- reduced parent_content ;;
      if is_none code_after && is_none code_before then Returned history
      else if negb (opt_eqb code_after code_before) then
        let diff :=
          generate_highlighted_diff (or_empty code_before)
            (or_empty code_after) in
        Returned
          (history ++ [change_of current_commit code_before code_after diff])
      else Returned history
  | _, _ => Returned history
  end.

(** A [for] loop over a range, whose body may raise. *)
Fixpoint for_range (body : list CommitChange -> nat -> outcome (list CommitChange))
    (range : list nat) (history : list CommitChange)
  : outcome (list CommitChange) :=
  match range with
  | [] => Returned history
  | i :: rest =>
      history' <- body history i ;;
      for_range body rest history'
  end.

(** [history] when the loop over the adjacent pairs is over. *)
Definition compared (commits : list Commit) : outcome (list CommitChange) :=
  for_range (compare_step commits) (seq 0 (length commits - 1)) [].

(** The part after the loop: the oldest commit, [commits[-1]]. *)
Definition first_commit_step (commits : list Commit)
    (history : list CommitChange) : outcome (list CommitChange) :=
  match nth_error commits (length commits - 1) with
  | Some first_commit =>
      let first_content :=
        get_file_content_at_commit (hexsha first_commit) file_path in
      first_code <- reduced first_content ;;
      match first_code with
      | Some code =>
          if negb (existsb (fun c => opt_eqb (code_before c) first_code)
                     history)
          then
            let diff := generate_highlighted_diff [] code in
            Returned (history ++ [change_of first_commit None first_code diff])
          else Returned history
      | None => Returned history
      end
  | None => Returned history
  end.

Definition trace_history : outcome (list CommitChange) :=
  let commits := get_file_history file_path in
  match commits with
  | [] => Returned []
  | _ =>
      history <- compared commits ;;
      first_commit_step commits history
  end.

End Trace.
End Tracker.

End History.

(* ===================================================================== *)
(** * [service.py]: [GitCommandRunner] and [GitService] *)
(* ===================================================================== *)

Module Git.
Import Py.

(** ** [pathlib]: what [str(Path(p).with_suffix(".json"))] computes
    (POSIX flavour) *)

Record PurePath := mkPath { root : pystr; parts : list pystr }.

Fixpoint leading_slashes (p : pystr) : nat :=
  match p with
  | c :: p' => if (c =? 47)%N then S (leading_slashes p') else 0
  | [] => 0
  end.

Definition parse_path (p : pystr) : PurePath :=
  {| root := match leading_slashes p with
             | 0 => []
             | 2 => str "//"
             | _ => str "/"
             end;
     parts := filter (fun s => negb (is_empty s) && negb (pystr_eqb s (str ".")))
                (split_on 47%N p) |}.

Definition path_str (p : PurePath) : pystr :=
  match root p, parts p with
  | [], [] => str "."
  | r, ps => r ++ join (str "/") ps
  end.

(** [PurePath.suffix] of a final component. *)
Definition suffix_of (name : pystr) : pystr :=
  match rfind 46%N name with
  | Some i => if (0 <? i) && (i <? length name - 1) then skipn i name else []
  | None => []
  end.

(** [Path.with_suffix(suffix)]; [None] is the [ValueError] for a path with an
    empty name. *)
Definition with_suffix (p : PurePath) (suffix : pystr) : option PurePath :=
  match rev (parts p) with
  | [] => None
  | name :: before =>
      let old_suffix := suffix_of name in
      let name' := firstn (length name - length old_suffix) name ++ suffix in
      Some {| root := root p; parts := rev before ++ [name'] |}
  end.

(** [GitService._format_source_file]; the list comprehension raises as soon
    as one path has an empty name, with the [ValueError] of [with_suffix],
    whose text shows the path. *)
Fixpoint _format_source_file (file_paths : list pystr)
  : outcome (list pystr) :=
  match file_paths with
  | [] => Returned []
  | p :: rest =>
      match with_suffix (parse_path p) (str ".json") with
      | None =>
          Raised (str "PosixPath('" ++ path_str (parse_path p)
                  ++ str "') has an empty name")
      | Some q =>
          match _format_source_file rest with
          | Returned l => Returned (path_str q :: l)
          | Raised e => Raised e
          end
      end
  end.

(** ** [GitCommandRunner.run] *)

(** How [subprocess.run] ends. *)
Inductive process :=
| Completed (returncode : Z) (stdout stderr : pystr)
| TimeoutExpired
| OtherException (msg : pystr).

(** Modelled from the spec: [git_service/exceptions.py] is not among the
    sources; these are the exceptions the service handles (repository not
    found, command failure, command timeout), each with the text that
    [str(e)] gives. *)
Inductive git_exception :=
| RepositoryNotFoundError (msg : pystr)
| GitCommandError (msg : pystr)
| GitTimeoutError (msg : pystr).

Definition exception_text (e : git_exception) : pystr :=
  match e with
  | RepositoryNotFoundError m | GitCommandError m | GitTimeoutError m => m
  end.

(** [{"success": True, "stdout": ..., "stderr": ...}]. *)
Record RunResult := mkRun { run_stdout : pystr; run_stderr : pystr }.

(** A command with its working directory, as the runner receives it. *)
Record invocation := mkInvocation { cwd : pystr; command : list pystr }.

Definition decimal (n : nat) : pystr :=
  str (NilZero.string_of_uint (Nat.to_uint n)).

Definition git (args : list string) : list pystr := map str ("git" :: args)%string.

(** [PullResult] *)
Record PullResult := mkPull {
  pull_success : bool;
  pull_repo_name : pystr;
  pull_repo_path : pystr;
  pull_message : option pystr;
  pull_error : option pystr
}.

(** The dictionary [diff_files] returns. *)
Record DiffResult := mkDiff {
  diff_success : bool;
  diff_files_list : list pystr;
  diff_message : option pystr;
  diff_error : option pystr
}.

Section Service.

(** The machine the service runs on: [subprocess.run] on a command, and
    whether the directory of a repository exists. *)
Variable World : Type.
Variable subprocess_run : invocation -> World -> process * World.
Variable repo_exists : pystr -> World -> bool.
(** [str(base_path / repo_name)]. *)
Variable get_repo_path : pystr -> pystr.

(** State of a run of the service: the machine, and the commands handed to
    [subprocess.run] so far, oldest first. *)
Record state := mkState { world : World; log : list invocation }.

(** Code that may raise one of the three exceptions. *)
Definition G (A : Type) : Type := state -> (A + git_exception) * state.

Definition ret {A} (a : A) : G A := fun s => (inl a, s).
Definition bind {A B} (m : G A) (k : A -> G B) : G B :=
  fun s => match m s with
           | (inl a, s') => k a s'
           | (inr e, s') => (inr e, s')
           end.

Notation "x <- m ;; k" := (bind m (fun x => k))
  (at level 61, m at next level, right associativity).
Notation "m ;;; k" := (bind m (fun _ => k))
  (at level 61, right associativity).

(** [GitCommandRunner.run(command, cwd)]: a non-zero exit status raises
    [GitCommandError(stderr)] inside the [try], where [except Exception]
    catches it and raises [GitCommandError(str(e))] again. *)
Definition run (cmd : list pystr) (dir : pystr) (timeout : nat) : G RunResult :=
  fun s =>
    let inv := {| cwd := dir; command := cmd |} in
    let (p, w) := subprocess_run inv (world s) in
    let s' := {| world := w; log := log s ++ [inv] |} in
    match p with
    | Completed rc out err =>
        if (rc =? 0)%Z then (inl {| run_stdout := out; run_stderr := err |}, s')
        else (inr (GitCommandError err), s')
    | TimeoutExpired =>
        (inr (GitTimeoutError
                (str "Command timed out after " ++ decimal timeout
                 ++ str " seconds")), s')
    | OtherException msg => (inr (GitCommandError msg), s')
    end.

(** [RepositoryManager.validate_exists]. *)
Definition validate_exists (repo_name : pystr) : G unit :=
  fun s =>
    if repo_exists repo_name (world s) then (inl tt, s)
    else (inr (RepositoryNotFoundError
                 (str "Repository " ++ repo_name ++ str " not found")), s).

(** [GitService.pull_repository]. *)
Definition pull_body (repo_name : pystr) : G PullResult :=
  validate_exists repo_name ;;;
  let repo_path := get_repo_path repo_name in
  run (git ["checkout"; "main"]%string) repo_path 300 ;;;
  result <- run (git ["pull"]%string) repo_path 300 ;;
  ret {| pull_success := true; pull_repo_name := repo_name;
         pull_repo_path := repo_path;
         pull_message := Some (run_stdout result); pull_error := None |}.

Definition pull_repository (repo_name : pystr) (s : state)
  : PullResult * state :=
  match pull_body repo_name s with
  | (inl r, s') => (r, s')
  | (inr e, s') =>
      ({| pull_success := false; pull_repo_name := repo_name;
          pull_repo_path := []; pull_message := None;
          pull_error := Some (exception_text e) |}, s')
  end.

(** [GitService.diff_files]; a [ValueError] of [_format_source_file] is not
    among the exceptions the method handles. *)
Definition changed_lines (stdout : pystr) : list pystr :=
  if negb (is_empty (strip stdout)) then split_on 10%N (strip stdout) else [].

Definition diff_body (repo_name : pystr) : G (outcome DiffResult) :=
  validate_exists repo_name ;;;
  let repo_path := get_repo_path repo_name in
  run (git ["fetch"]%string) repo_path 300 ;;;
  diff_result <-
    run (git ["diff"; "--name-only"; "HEAD"; "origin/main"]%string)
      repo_path 300 ;;
  let raw_changed_files := changed_lines (run_stdout diff_result) in
  match _format_source_file raw_changed_files with
  | Raised e => ret (Raised e)
  | Returned formatted_files =>
      ret (Returned
             {| diff_success := true;
                diff_files_list := formatted_files;
                diff_message :=
                  Some (str "Found " ++ decimal (length formatted_files)
                        ++ str " changed files between local and remote.");
                diff_error := None |})
  end.

Definition diff_files (repo_name : pystr) (s : state)
  : outcome DiffResult * state :=
  match diff_body repo_name s with
  | (inl r, s') => (r, s')
  | (inr e, s') =>
      (Returned {| diff_success := false; diff_files_list := [];
                   diff_message := None;
                   diff_error := Some (exception_text e) |}, s')
  end.

End Service.

Arguments world {World} _.
Arguments log {World} _.
Arguments mkState {World} _ _.

End Git.

(* ===================================================================== *)
(** * [tasks.py]: [update_repository_pipeline] *)
(* ===================================================================== *)

Module Pipeline.
Import Py Git.

(** The dictionaries the stages return, by the keys the pipeline reads;
    a key that is missing reads as [None]. *)
Record DeleteResult := mkDelete {
  delete_success : bool;
  delete_error : option pystr
}.

Record ParseResult := mkParse {
  parse_success : bool;
  parse_message : option pystr;
  parse_total_files : option Z
}.

Record EmbedResult := mkEmbed {
  embed_success : bool;
  embed_inserted_count : option Z
}.

(** The dictionary the task returns. *)
Inductive PipelineResult :=
| Failed (error step : pystr)
| Succeeded (repo_id repo_name : pystr)
    (file_count deleted_count embedded_count : Z) (message : pystr).

Definition success (r : PipelineResult) : bool :=
  match r with Failed _ _ => false | Succeeded _ _ _ _ _ _ => true end.

(** The columns of [models/repository.py] the pipeline writes. *)
Record RepositoryRow := mkRow {
  status : pystr;
  vectordb_status : pystr;
  file_count : Z
}.

(** The services the pipeline calls, one for each of its steps. *)
Inductive stage :=
| StageDiff | StagePull | StageDelete | StageParse | StageEmbed.

(** How a call ends: with a result that reports success, with a result that
    reports failure, or with an exception. *)
Inductive ending := ReportedSuccess | ReportedFailure | RaisedException.

(** What the pipeline does to the outside, in the order it does it. *)
Inductive event :=
| StatusWritten (status vectordb_status : pystr)
| FileCountWritten (n : Z)
| Called (st : stage) (args : list pystr) (e : ending)
| DbClosed.

(** Where control is after a statement: at the next statement, out of the
    function through [return], or in the [except Exception] handler. *)
Inductive flow (A : Type) :=
| Next (a : A)
| Return (r : PipelineResult)
| Throw (exc : pystr).
Arguments Next {A} a.
Arguments Return {A} r.
Arguments Throw {A} exc.

Section Task.

(** The services the task calls, each on the machine it runs on. *)
Variable World : Type.
Variable diff_files : pystr -> World -> outcome DiffResult * World.
Variable pull_repository : pystr -> World -> outcome PullResult * World.
Variable delete_entities :
  pystr -> list pystr -> World -> outcome DeleteResult * World.
Variable parse_repository :
  pystr -> bool -> World -> outcome ParseResult * World.
Variable embed_documents :
  pystr -> pystr -> pystr -> World -> outcome EmbedResult * World.
(** [json_file_path.exists()]. *)
Variable path_exists : pystr -> World -> bool.

Record pstate := mkP {
  machine : World;
  row : RepositoryRow;
  events : list event
}.

Definition P (A : Type) : Type := pstate -> flow A * pstate.

Definition ret {A} (a : A) : P A := fun s => (Next a, s).
Definition return_ {A} (r : PipelineResult) : P A := fun s => (Return r, s).
Definition bind {A B} (m : P A) (k : A -> P B) : P B :=
  fun s => match m s with
           | (Next a, s') => k a s'
           | (Return r, s') => (Return r, s')
           | (Throw e, s') => (Throw e, s')
           end.

Notation "x <- m ;; k" := (bind m (fun x => k))
  (at level 61, m at next level, right associativity).
Notation "m ;;; k" := (bind m (fun _ => k))
  (at level 61, right associativity).

Definition record_event (ev : event) (s : pstate) : pstate :=
  {| machine := machine s; row := row s; events := events s ++ [ev] |}.

(** The call of a service; [ok] reads the key [success] of its result. *)
Definition call {R} (st : stage) (args : list pystr) (ok : R -> bool)
    (f : World -> outcome R * World) : P R :=
  fun s =>
    let (o, w) := f (machine s) in
    let s' := {| machine := w; row := row s; events := events s |} in
    match o with
    | Returned r =>
        (Next r,
         record_event
           (Called st args (if ok r then ReportedSuccess else ReportedFailure))
           s')
    | Raised e => (Throw e, record_event (Called st args RaisedException) s')
    end.

(** Modelled from the spec: [RepositoryService.update_repository_status]
    and [update_file_count] ([backend/services/repository_service.py]) are
    not among the sources; they record the state of the repository, here the
    columns [status], [vectordb_status] and [file_count] of its row. *)
Definition write_status (st vst : pystr) (s : pstate) : pstate :=
  record_event (StatusWritten st vst)
    {| machine := machine s;
       row := {| status := st; vectordb_status := vst;
                 file_count := file_count (row s) |};
       events := events s |}.

Definition update_repository_status (st vst : string) : P unit :=
  fun s => (Next tt, write_status (str st) (str vst) s).

Definition update_file_count (n : Z) : P unit :=
  fun s =>
    (Next tt,
     record_event (FileCountWritten n)
       {| machine := machine s;
          row := {| status := status (row s);
                    vectordb_status := vectordb_status (row s);
                    file_count := n |};
          events := events s |}).

Definition get_or {A} (o : option A) (default : A) : A :=
  match o with Some a => a | None => default end.

Section Run.

Variables repo_id repo_name collection_name : pystr.
Variable save_json : bool.
Variable model_key : pystr.

(** [Path(f"parsed_repository/{repo_name}") / json_filename]. *)
Definition json_file_path (json_filename : pystr) : pystr :=
  str "parsed_repository/" ++ repo_name ++ str "/" ++ json_filename.

(** The loop of step 5, [for json_filename in files_to_update]. *)
Fixpoint embed_loop (files : list pystr) (total_embedded_count : Z) : P Z :=
  match files with
  | [] => ret total_embedded_count
  | json_filename :: rest =>
      fun s =>
        if negb (path_exists (json_file_path json_filename) (machine s))
        then embed_loop rest total_embedded_count s
        else
          (embed_result <-
             call StageEmbed [json_file_path json_filename] embed_success
               (embed_documents (json_file_path json_filename)
                  collection_name model_key) ;;
           if negb (embed_success embed_result) then
             update_repository_status "active" "error" ;;;
             return_ (Failed (str "Embedding failed for " ++ json_filename)
                        (str "embed"))
           else
             embed_loop rest
               (total_embedded_count
                + get_or (embed_inserted_count embed_result) 0)%Z) s
  end.

(** The body of the [try]. *)
Definition pipeline_body : P PipelineResult :=
  update_repository_status "updating" "pending" ;;;
  diff_result <-
    call StageDiff [repo_name] diff_success (diff_files repo_name) ;;
  if negb (diff_success diff_result) then
    update_repository_status "active" "error" ;;;
    return_ (Failed (str "Failed to get diff: "
                     ++ fmt_opt (diff_error diff_result)) (str "diff"))
  else
  let files_to_update := diff_files_list diff_result in
  pull_result <-
    call StagePull [repo_name] pull_success (pull_repository repo_name) ;;
  if negb (pull_success pull_result) then
    update_repository_status "error" "error" ;;;
    return_ (Failed (str "Git pull failed: "
                     ++ fmt_opt (pull_error pull_result)) (str "pull"))
  else
  update_repository_status "updating" "updating" ;;;
  deleted_count <-
    match files_to_update with
    | [] => ret 0%Z
    | _ =>
        delete_result <-
          call StageDelete files_to_update delete_success
            (delete_entities collection_name files_to_update) ;;
        if negb (delete_success delete_result) then
          update_repository_status "active" "error" ;;;
          return_ (Failed (str "Failed to delete entities: "
                           ++ fmt_opt (delete_error delete_result))
                     (str "delete_entities"))
        else ret (Z.of_nat (length files_to_update))
    end ;;
  parse_result <-
    call StageParse [repo_name] parse_success
      (parse_repository repo_name save_json) ;;
  if negb (parse_success parse_result) then
    update_repository_status "error" "error" ;;;
    return_ (Failed (str "Parsing failed: "
                     ++ fmt_opt (parse_message parse_result)) (str "parse"))
  else
  let file_count := get_or (parse_total_files parse_result) 0%Z in
  update_file_count file_count ;;;
  total_embedded_count <-
    match files_to_update with
    | [] => ret 0%Z
    | _ => embed_loop files_to_update 0%Z
    end ;;
  update_repository_status "active" "active" ;;;
  ret (Succeeded repo_id repo_name file_count deleted_count
         total_embedded_count (str "Repository updated successfully")).

(** The task: the [try], its [except Exception] and its [finally]. *)
Definition update_repository_pipeline (s : pstate) : PipelineResult * pstate :=
  let (f, s1) := pipeline_body s in
  let (r, s2) :=
    match f with
    | Next r => (r, s1)
    | Return r => (r, s1)
    | Throw e =>
        (Failed e (str "unknown"),
         write_status (str "error") (str "error") s1)
    end in
  (r, record_event DbClosed s2).

End Run.
End Task.

Arguments machine {World} _.
Arguments row {World} _.
Arguments events {World} _.
Arguments mkP {World} _ _ _.
Arguments record_event {World} _ _.
Arguments write_status {World} _ _ _.

End Pipeline.

(* ===================================================================== *)
(** * [routers/repository.py]: [sync_repository] *)
(* ===================================================================== *)

Module Api.
Import Py Git.

(** A row of [repositories], by the columns the endpoint reads. *)
Record Repository := mkRepository {
  id : pystr;
  name : pystr;
  status : pystr;
  vectordb_status : pystr
}.

Definition Database := list Repository.

(** The keyword arguments of the task the endpoint sends. *)
Record Task := mkTask {
  task_name : pystr;
  task_repo_id : pystr;
  task_repo_name : pystr;
  task_collection_name : pystr;
  task_save_json : bool;
  task_model_key : pystr
}.

(** The broker of Celery: whether it can be reached, and the messages sent
    and not yet taken by a worker, oldest first. *)
Record Broker := mkBroker {
  reachable : bool;
  queue : list (pystr * Task)
}.

Inductive response :=
| HTTPException (status_code : nat) (detail : pystr)
| SyncStarted (message task_id repo_id : pystr).

Section Endpoint.

(** [RepositoryService.check_user_permission(db, repo_id, user_id, role)]. *)
Variable check_user_permission : Database -> pystr -> pystr -> pystr -> bool.
(** The identifier Celery gives a new task. *)
Variable new_task_id : Broker -> pystr.

(** Modelled from the spec: [RepositoryService.get_repository]
    ([backend/services/repository_service.py]) is not among the sources; it
    reads the repository with the given identifier, if there is one. *)
Definition get_repository (db : Database) (repo_id : pystr)
  : option Repository :=
  find (fun r => pystr_eqb (id r) repo_id) db.

(** [celery_app.send_task(name, kwargs=...)]. *)
Definition send_task (t : Task) (b : Broker) : outcome pystr * Broker :=
  if reachable b then
    (Returned (new_task_id b),
     {| reachable := true; queue := queue b ++ [(new_task_id b, t)] |})
  else (Raised (str "broker unreachable"), b).

(** [s.replace('-', '_')]. *)
Definition replace_hyphens (s : pystr) : pystr :=
  map (fun c => if (c =? 45)%N then 95%N else c) s.

Definition in_progress_statuses : list pystr :=
  [str "syncing"; str "updating"; str "pending"].

Definition sync_repository (repo_id current_user_id : pystr)
    (db : Database) (b : Broker) : response * Database * Broker :=
  if negb (check_user_permission db repo_id current_user_id (str "admin"))
  then (HTTPException 403
          (str "You don't have permission to sync this repository"), db, b)
  else
    match get_repository db repo_id with
    | None => (HTTPException 404 (str "Repository not found"), db, b)
    | Some repository =>
        if existsb (pystr_eqb (status repository)) in_progress_statuses then
          (HTTPException 400
             (str "Repository is already being processed (status: "
              ++ status repository ++ str ")"), db, b)
        else
          let collection_name :=
            str "repo_" ++ replace_hyphens (id repository) in
          let task :=
            {| task_name := str "rag_worker.tasks.update_repository_pipeline";
               task_repo_id := id repository;
               task_repo_name := name repository;
               task_collection_name := collection_name;
               task_save_json := true;
               task_model_key := str "text-embedding-3-small" |} in
          match send_task task b with
          | (Returned task_id, b') =>
              (SyncStarted
                 (str "Repository sync started for '" ++ name repository
                  ++ str "'") task_id (id repository), db, b')
          | (Raised task_error, b') =>
              (HTTPException 500
                 (str "Failed to start sync task: " ++ task_error), db, b')
          end
    end.

(** The syncs of a repository that have been accepted and that no worker
    has taken up yet. *)
Definition pending_syncs (repo_id : pystr) (b : Broker) : nat :=
  length (filter (fun m => pystr_eqb (task_repo_id (snd m)) repo_id)
            (queue b)).

End Endpoint.

End Api.

(* ===================================================================== *)
(** * More of Python's [str] *)
(* ===================================================================== *)

Module PyStr.
Import Py.

(** [s.startswith(prefix)]. *)
Fixpoint startswith (prefix s : pystr) : bool :=
  match prefix, s with
  | [], _ => true
  | c :: prefix', d :: s' => (c =? d)%N && startswith prefix' s'
  | _ :: _, [] => false
  end.

(** [needle in s]. *)
Fixpoint contains (needle s : pystr) : bool :=
  match s with
  | [] => startswith needle []
  | _ :: s' => startswith needle s || contains needle s'
  end.

(** [s.replace(old, new)] for an [old] that is not empty: the occurrences
    are taken from the left and do not overlap; [skip] counts the characters
    of an occurrence that are still to be passed over. *)
Fixpoint replace_from (old new : pystr) (skip : nat) (s : pystr) : pystr :=
  match s with
  | [] => []
  | c :: s' =>
      match skip with
      | S k => replace_from old new k s'
      | O =>
          if startswith old s
          then new ++ replace_from old new (length old - 1) s'
          else c :: replace_from old new 0 s'
      end
  end.

Definition replace (old new s : pystr) : pystr := replace_from old new 0 s.

(** [s.count(c)] for one character. *)
Definition count (c : char) (s : pystr) : nat := count_occ N.eq_dec s c.

End PyStr.

(* ===================================================================== *)
(** * [service.py]: [clone_repository] and [check_commit_status] *)
(* ===================================================================== *)

Module Repo.
Import Py PyStr Git.

(** [CommitInfo], [CloneResult] and [StatusResult] of [types.py]. *)
Record CommitInfo := mkCommitInfo {
  hash : pystr;
  author_name : pystr;
  author_email : pystr;
  message : pystr;
  date : pystr
}.

Record CloneResult := mkClone {
  clone_success : bool;
  clone_repo_name : pystr;
  clone_repo_path : pystr;
  clone_message : option pystr;
  clone_error : option pystr
}.

Record StatusResult := mkStatus {
  status_success : bool;
  status_repo_name : pystr;
  status_repo_path : pystr;
  branch : pystr;
  has_changes : bool;
  status : pystr;
  latest_commit : option CommitInfo;
  status_error : option pystr
}.

(** The two literals of the handler of [clone_repository] that are not
    ASCII, by their code points: the text of Windows for a program that is
    not found, and the message that takes its place. *)
Definition file_not_found_text : pystr :=
  [51648; 51221; 46108; 32; 54028; 51068; 51012; 32; 52286; 51012; 32; 49688;
   32; 50630; 49845; 45768; 45796]%N.

Definition git_not_installed : pystr :=
  [71; 105; 116; 51060; 32; 49444; 52824; 46104; 50612; 32; 51080; 51648; 32;
   50506; 44144; 45208; 32; 80; 65; 84; 72; 50640; 32; 46321; 47197; 46104;
   51648; 32; 50506; 50520; 49845; 45768; 45796; 46; 32; 71; 105; 116; 51012;
   32; 49444; 52824; 54620; 32; 54980; 32; 45796; 49884; 32; 49884; 46020;
   54644; 51452; 49464; 50836; 46]%N.

(** Modelled from the spec: [RepositoryAlreadyExistsError]
    ([git_service/exceptions.py]) is not among the sources; it is the fourth
    exception of the service, and [str(e)] gives its message. *)
Inductive clone_exception :=
| RepositoryAlreadyExistsError (msg : pystr)
| RunnerError (e : git_exception).

Definition clone_exception_text (e : clone_exception) : pystr :=
  match e with
  | RepositoryAlreadyExistsError m => m
  | RunnerError e => exception_text e
  end.

(** [git_url.split('/')[-1].replace('.git', '')]. *)
Definition name_from_url (git_url : pystr) : pystr :=
  replace (str ".git") [] (last (split_on 47%N git_url) []).

(** [repo_name] after [if not repo_name: repo_name = ...]. *)
Definition clone_name (git_url : pystr) (repo_name : option pystr) : pystr :=
  if is_empty (or_empty repo_name) then name_from_url git_url
  else or_empty repo_name.

(** [error_msg] in the handler of [clone_repository]. *)
Definition clone_error_text (error_msg : pystr) : pystr :=
  if contains file_not_found_text error_msg
     || contains (str "No such file or directory") error_msg
  then git_not_installed
  else error_msg.

(** The commit information of [check_commit_status], from the output of
    [git log -1 --pretty=format:%H|%an|%ae|%s|%ci]. *)
Definition commit_info (stdout : pystr) : option CommitInfo :=
  if negb (is_empty (strip stdout)) then
    match split_on 124%N (strip stdout) with
    | [p0; p1; p2; p3; p4] =>
        Some {| hash := p0; author_name := p1; author_email := p2;
                message := p3; date := p4 |}
    | _ => None
    end
  else None.

Section Service.

Variable World : Type.
Variable subprocess_run : invocation -> World -> process * World.
Variable repo_exists : pystr -> World -> bool.
Variable get_repo_path : pystr -> pystr.

Local Abbreviation state := (Git.state World).
Local Abbreviation G := (Git.G World).
Local Abbreviation run := (Git.run World subprocess_run).
Local Abbreviation validate_exists := (Git.validate_exists World repo_exists).

Notation "x <- m ;; k" := (Git.bind World m (fun x => k))
  (at level 61, m at next level, right associativity).
Notation "m ;;; k" := (Git.bind World m (fun _ => k))
  (at level 61, right associativity).

(** [RepositoryManager.validate_not_exists]. *)
Definition validate_not_exists (repo_name : pystr) (s : state)
  : (unit + clone_exception) * state :=
  if repo_exists repo_name (world s)
  then (inr (RepositoryAlreadyExistsError
               (str "Repository " ++ repo_name ++ str " already exists")), s)
  else (inl tt, s).

(** [GitService.clone_repository]; the runner is called without [cwd], which
    is written as the empty path. *)
Definition clone_body (git_url repo_name : pystr) (s : state)
  : (CloneResult + clone_exception) * state :=
  match validate_not_exists repo_name s with
  | (inr e, s1) => (inr e, s1)
  | (inl _, s1) =>
      let repo_path := get_repo_path repo_name in
      match run [str "git"; str "clone"; git_url; repo_path] [] 300 s1 with
      | (inr e, s2) => (inr (RunnerError e), s2)
      | (inl _, s2) =>
          (inl {| clone_success := true;
                  clone_repo_name := repo_name;
                  clone_repo_path := repo_path;
                  clone_message := Some (str "Repository cloned successfully");
                  clone_error := None |}, s2)
      end
  end.

Definition clone_repository (git_url : pystr) (repo_name : option pystr)
    (s : state) : CloneResult * state :=
  let repo_name := clone_name git_url repo_name in
  match clone_body git_url repo_name s with
  | (inl r, s') => (r, s')
  | (inr e, s') =>
      let error_msg := clone_error_text (clone_exception_text e) in
      ({| clone_success := false;
          clone_repo_name := repo_name;
          clone_repo_path := [];
          clone_message := Some error_msg;
          clone_error := Some error_msg |}, s')
  end.

(** [GitService.check_commit_status]. *)
Definition status_body (repo_name : pystr) : G StatusResult :=
  validate_exists repo_name ;;;
  let repo_path := get_repo_path repo_name in
  status_result <- run (git ["status"; "--porcelain"]%string) repo_path 300 ;;
  log_result <-
    run (git ["log"; "-1"; "--pretty=format:%H|%an|%ae|%s|%ci"]%string)
      repo_path 300 ;;
  branch_result <-
    run (git ["branch"; "--show-current"]%string) repo_path 300 ;;
  Git.ret World
    {| status_success := true;
       status_repo_name := repo_name;
       status_repo_path := repo_path;
       branch := strip (run_stdout branch_result);
       has_changes := negb (is_empty (strip (run_stdout status_result)));
       status := run_stdout status_result;
       latest_commit := commit_info (run_stdout log_result);
       status_error := None |}.

Definition check_commit_status (repo_name : pystr) (s : state)
  : StatusResult * state :=
  match status_body repo_name s with
  | (inl r, s') => (r, s')
  | (inr e, s') =>
      ({| status_success := false;
          status_repo_name := repo_name;
          status_repo_path := [];
          branch := [];
          has_changes := false;
          status := [];
          latest_commit := None;
          status_error := Some (exception_text e) |}, s')
  end.

End Service.

End Repo.

(* ===================================================================== *)
(** * [python_parser/service.py] *)
(* ===================================================================== *)

Module Parser.
Import Py Git.

(** ** [pathlib]: [relative_to] and [/] *)

Fixpoint strip_prefix (prefix l : list pystr) : option (list pystr) :=
  match prefix, l with
  | [], _ => Some l
  | x :: prefix', y :: l' =>
      if pystr_eqb x y then strip_prefix prefix' l' else None
  | _ :: _, [] => None
  end.

(** [p.relative_to(other)]; [None] is the [ValueError] for a path that is
    not below [other]. *)
Definition relative_to (p other : PurePath) : option PurePath :=
  if pystr_eqb (root p) (root other) then
    option_map (fun ps => {| root := []; parts := ps |})
      (strip_prefix (parts other) (parts p))
  else None.

(** [base / rel] for a relative [rel]. *)
Definition joinpath (base rel : PurePath) : PurePath :=
  {| root := root base; parts := parts base ++ parts rel |}.

(** [s.replace('\\', '/')]. *)
Definition replace_backslashes (s : pystr) : pystr :=
  map (fun c => if (c =? 92)%N then 47%N else c) s.

Section Service.

(** The machine the parser runs on, and [ChunkEntry], of which the service
    counts the values and writes them out. *)
Variable World : Type.
Variable ChunkEntry : Type.
(** [repo_path.exists()]. *)
Variable path_exists : pystr -> World -> bool.
(** [FileScanner.scan_repository(repo_path)]. *)
Variable scan_repository : pystr -> World -> outcome (list pystr) * World.
(** [PythonASTParser.parse_file(file_path)]. *)
Variable parse_file : pystr -> World -> outcome (list ChunkEntry) * World.
(** [output_file.parent.mkdir], [open(output_file, "w")] and [json.dump] of
    the chunks with their [file_path] set to the relative path; what they
    raise is caught by [_save_chunks_to_json]. *)
Variable write_json : pystr -> pystr -> list ChunkEntry -> World -> World.
(** [str(base_path / repo_name)] and
    [str(base_path.parent / "parsed_repository" / repo_name)]. *)
Variables get_repo_path get_output_path : pystr -> pystr.

(** [ParseResult]. *)
Record ParseResult := mkParseResult {
  success : bool;
  file_path : pystr;
  chunks : list ChunkEntry;
  error : option pystr
}.

(** [RepositoryParseResult]. *)
Record RepositoryParseResult := mkRepositoryParseResult {
  repo_success : bool;
  repo_name : pystr;
  repo_path : pystr;
  total_files : nat;
  parsed_files : nat;
  failed_files : nat;
  total_chunks : nat;
  output_path : pystr;
  files : list ParseResult;
  repo_error : option pystr
}.

(** State of a run: the machine, and the files [_save_chunks_to_json] has
    asked to write, oldest first. *)
Record state := mkState { machine : World; written : list pystr }.

(** [PythonChunker.chunk_file]. *)
Definition chunk_file (py_file : pystr) (s : state) : ParseResult * state :=
  let (o, w) := parse_file py_file (machine s) in
  let s' := {| machine := w; written := written s |} in
  match o with
  | Returned parsed =>
      ({| success := true; file_path := py_file; chunks := parsed;
          error := None |}, s')
  | Raised e =>
      ({| success := false; file_path := py_file; chunks := [];
          error := Some e |}, s')
  end.

(** [_save_chunks_to_json]: the [ValueError] of [relative_to] and of
    [with_suffix] and the exceptions of the writing end in its
    [except Exception]. *)
Definition _save_chunks_to_json (py_file : pystr) (parsed : list ChunkEntry)
    (repo_path repo_name : pystr) (s : state) : state :=
  match relative_to (parse_path py_file) (parse_path repo_path) with
  | None => s
  | Some relative_path =>
      let relative_path_str := replace_backslashes (path_str relative_path) in
      match with_suffix relative_path (str ".json") with
      | None => s
      | Some json_path =>
          let output_file :=
            path_str (joinpath (parse_path (get_output_path repo_name))
                        json_path) in
          {| machine :=
               write_json output_file relative_path_str parsed (machine s);
             written := written s ++ [output_file] |}
      end
  end.

(** The loop [for py_file in python_files]. *)
Fixpoint parse_files (repo_path repo_name : pystr) (save_json : bool)
    (python_files : list pystr) (parse_results : list ParseResult)
    (total_chunks : nat) (s : state) : list ParseResult * nat * state :=
  match python_files with
  | [] => (parse_results, total_chunks, s)
  | py_file :: rest =>
      let (result, s1) := chunk_file py_file s in
      let parse_results := parse_results ++ [result] in
      if success result then
        let total_chunks := total_chunks + length (chunks result) in
        let s2 :=
          if save_json
          then _save_chunks_to_json py_file (chunks result) repo_path
                 repo_name s1
          else s1 in
        parse_files repo_path repo_name save_json rest parse_results
          total_chunks s2
      else
        parse_files repo_path repo_name save_json rest parse_results
          total_chunks s1
  end.

(** The result of the [except Exception] of [parse_repository]. *)
Definition parse_failure (repo_name e : pystr) : RepositoryParseResult :=
  {| repo_success := false; repo_name := repo_name;
     repo_path := get_repo_path repo_name;
     total_files := 0; parsed_files := 0; failed_files := 0;
     total_chunks := 0; output_path := []; files := [];
     repo_error := Some e |}.

(** [RepositoryParserService.parse_repository].  Modelled from the spec:
    [InvalidRepositoryError] ([python_parser/exceptions.py]) is not among
    the sources; [str(e)] gives its message. *)
Definition parse_repository (repo_name : pystr) (save_json : bool) (s : state)
  : RepositoryParseResult * state :=
  let repo_path := get_repo_path repo_name in
  if negb (path_exists repo_path (machine s)) then
    (parse_failure repo_name
       (str "Repository " ++ repo_name ++ str " not found at " ++ repo_path),
     s)
  else
    let (o, w) := scan_repository repo_path (machine s) in
    let s1 := {| machine := w; written := written s |} in
    match o with
    | Raised e => (parse_failure repo_name e, s1)
    | Returned [] =>
        ({| repo_success := true; repo_name := repo_name;
            repo_path := repo_path;
            total_files := 0; parsed_files := 0; failed_files := 0;
            total_chunks := 0; output_path := []; files := [];
            repo_error := None |}, s1)
    | Returned python_files =>
        let '(parse_results, total_chunks, s2) :=
          parse_files repo_path repo_name save_json python_files [] 0 s1 in
        let parsed_files := length (filter success parse_results) in
        let failed_files := length parse_results - parsed_files in
        ({| repo_success := true; repo_name := repo_name;
            repo_path := repo_path;
            total_files := length python_files;
            parsed_files := parsed_files;
            failed_files := failed_files;
            total_chunks := total_chunks;
            output_path :=
              if save_json then get_output_path repo_name else [];
            files := parse_results;
            repo_error := None |}, s2)
    end.

End Service.

Arguments success {ChunkEntry} _.
Arguments file_path {ChunkEntry} _.
Arguments chunks {ChunkEntry} _.
Arguments error {ChunkEntry} _.
Arguments repo_success {ChunkEntry} _.
Arguments repo_name {ChunkEntry} _.
Arguments repo_path {ChunkEntry} _.
Arguments total_files {ChunkEntry} _.
Arguments parsed_files {ChunkEntry} _.
Arguments failed_files {ChunkEntry} _.
Arguments total_chunks {ChunkEntry} _.
Arguments output_path {ChunkEntry} _.
Arguments files {ChunkEntry} _.
Arguments repo_error {ChunkEntry} _.
Arguments machine {World} _.
Arguments written {World} _.
Arguments mkState {World} _ _.

End Parser.

(* ===================================================================== *)
(** * [vector_db/collection_manager.py]: [delete_entities_by_source_files] *)
(* ===================================================================== *)

Module Milvus.
Import Py Git.

(** The requests the manager sends to [MilvusClient]. *)
Inductive request :=
| HasCollection (collection_name : pystr)
| LoadCollection (collection_name : pystr)
| Delete (collection_name filter : pystr)
| ReleaseCollection (collection_name : pystr).

(** The dictionary [delete_entities_by_source_files] returns; a key that is
    missing reads as [None]. *)
Record DeleteResult := mkDeleteResult {
  success : bool;
  deleted_count : Z;
  message : option pystr;
  error : option pystr
}.

(** [f"_source_file IN [{', '.join(formatted_files)}]"]. *)
Definition filter_expr (source_files : list pystr) : pystr :=
  str "_source_file IN ["
  ++ join (str ", ") (map (fun f => str "'" ++ f ++ str "'") source_files)
  ++ str "]".

Section Client.

(** The server, and the methods of the client; each of them may raise.
    [delete] gives the attribute [delete_count] of its result, if the result
    has one. *)
Variable World : Type.
Variable has_collection : pystr -> World -> outcome bool * World.
Variable load_collection : pystr -> World -> outcome unit * World.
Variable delete : pystr -> pystr -> World -> outcome (option Z) * World.
Variable release_collection : pystr -> World -> outcome unit * World.

(** State of a run: the server, and the requests sent so far, oldest
    first. *)
Record state := mkState { server : World; requests : list request }.

Definition M (A : Type) : Type := state -> outcome A * state.

Definition ret {A} (a : A) : M A := fun s => (Returned a, s).
Definition raise {A} (e : pystr) : M A := fun s => (Raised e, s).
Definition bind {A B} (m : M A) (k : A -> M B) : M B :=
  fun s => match m s with
           | (Returned a, s') => k a s'
           | (Raised e, s') => (Raised e, s')
           end.

Notation "x <- m ;; k" := (bind m (fun x => k))
  (at level 61, m at next level, right associativity).
Notation "m ;;; k" := (bind m (fun _ => k))
  (at level 61, right associativity).

(** A request to the server. *)
Definition send {A} (r : request) (f : World -> outcome A * World) : M A :=
  fun s =>
    let (o, w) := f (server s) in
    (o, {| server := w; requests := requests s ++ [r] |}).

(** [CollectionManager.exists]. *)
Definition exists_ (collection_name : pystr) : M bool :=
  send (HasCollection collection_name) (has_collection collection_name).

(** [CollectionManager.validate_exists].  Modelled from the spec:
    [CollectionNotFoundError] ([vector_db/exceptions.py]) is not among the
    sources; [str(e)] gives its message. *)
Definition validate_exists (collection_name : pystr) : M unit :=
  found <- exists_ collection_name ;;
  if negb found
  then raise (str "Collection '" ++ collection_name ++ str "' not found")
  else ret tt.

(** The body of the [try] of [delete_entities_by_source_files]. *)
Definition delete_body (collection_name : pystr) (source_files : list pystr)
  : M DeleteResult :=
  validate_exists collection_name ;;;
  send (LoadCollection collection_name) (load_collection collection_name) ;;;
  match source_files with
  | [] =>
      ret {| success := true; deleted_count := 0;
             message := Some (str "No files to delete."); error := None |}
  | _ =>
      delete_count <-
        send (Delete collection_name (filter_expr source_files))
          (delete collection_name (filter_expr source_files)) ;;
      let deleted_count :=
        match delete_count with Some n => n | None => (-1)%Z end in
      ret {| success := true; deleted_count := deleted_count;
             message :=
               Some (str "Successfully deleted entities from "
                     ++ decimal (length source_files)
                     ++ str " source files.");
             error := None |}
  end.

(** The [finally]. *)
Definition release (collection_name : pystr) : M unit :=
  found <- exists_ collection_name ;;
  if found
  then send (ReleaseCollection collection_name)
         (release_collection collection_name)
  else ret tt.

(** [delete_entities_by_source_files]: the [try], its
    [except (CollectionNotFoundError, Exception)] and its [finally], whose
    exception, if it raises one, takes the place of the result. *)
Definition delete_entities_by_source_files (collection_name : pystr)
    (source_files : list pystr) : M DeleteResult :=
  fun s =>
    let (o, s1) := delete_body collection_name source_files s in
    let result :=
      match o with
      | Returned r => r
      | Raised e =>
          {| success := false; deleted_count := 0; message := None;
             error := Some e |}
      end in
    match release collection_name s1 with
    | (Returned _, s2) => (Returned result, s2)
    | (Raised e, s2) => (Raised e, s2)
    end.

End Client.

Arguments server {World} _.
Arguments requests {World} _.
Arguments mkState {World} _ _.

End Milvus.

(* ===================================================================== *)
(** * [tasks.py]: [process_repository_pipeline] *)
(* ===================================================================== *)

Module Process.
Import Py Git.

(** The dictionary [embed_repository] returns, by the keys the task reads
    with a subscript: a key that is missing is [None] here and raises
    [KeyError] there; the message may be [None] itself. *)
Record EmbeddingResult := mkEmbedding {
  embed_success : bool;
  embed_message : option (option pystr);
  embed_inserted_count : option Z
}.

(** The dictionary the task returns. *)
Inductive ProcessResult :=
| Failed (error step : pystr) (file_count : option nat)
| Succeeded (repo_id repo_name : pystr) (file_count total_chunks : nat)
    (collection_name : pystr) (embedded_count : Z) (message : pystr).

Definition success (r : ProcessResult) : bool :=
  match r with Failed _ _ _ => false | Succeeded _ _ _ _ _ _ _ => true end.

Definition step_of (r : ProcessResult) : option pystr :=
  match r with Failed _ step _ => Some step | _ => None end.

(** The columns of [models/repository.py] the task writes through
    [RepositoryDBHelper]. *)
Record RepositoryRow := mkRow {
  status : pystr;
  vectordb_status : pystr
}.

Inductive stage := StageClone | StageParse | StageEmbed.

Inductive ending := ReportedSuccess | ReportedFailure | RaisedException.

(** What the task does to the outside, in the order it does it. *)
Inductive event :=
| StatusWritten (status vectordb_status : pystr)
    (error_message : option pystr)
| FileCountWritten (n : nat)
| CollectionsCountIncremented
| Called (st : stage) (args : list pystr) (e : ending)
| DbClosed.

Inductive flow (A : Type) :=
| Next (a : A)
| Return (r : ProcessResult)
| Throw (exc : pystr).
Arguments Next {A} a.
Arguments Return {A} r.
Arguments Throw {A} exc.

Section Task.

(** The services the task calls, each on the machine it runs on, and the
    type of the chunks of the parser. *)
Variable World : Type.
Variable ChunkEntry : Type.
Variable clone_repository :
  pystr -> option pystr -> World -> outcome Repo.CloneResult * World.
Variable parse_repository :
  pystr -> bool -> World
  -> outcome (Parser.RepositoryParseResult ChunkEntry) * World.
Variable embed_repository :
  pystr -> pystr -> pystr -> World -> outcome EmbeddingResult * World.

Record pstate := mkP {
  machine : World;
  row : RepositoryRow;
  events : list event
}.

Definition P (A : Type) : Type := pstate -> flow A * pstate.

Definition ret {A} (a : A) : P A := fun s => (Next a, s).
Definition return_ {A} (r : ProcessResult) : P A := fun s => (Return r, s).
Definition bind {A B} (m : P A) (k : A -> P B) : P B :=
  fun s => match m s with
           | (Next a, s') => k a s'
           | (Return r, s') => (Return r, s')
           | (Throw e, s') => (Throw e, s')
           end.

Notation "x <- m ;; k" := (bind m (fun x => k))
  (at level 61, m at next level, right associativity).
Notation "m ;;; k" := (bind m (fun _ => k))
  (at level 61, right associativity).

Definition record_event (ev : event) (s : pstate) : pstate :=
  {| machine := machine s; row := row s; events := events s ++ [ev] |}.

(** The call of a service; [ok] reads the key [success] of its result. *)
Definition call {R} (st : stage) (args : list pystr) (ok : R -> bool)
    (f : World -> outcome R * World) : P R :=
  fun s =>
    let (o, w) := f (machine s) in
    let s' := {| machine := w; row := row s; events := events s |} in
    match o with
    | Returned r =>
        (Next r,
         record_event
           (Called st args (if ok r then ReportedSuccess else ReportedFailure))
           s')
    | Raised e => (Throw e, record_event (Called st args RaisedException) s')
    end.

(** [d[key]]: the value, or [KeyError(key)], whose text is the key in
    quotes. *)
Definition getitem {A} (key : string) (value : option A) : P A :=
  fun s =>
    match value with
    | Some a => (Next a, s)
    | None => (Throw (str "'" ++ str key ++ str "'"), s)
    end.

(** Modelled from the spec: [RepositoryDBHelper] ([rag_worker/db_helper.py])
    is not among the sources; its three methods record the state of the
    repository, the number of its files and one more collection, here as
    events and, for the state, as the columns [status] and
    [vectordb_status] of the row. *)
Definition write_status (st vst : pystr) (error_message : option pystr)
    (s : pstate) : pstate :=
  record_event (StatusWritten st vst error_message)
    {| machine := machine s;
       row := {| status := st; vectordb_status := vst |};
       events := events s |}.

Definition update_repository_status (st vst : string)
    (error_message : option pystr) : P unit :=
  fun s => (Next tt, write_status (str st) (str vst) error_message s).

Definition update_file_count (n : nat) : P unit :=
  fun s => (Next tt, record_event (FileCountWritten n) s).

Definition increment_collections_count : P unit :=
  fun s => (Next tt, record_event CollectionsCountIncremented s).

Section Run.

Variables repo_id git_url repo_name model_key : pystr.

(** The body of the [try].  The result of [parse_repository] has no key
    [message], so the subscript of the branch for a parse that failed raises
    [KeyError]. *)
Definition process_body : P ProcessResult :=
  update_repository_status "syncing" "pending" None ;;;
  clone_result <-
    call StageClone [git_url; repo_name] Repo.clone_success
      (clone_repository git_url (Some repo_name)) ;;
  if negb (Repo.clone_success clone_result) then
    let error_msg :=
      str "Git clone failed: " ++ fmt_opt (Repo.clone_message clone_result) in
    update_repository_status "error" "error" (Some error_msg) ;;;
    return_ (Failed error_msg (str "clone") None)
  else
  parse_result <-
    call StageParse [repo_name] Parser.repo_success
      (parse_repository repo_name true) ;;
  if negb (Parser.repo_success parse_result) then
    message <- getitem "message" (@None pystr) ;;
    let error_msg := str "Parsing failed: " ++ message in
    update_repository_status "error" "error" (Some error_msg) ;;;
    return_ (Failed error_msg (str "parse") None)
  else
  let file_count := Parser.total_files parse_result in
  update_file_count file_count ;;;
  update_repository_status "syncing" "syncing" None ;;;
  let collection_name := str "repo_" ++ Api.replace_hyphens repo_id in
  embed_result <-
    call StageEmbed [repo_name; collection_name; model_key] embed_success
      (embed_repository repo_name collection_name model_key) ;;
  if negb (embed_success embed_result) then
    message <- getitem "message" (embed_message embed_result) ;;
    let error_msg := str "Embedding failed: " ++ fmt_opt message in
    update_repository_status "active" "error" (Some error_msg) ;;;
    return_ (Failed error_msg (str "embed") (Some file_count))
  else
  increment_collections_count ;;;
  update_repository_status "active" "active" None ;;;
  embedded_count <-
    getitem "inserted_count" (embed_inserted_count embed_result) ;;
  ret (Succeeded repo_id repo_name file_count
         (Parser.total_chunks parse_result) collection_name embedded_count
         (str "Repository processed successfully")).

(** The task: the [try], its [except Exception] and its [finally]. *)
Definition process_repository_pipeline (s : pstate)
  : ProcessResult * pstate :=
  let (f, s1) := process_body s in
  let (r, s2) :=
    match f with
    | Next r => (r, s1)
    | Return r => (r, s1)
    | Throw e =>
        let error_msg := str "Unexpected error: " ++ e in
        (Failed error_msg (str "unknown") None,
         write_status (str "error") (str "error") (Some error_msg) s1)
    end in
  (r, record_event DbClosed s2).

End Run.
End Task.

Arguments machine {World} _.
Arguments row {World} _.
Arguments events {World} _.
Arguments mkP {World} _ _ _.
Arguments record_event {World} _ _.
Arguments write_status {World} _ _ _ _.

End Process.

(* ===================================================================== *)
(** * [repository_settings_page.py]: the two status checks *)
(* ===================================================================== *)

Module Settings.
Import Py Git.

(** The answer of [GET /api/repositories/{repo_id}/status], by the keys the
    page reads with [get]. *)
Record StatusData := mkStatusData {
  status : option pystr;
  vectordb_status : option pystr;
  error_message : option pystr
}.

(** [ui.notify(text, color=..., timeout=...)]. *)
Record notification := mkNotify {
  text : pystr;
  color : pystr;
  timeout : N
}.

(** What a check has done so far: its counter, whether its timer is still
    active, the notifications shown and the number of reloads of the
    page. *)
Record page := mkPage {
  check_count : nat;
  timer_active : bool;
  notifications : list notification;
  reloads : nat
}.

(** The characters of the texts that are not ASCII: the cross mark, the
    check mark and the stopwatch; and the double quote. *)
Definition cross_mark : pystr := [10060%N].
Definition check_mark : pystr := [9989%N].
Definition stopwatch : pystr := [9201%N; 65039%N].
Definition dq : pystr := [34%N].

(** [value == 'literal'] for a value read with [get]. *)
Definition is_ (value : option pystr) (literal : string) : bool :=
  opt_eqb value (Some (str literal)).

(** The truth of a value read with [get]. *)
Definition truthy (value : option pystr) : bool :=
  negb (is_empty (or_empty value)).

Definition count_up (p : page) : page :=
  {| check_count := S (check_count p); timer_active := timer_active p;
     notifications := notifications p; reloads := reloads p |}.

(** [self.status_timer.active = False]. *)
Definition stop (p : page) : page :=
  {| check_count := check_count p; timer_active := false;
     notifications := notifications p; reloads := reloads p |}.

Definition notify (text : pystr) (color : string) (timeout : N) (p : page)
  : page :=
  {| check_count := check_count p; timer_active := timer_active p;
     notifications :=
       notifications p
       ++ [{| text := text; color := str color; timeout := timeout |}];
     reloads := reloads p |}.

(** [ui.navigate.reload()]. *)
Definition reload (p : page) : page :=
  {| check_count := check_count p; timer_active := timer_active p;
     notifications := notifications p; reloads := S (reloads p) |}.

(** [check_status] of [start_repository_status_check], on the answer of
    [api_service.get_repository_status]. *)
Definition check_repository_status (repo_name : pystr)
    (response : outcome StatusData) (p : page) : page :=
  let max_checks := 60 in
  let p := count_up p in
  match response with
  | Returned status_data =>
      let current_status := status status_data in
      let error_message := error_message status_data in
      if is_ current_status "error" then
        reload
          (if truthy error_message then
             notify (cross_mark ++ str " Failed to process repository " ++ dq
                     ++ repo_name ++ dq ++ str ": " ++ or_empty error_message)
               "negative" 15000%N (stop p)
           else
             notify (cross_mark ++ str " Failed to process repository " ++ dq
                     ++ repo_name ++ dq
                     ++ str ". Please check the repository URL and try again.")
               "negative" 10000%N (stop p))
      else if is_ current_status "active" then
        reload
          (notify (check_mark ++ str " Repository " ++ dq ++ repo_name ++ dq
                   ++ str " processed successfully!")
             "positive" 5000%N (stop p))
      else if max_checks <=? check_count p then
        notify (stopwatch ++ str " Repository " ++ dq ++ repo_name ++ dq
                ++ str " is still processing. Please check back later.")
          "info" 5000%N (stop p)
      else p
  | Raised e => if 5 <=? check_count p then stop p else p
  end.

(** [check_status] of [start_sync_status_check]. *)
Definition check_sync_status (repo_name : pystr)
    (response : outcome StatusData) (p : page) : page :=
  let max_checks := 120 in
  let p := count_up p in
  match response with
  | Returned status_data =>
      let current_status := status status_data in
      let vectordb_status := vectordb_status status_data in
      let error_message := error_message status_data in
      if is_ current_status "error" || is_ vectordb_status "error" then
        reload
          (if truthy error_message then
             notify (cross_mark ++ str " Sync failed for " ++ dq ++ repo_name
                     ++ dq ++ str ": " ++ or_empty error_message)
               "negative" 15000%N (stop p)
           else
             notify (cross_mark ++ str " Sync failed for " ++ dq ++ repo_name
                     ++ dq ++ str ". Please try again.")
               "negative" 10000%N (stop p))
      else if is_ current_status "active" && is_ vectordb_status "active" then
        reload
          (notify (check_mark ++ str " Repository " ++ dq ++ repo_name ++ dq
                   ++ str " synchronized successfully!")
             "positive" 5000%N (stop p))
      else if max_checks <=? check_count p then
        notify (stopwatch ++ str " Sync is still in progress for " ++ dq
                ++ repo_name ++ dq ++ str ". Please check back later.")
          "info" 5000%N (stop p)
      else p
  | Raised e => if 5 <=? check_count p then stop p else p
  end.

(** [ui.timer(1.0, check_status)]: the timer calls the check once for every
    answer, as long as it is active. *)
Definition tick (check : outcome StatusData -> page -> page)
    (response : outcome StatusData) (p : page) : page :=
  if timer_active p then check response p else p.

Definition run_timer (check : outcome StatusData -> page -> page)
    (responses : list (outcome StatusData)) (p : page) : page :=
  fold_left (fun p response => tick check response p) responses p.

(** The page when a check starts. *)
Definition started : page :=
  {| check_count := 0; timer_active := true; notifications := [];
     reloads := 0 |}.

End Settings.

(* ===================================================================== *)
(** * [routers/repository.py]: [get_repository_status] *)
(* ===================================================================== *)

Module StatusApi.
Import Py Git Api.

Section Endpoint.

(** [RepositoryService.check_user_permission(db, repo_id, user_id)], with
    the role it takes when none is given. *)
Variable can_access : Database -> pystr -> pystr -> bool.
(** The column [error_message] of a row. *)
Variable error_message : Repository -> option pystr.
(** [str(e)] of the [HTTPError] that [response.raise_for_status()] raises
    for an answer with the given status code. *)
Variable http_error : nat -> pystr.

(** The endpoint: the [HTTPException] it raises, or the keys of its answer
    that the page reads. *)
Definition get_repository_status (repo_id current_user_id : pystr)
    (db : Database) : (nat * pystr) + Settings.StatusData :=
  if negb (can_access db repo_id current_user_id) then
    inl (403, str "You don't have permission to access this repository")
  else
    match get_repository db repo_id with
    | None => inl (404, str "Repository not found")
    | Some repository =>
        inr {| Settings.status := Some (status repository);
               Settings.vectordb_status := Some (vectordb_status repository);
               Settings.error_message := error_message repository |}
    end.

(** [api_service.get_repository_status]: an answer that is an error raises.
    The exception that [_make_request] makes from the detail of the answer
    is raised inside a [try] whose bare [except] catches it, so the
    exception that leaves carries the text of the [HTTPError], not the
    detail. *)
Definition fetch_status (repo_id current_user_id : pystr) (db : Database)
  : outcome Settings.StatusData :=
  match get_repository_status repo_id current_user_id db with
  | inl (status_code, _) =>
      Raised (str "API request failed: " ++ http_error status_code)
  | inr status_data => Returned status_data
  end.

End Endpoint.

End StatusApi.

(* ===================================================================== *)
(** * [tasks.py]: the services of the worker, as the update pipeline
      reads their results *)
(* ===================================================================== *)

Module Worker.
Import Py Git.

Section VectorDb.

Variable Server : Type.
Variable has_collection : pystr -> Server -> outcome bool * Server.
Variable load_collection : pystr -> Server -> outcome unit * Server.
Variable delete : pystr -> pystr -> Server -> outcome (option Z) * Server.
Variable release_collection : pystr -> Server -> outcome unit * Server.

(** [vector_db_service.delete_entities]: [VectorDBService.delete_entities]
    hands the call over to the collection manager; the pipeline reads the
    keys [success] and [error] of the dictionary. *)
Definition delete_entities (collection_name : pystr)
    (source_files : list pystr) (w : Milvus.state Server)
  : outcome Pipeline.DeleteResult * Milvus.state Server :=
  match Milvus.delete_entities_by_source_files Server has_collection
          load_collection delete release_collection collection_name
          source_files w with
  | (Returned r, w') =>
      (Returned {| Pipeline.delete_success := Milvus.success r;
                   Pipeline.delete_error := Milvus.error r |}, w')
  | (Raised e, w') => (Raised e, w')
  end.

End VectorDb.

Section PythonParser.

Variable Machine : Type.
Variable ChunkEntry : Type.
Variable path_exists : pystr -> Machine -> bool.
Variable scan_repository : pystr -> Machine -> outcome (list pystr) * Machine.
Variable parse_file : pystr -> Machine -> outcome (list ChunkEntry) * Machine.
Variable write_json : pystr -> pystr -> list ChunkEntry -> Machine -> Machine.
Variables get_repo_path get_output_path : pystr -> pystr.

(** [parser_service.parse_repository]; the pipeline reads the keys
    [success], [message] and [total_files] with [get], and the result of
    the parser has no key [message]. *)
Definition parse_repository (repo_name : pystr) (save_json : bool)
    (w : Parser.state Machine)
  : outcome Pipeline.ParseResult * Parser.state Machine :=
  let (r, w') :=
    Parser.parse_repository Machine ChunkEntry path_exists scan_repository
      parse_file write_json get_repo_path get_output_path repo_name save_json
      w in
  (Returned {| Pipeline.parse_success := Parser.repo_success r;
               Pipeline.parse_message := None;
               Pipeline.parse_total_files :=
                 Some (Z.of_nat (Parser.total_files r)) |}, w').

End PythonParser.

End Worker.

(* ===================================================================== *)
(** * What the properties are stated with, and machines to run the code on *)
(* ===================================================================== *)

Module RenderSpec.
Import Py Dmp History.

(** A text that ends with a line feed. *)
Definition ends_lf (t : pystr) : Prop := exists t', t = t' ++ [10%N].

(** A sequence of lines as [lines_of] cuts them: only the last one may lack
    its line feed. *)
Inductive well_cut : list pystr -> Prop :=
| wc_nil : well_cut []
| wc_last x : well_cut [x]
| wc_cons x ts : ends_lf x -> well_cut ts -> well_cut (x :: ts).

(** The lines of a text that the renderer keeps: those that are not blank. *)
Definition kept_lines (text : pystr) : list pystr :=
  filter (fun line => negb (is_empty (strip line))) (splitlines_keepends text).

(** The lines of a rendered diff that carry one of the given operations,
    without their markers. *)
Definition lines_marked (keep : diff_op -> bool)
    (entries : list (diff_op * pystr)) : list pystr :=
  map snd (filter (fun e => keep (fst e)) entries).

Definition is_insert (o : diff_op) : bool := diff_op_eqb o DIFF_INSERT.

(** The lines one chunk contributes to the rendered diff. *)
Definition chunk_entries (x : diff_op * pystr) : list (diff_op * pystr) :=
  map (fun line => (fst x, line)) (kept_lines (snd x)).

(** The rendered diff of two texts read back. *)

(** A line of a rendered diff: its marker and its text. *)
Definition read_line (line : pystr) : option (diff_op * pystr) :=
  match line with
  | 43%N :: 32%N :: text => Some (DIFF_INSERT, text)
  | 45%N :: 32%N :: text => Some (DIFF_DELETE, text)
  | 32%N :: 32%N :: text => Some (DIFF_EQUAL, text)
  | _ => None
  end.

(** A rendered diff line by line, as [str.splitlines] cuts it. *)
Definition read_back (rendered : pystr) : list (option (diff_op * pystr)) :=
  map read_line (splitlines_keepends rendered).

(** What [generate_highlighted_diff] appends for a line. *)
Definition entry_text (e : diff_op * pystr) : pystr := marker (fst e) ++ snd e.

(** A text that is empty or ends with a line feed. *)
Definition terminated (t : pystr) : Prop := t = [] \/ ends_lf t.

(** A character at which [str.splitlines] cuts. *)
Definition is_break (c : char) : bool := (c =? 13)%N || is_linebreak c.

(** A line with its ending: no boundary but at its end. *)
Definition ended_line (l : pystr) : Prop :=
  exists body ending,
    l = body ++ ending
    /\ forallb (fun c => negb (is_break c)) body = true
    /\ (ending = [13%N; 10%N]
        \/ exists b, ending = [b] /\ is_break b = true).

(** A function body and its next revision, with a blank line before the
    statement that was added; and the revision with a line feed at its
    end. *)
Definition body_v1 : pystr := str "keep" ++ nl.
Definition body_v2 : pystr := str "keep" ++ nl ++ nl ++ str "new".
Definition body_v3 : pystr := str "keep" ++ nl ++ nl ++ str "new" ++ nl.

End RenderSpec.

Module HistorySpec.
Import Py Dmp History.

(** The adjacent pairs [(current, parent)] of a list of commits. *)
Definition adjacent {A} (l : list A) : list (A * A) := combine l (tl l).

(** A decoding that did not succeed. *)
Definition decode_fails (r : decode_result) : Prop :=
  forall content, r <> Decoded content.

(** The kinds for which [find_node_body] asks tree-sitter. *)
Definition query_kinds : list pystr :=
  [str "function"; str "async_function"; str "class"].

Section Tracker.

Variable read_blob : pystr -> pystr -> blob_read.
Variable codec_decode : pystr -> bytes -> decode_result.
Variable decode_utf8_replace : bytes -> pystr.
Variable query_captures : pystr -> pystr -> outcome (list ts_node).
Variable diff_main : list pystr -> list pystr -> diffs.

Local Abbreviation content_at :=
  (get_file_content_at_commit read_blob codec_decode decode_utf8_replace).
Local Abbreviation render := (generate_highlighted_diff diff_main).

Variable file_path : pystr.
Variables node_name node_type : option pystr.
Variables start_line end_line : option Z.

(** The reduction of the traced path at a commit, as [trace_history] runs
    it: the whole file in whole-file mode, the call of [find_node_body] in
    construct mode. *)
Definition reduced_at (c : Commit) : outcome (option pystr) :=
  reduced query_captures node_name node_type start_line end_line
    (content_at (hexsha c) file_path).

(** The reduced content of a commit whose reduction returns. *)
Definition code_at (c : Commit) : option pystr :=
  match reduced_at c with
  | Returned code => code
  | Raised _ => None
  end.

(** The reduction of the commit returns. *)
Definition reduces (c : Commit) : Prop := reduced_at c = Returned (code_at c).

(** The two reduced contents are not both absent, and they are unequal. *)
Definition changed (current parent : Commit) : bool :=
  negb (is_none (code_at current) && is_none (code_at parent))
  && negb (opt_eqb (code_at current) (code_at parent)).

(** The record of a change between a commit and its parent. *)
Definition record_of (current parent : Commit) : CommitChange :=
  {| commit_hash := firstn 7 (hexsha current);
     commit_message := strip (message current);
     author := author_name current;
     date := strftime (committed_datetime current);
     code_before := code_at parent;
     code_after := code_at current;
     highlighted_diff :=
       render (or_empty (code_at parent)) (or_empty (code_at current)) |}.

(** The record of the creation of the construct in the oldest commit. *)
Definition creation_record (oldest : Commit) (code : pystr) : CommitChange :=
  {| commit_hash := firstn 7 (hexsha oldest);
     commit_message := strip (message oldest);
     author := author_name oldest;
     date := strftime (committed_datetime oldest);
     code_before := None;
     code_after := Some code;
     highlighted_diff := render [] code |}.

(** What one pair contributes to the history. *)
Definition emitted (current parent : Commit) : list CommitChange :=
  if changed current parent then [record_of current parent] else [].

(** The records of the adjacent pairs that changed, newest first. *)
Definition changes (commits : list Commit) : list CommitChange :=
  map (fun cp => record_of (fst cp) (snd cp))
    (filter (fun cp => changed (fst cp) (snd cp)) (adjacent commits)).

End Tracker.

(** ** A repository to run the tracker on

    The scenario of the specification: [a.py] with the function [foo] is
    created in the first commit, changed in the second and deleted in the
    third. *)

Definition ascii_bytes (s : string) : bytes :=
  map byte_of_ascii (list_ascii_of_string s).

(** Python's codecs on ASCII data, which is all the scenario stores. *)
Definition ascii_codec (encoding : pystr) (raw_data : bytes) : decode_result :=
  if pystr_eqb encoding (str "latin-1")
     || forallb (fun b => (Byte.to_N b <? 128)%N) raw_data
  then Decoded (map Byte.to_N raw_data)
  else UnicodeDecodeError.

Definition replace_invalid (raw_data : bytes) : pystr :=
  map (fun b => if (Byte.to_N b <? 128)%N then Byte.to_N b else 65533%N)
    raw_data.

Fixpoint starts_with (prefix s : pystr) : bool :=
  match prefix, s with
  | [], _ => true
  | c :: prefix', d :: s' => (c =? d)%N && starts_with prefix' s'
  | _ :: _, [] => false
  end.

(** The name a query for a function was formatted with, if the string is
    such a query. *)
Definition function_name_of (query_str : pystr) : option pystr :=
  if starts_with function_query_head query_str then
    let rest := skipn (length function_query_head) query_str in
    if starts_with (rev query_tail) (rev rest)
    then Some (firstn (length rest - length query_tail) rest)
    else None
  else None.

(** tree-sitter on the files and the queries of the scenario: the files hold
    one function, and the queries ask for a function by a name that is an
    identifier; the query captures the name of the function and its
    definition. *)
Definition one_function_captures (query_str source_code : pystr)
  : outcome (list ts_node) :=
  match function_name_of query_str with
  | Some name =>
      if starts_with (str "def " ++ name ++ str "(") source_code
      then Returned [mkNode (str "identifier") name;
                     mkNode (str "function_definition") source_code]
      else Returned []
  | None => Returned []
  end.

Definition foo_v1 : string := "def foo(): return 1".
Definition foo_v2 : string := "def foo(): return 2".

Definition commit1 : Commit :=
  {| hexsha := str "1111111111111111111111111111111111111111";
     message := str "add foo" ++ nl;
     author_name := str "dev";
     committed_datetime := mkDatetime 2025 1 2 3 4 5 |}.
Definition commit2 : Commit :=
  {| hexsha := str "2222222222222222222222222222222222222222";
     message := str "change foo" ++ nl;
     author_name := str "dev";
     committed_datetime := mkDatetime 2025 1 3 3 4 5 |}.
Definition commit3 : Commit :=
  {| hexsha := str "3333333333333333333333333333333333333333";
     message := str "remove a.py" ++ nl;
     author_name := str "dev";
     committed_datetime := mkDatetime 2025 1 4 3 4 5 |}.

Definition scenario_commits (file_path : pystr) : list Commit :=
  if pystr_eqb file_path (str "a.py") then [commit3; commit2; commit1] else [].

Definition scenario_blob (commit_hash file_path : pystr) : blob_read :=
  if negb (pystr_eqb file_path (str "a.py")) then LookupFailed
  else if pystr_eqb commit_hash (hexsha commit1) then Blob (ascii_bytes foo_v1)
  else if pystr_eqb commit_hash (hexsha commit2) then Blob (ascii_bytes foo_v2)
  else LookupFailed.

(** The same repository on a machine where the object of [a.py] cannot be
    read: the path is in the tree of its commits, and the read raises an
    exception that is neither a [KeyError] nor a [ValueError]. *)
Definition unreadable_blob (commit_hash file_path : pystr) : blob_read :=
  if negb (pystr_eqb file_path (str "a.py")) then LookupFailed
  else if pystr_eqb commit_hash (hexsha commit1) then UnexpectedFailure
  else if pystr_eqb commit_hash (hexsha commit2) then UnexpectedFailure
  else LookupFailed.

(** A repository whose only commit creates [a.py]. *)
Definition single_commit (file_path : pystr) : list Commit :=
  if pystr_eqb file_path (str "a.py") then [commit1] else [].

Definition scenario_trace (node_name node_type : option pystr)
  : outcome (list CommitChange) :=
  trace_history scenario_commits scenario_blob ascii_codec replace_invalid
    one_function_captures diff_main_coarse (str "a.py") node_name node_type
    None None.

End HistorySpec.

Module GitSpec.
Import Py Git.

(** The entry [_format_source_file] makes of a path, when the path has a
    name. *)
Definition json_name (p : pystr) : option pystr :=
  option_map path_str (with_suffix (parse_path p) (str ".json")).

Section Service.

Variable get_repo_path : pystr -> pystr.

(** The commands of the two methods, in the directory of the repository. *)
Definition checkout_main (repo_name : pystr) : invocation :=
  {| cwd := get_repo_path repo_name;
     command := git ["checkout"; "main"]%string |}.
Definition pull (repo_name : pystr) : invocation :=
  {| cwd := get_repo_path repo_name; command := git ["pull"]%string |}.
Definition fetch (repo_name : pystr) : invocation :=
  {| cwd := get_repo_path repo_name; command := git ["fetch"]%string |}.
Definition diff_names (repo_name : pystr) : invocation :=
  {| cwd := get_repo_path repo_name;
     command := git ["diff"; "--name-only"; "HEAD"; "origin/main"]%string |}.

End Service.

(** What [GitCommandRunner.run] raises for the way a command ends, by the
    text of the exception; [None] when it returns. *)
Definition failure_text (p : process) : option pystr :=
  match p with
  | Completed rc out err => if (rc =? 0)%Z then None else Some err
  | TimeoutExpired => Some (str "Command timed out after 300 seconds")
  | OtherException msg => Some msg
  end.

(** The output of a command that has completed. *)
Definition stdout_of (p : process) : pystr :=
  match p with
  | Completed rc out err => out
  | _ => []
  end.

(** The two results of [pull_repository]. *)
Definition pull_failed (repo_name e : pystr) : PullResult :=
  {| pull_success := false; pull_repo_name := repo_name;
     pull_repo_path := []; pull_message := None; pull_error := Some e |}.

Definition pull_succeeded (repo_name repo_path stdout : pystr) : PullResult :=
  {| pull_success := true; pull_repo_name := repo_name;
     pull_repo_path := repo_path; pull_message := Some stdout;
     pull_error := None |}.

(** ** Machines to run the service on *)

Definition repository_dir (repo_name : pystr) : pystr :=
  str "/srv/repository/" ++ repo_name.

Definition here : Git.state unit := {| world := tt; log := [] |}.

(** A checkout whose upstream changed [setup.cfg] and [setup.py]. *)
Definition two_setup_files (inv : invocation) (w : unit) : process * unit :=
  if list_eq_dec pystr_eq_dec (command inv)
       (git ["diff"; "--name-only"; "HEAD"; "origin/main"]%string)
  then (Completed 0 (str "setup.cfg" ++ nl ++ str "setup.py" ++ nl) [], w)
  else (Completed 0 [] [], w).

(** A checkout whose branch is called [master]. *)
Definition no_main_branch (inv : invocation) (w : unit) : process * unit :=
  if list_eq_dec pystr_eq_dec (command inv) (git ["checkout"; "main"]%string)
  then (Completed 1 []
          (str "error: pathspec 'main' did not match any file(s) known to git"
           ++ nl), w)
  else (Completed 0 [] [], w).

(** A checkout whose branch is called [master] and that tracks a file named
    [main]: git takes [git checkout main] for the checkout of that path,
    restores it from the index and ends with status 0; [git pull] then runs
    on [master]. *)
Definition main_is_a_path (inv : invocation) (w : unit) : process * unit :=
  if list_eq_dec pystr_eq_dec (command inv) (git ["checkout"; "main"]%string)
  then (Completed 0 [] (str "Updated 0 paths from the index" ++ nl), w)
  else if list_eq_dec pystr_eq_dec (command inv) (git ["pull"]%string)
  then (Completed 0 (str "Already up to date." ++ nl) [], w)
  else (Completed 0 [] [], w).

(** A checkout whose upstream changed a file with a name that is not ASCII,
    [na] followed by U+00EF and [ve.py]: git prints the name in double
    quotes, the bytes of the letter as octal escapes. *)
Definition quoted_line : pystr :=
  [34%N] ++ str "na" ++ [92%N] ++ str "303" ++ [92%N] ++ str "257ve.py"
  ++ [34%N].

Definition quoted_name (inv : invocation) (w : unit) : process * unit :=
  if list_eq_dec pystr_eq_dec (command inv)
       (git ["diff"; "--name-only"; "HEAD"; "origin/main"]%string)
  then (Completed 0 (quoted_line ++ nl) [], w)
  else (Completed 0 [] [], w).

End GitSpec.

Module PipelineSpec.
Import Py Git Pipeline.

(** The value of the key [step] for a failure of each service. *)
Definition step_name (st : stage) : pystr :=
  match st with
  | StageDiff => str "diff"
  | StagePull => str "pull"
  | StageDelete => str "delete_entities"
  | StageParse => str "parse"
  | StageEmbed => str "embed"
  end.

(** The column [status] the pipeline writes when a service has failed; the
    column [vectordb_status] is then always ["error"]. *)
Definition status_after (st : stage) : pystr :=
  match st with
  | StagePull | StageParse => str "error"
  | StageDiff | StageDelete | StageEmbed => str "active"
  end.

(** The step and the status that follow a call that did not succeed: a call
    that raised is handled by [except Exception]. *)
Definition reported_step (st : stage) (e : ending) : pystr :=
  match e with
  | RaisedException => str "unknown"
  | _ => step_name st
  end.

Definition status_written (st : stage) (e : ending) : pystr :=
  match e with
  | RaisedException => str "error"
  | _ => status_after st
  end.

(** An event that is not a call that failed or raised. *)
Definition quiet (ev : event) : Prop :=
  match ev with
  | Called _ _ ReportedSuccess => True
  | Called _ _ _ => False
  | _ => True
  end.

(** A state of the repository that shows an error, as the settings page
    reads it: one of the two columns is ["error"]. *)
Definition error_state (r : RepositoryRow) : Prop :=
  status r = str "error" \/ vectordb_status r = str "error".

Definition is_call_of (st : stage) (ev : event) : bool :=
  match ev, st with
  | Called StageDiff _ _, StageDiff | Called StagePull _ _, StagePull
  | Called StageDelete _ _, StageDelete | Called StageParse _ _, StageParse
  | Called StageEmbed _ _, StageEmbed => true
  | _, _ => false
  end.

(** The events of a run from a change set that is empty hold no call of the
    deletion and no call of the embedding. *)
Definition no_index_write (ev : event) : Prop :=
  is_call_of StageDelete ev = false /\ is_call_of StageEmbed ev = false.

Section Task.

Variable World : Type.

Local Abbreviation pstate := (Pipeline.pstate World).
Local Abbreviation P := (Pipeline.P World).

(** The discipline of the body of the task: a computation that goes on to
    the next statement has seen no call fail; one that returns has seen
    exactly one call report a failure, has written the state of error for it
    and returns the failure with the name of its step; one that raises has
    seen the call that raised as its last event. *)
Definition halts_well {A} (m : P A) : Prop :=
  forall s : pstate,
  exists tr,
    events (snd (m s)) = events s ++ tr
    /\ match fst (m s) with
       | Next _ => Forall quiet tr
       | Return r =>
           exists pre st args,
             tr = pre ++ [Called st args ReportedFailure;
                          StatusWritten (status_after st) (str "error")]
             /\ Forall quiet pre
             /\ (exists msg, r = Failed msg (step_name st))
             /\ status (row (snd (m s))) = status_after st
             /\ vectordb_status (row (snd (m s))) = str "error"
       | Throw _ =>
           exists pre st args,
             tr = pre ++ [Called st args RaisedException]
             /\ Forall quiet pre
       end.

End Task.

(** ** Services to run the pipeline with *)

Definition found (files : list pystr) (repo_name : pystr) (w : unit)
  : outcome DiffResult * unit :=
  (Returned {| diff_success := true; diff_files_list := files;
               diff_message := None; diff_error := None |}, w).

Definition pull_ok (repo_name : pystr) (w : unit)
  : outcome PullResult * unit :=
  (Returned {| pull_success := true; pull_repo_name := repo_name;
               pull_repo_path := str "/srv/repository/" ++ repo_name;
               pull_message := Some (str "Already up to date." ++ nl);
               pull_error := None |}, w).

Definition pull_timed_out (repo_name : pystr) (w : unit)
  : outcome PullResult * unit :=
  (Returned {| pull_success := false; pull_repo_name := repo_name;
               pull_repo_path := []; pull_message := None;
               pull_error :=
                 Some (str "Command timed out after 300 seconds") |}, w).

Definition delete_ok (collection_name : pystr) (source_files : list pystr)
    (w : unit) : outcome DeleteResult * unit :=
  (Returned {| delete_success := true; delete_error := None |}, w).

(** A vector database that cannot be reached: the deletion raises. *)
Definition delete_raises (collection_name : pystr) (source_files : list pystr)
    (w : unit) : outcome DeleteResult * unit :=
  (Raised (str "MilvusException: server unavailable"), w).

Definition parse_ok (repo_name : pystr) (save_json : bool) (w : unit)
  : outcome ParseResult * unit :=
  (Returned {| parse_success := true; parse_message := None;
               parse_total_files := Some 3%Z |}, w).

(** An embedding service that fails on [b.json]. *)
Definition embed_but_b (json_path collection_name model_key : pystr)
    (w : unit) : outcome EmbedResult * unit :=
  if pystr_eqb json_path (str "parsed_repository/RAGIT/b.json")
  then (Returned {| embed_success := false; embed_inserted_count := None |}, w)
  else (Returned {| embed_success := true;
                    embed_inserted_count := Some 5%Z |}, w).

Definition idle : Pipeline.pstate unit :=
  {| machine := tt;
     row := {| status := str "active"; vectordb_status := str "active";
               file_count := 3 |};
     events := [] |}.

(** The task on the repository [RAGIT], by the services it is given. *)
Definition sync_with
    (diff_files : pystr -> unit -> outcome DiffResult * unit)
    (pull_repository : pystr -> unit -> outcome PullResult * unit)
  : PipelineResult * Pipeline.pstate unit :=
  update_repository_pipeline unit diff_files pull_repository delete_ok
    parse_ok embed_but_b (fun _ _ => true)
    (str "f47ac10b-58cc-4372-a567-0e02b2c3d479") (str "RAGIT")
    (str "repo_f47ac10b_58cc_4372_a567_0e02b2c3d479") true
    (str "text-embedding-3-small") idle.

End PipelineSpec.

Module ApiSpec.
Import Py Git Api.

(** ** Two requests in a row *)

Definition ragit : Repository :=
  {| id := str "f47ac10b-58cc-4372-a567-0e02b2c3d479";
     name := str "RAGIT";
     status := str "active";
     vectordb_status := str "active" |}.

Definition everyone_admin (db : Database) (repo_id user role : pystr) : bool :=
  true.

(** Task identifiers, numbered by the length of the queue. *)
Definition numbered (b : Broker) : pystr :=
  str "task-" ++ decimal (length (queue b)).

Definition empty_broker : Broker := {| reachable := true; queue := [] |}.

Definition update_task : Task :=
  {| task_name := str "rag_worker.tasks.update_repository_pipeline";
     task_repo_id := id ragit;
     task_repo_name := str "RAGIT";
     task_collection_name := str "repo_f47ac10b_58cc_4372_a567_0e02b2c3d479";
     task_save_json := true;
     task_model_key := str "text-embedding-3-small" |}.

(** The state of the system after a request, for the next one. *)
Definition then_sync (repo_id user : pystr)
    (r : response * Database * Broker) : response * Database * Broker :=
  sync_repository everyone_admin numbered repo_id user (snd (fst r)) (snd r).

End ApiSpec.

Module TraceSpec.
Import Py Dmp History HistorySpec.

(** [kept] holds some of the elements of [l], in the order of [l]. *)
Inductive subsequence {A : Type} : list A -> list A -> Prop :=
| sub_nil : subsequence [] []
| sub_skip (x : A) (kept l : list A) :
    subsequence kept l -> subsequence kept (x :: l)
| sub_take (x : A) (kept l : list A) :
    subsequence kept l -> subsequence (x :: kept) (x :: l).

(** What a record says about the commit it is made for, and what the commit
    itself gives for it. *)
Definition stamp (r : CommitChange) : pystr * pystr * pystr * pystr :=
  (commit_hash r, commit_message r, author r, date r).

Definition stamp_of (c : Commit) : pystr * pystr * pystr * pystr :=
  (firstn 7 (hexsha c), strip (message c), author_name c,
   strftime (committed_datetime c)).

(** The two kinds that [find_node_body] cuts by lines. *)
Definition line_kinds : list pystr := [str "module"; str "script"].

(** ** A file that changes around a function that does not

    The second commit appends a comment to [a.py]; the function [foo] of the
    first line stays as it is. *)

Definition with_note : bytes :=
  ascii_bytes foo_v1 ++ [Byte.x0a] ++ ascii_bytes "# note".

Definition noted_commits (file_path : pystr) : list Commit :=
  if pystr_eqb file_path (str "a.py") then [commit2; commit1] else [].

Definition noted_blob (commit_hash file_path : pystr) : blob_read :=
  if negb (pystr_eqb file_path (str "a.py")) then LookupFailed
  else if pystr_eqb commit_hash (hexsha commit1) then Blob (ascii_bytes foo_v1)
  else if pystr_eqb commit_hash (hexsha commit2) then Blob with_note
  else LookupFailed.

(** tree-sitter on these files and on the queries for a function by a name
    that is an identifier: the definition of the function is the first
    line. *)
Definition first_line_captures (query_str source_code : pystr)
  : outcome (list ts_node) :=
  match function_name_of query_str with
  | Some name =>
      if starts_with (str "def " ++ name ++ str "(") source_code
      then Returned [mkNode (str "identifier") name;
                     mkNode (str "function_definition")
                       (hd [] (split_on 10%N source_code))]
      else Returned []
  | None => Returned []
  end.

Definition noted_trace (node_name node_type : option pystr)
  : outcome (list CommitChange) :=
  trace_history noted_commits noted_blob ascii_codec replace_invalid
    first_line_captures diff_main_coarse (str "a.py") node_name node_type
    None None.

End TraceSpec.

Module RepoSpec.
Import Py PyStr Git GitSpec Repo.

(** The five fields of a commit, joined as [git log] prints them. *)
Definition log_line (c : CommitInfo) : pystr :=
  join (str "|")
    [hash c; author_name c; author_email c; message c; date c].

Definition no_bar (s : pystr) : Prop := ~ In 124%N s.

(** A path whose name [with_suffix] can replace the suffix of. *)
Definition has_name (p : pystr) : bool :=
  match parts (parse_path p) with [] => false | _ :: _ => true end.

Definition ends_with (suffix s : pystr) : Prop := exists t, s = t ++ suffix.

Section Service.

Variable get_repo_path : pystr -> pystr.

(** The commands of the two methods. *)
Definition clone (git_url repo_name : pystr) : invocation :=
  {| cwd := [];
     command := [str "git"; str "clone"; git_url; get_repo_path repo_name] |}.
Definition status_porcelain (repo_name : pystr) : invocation :=
  {| cwd := get_repo_path repo_name;
     command := git ["status"; "--porcelain"]%string |}.
Definition log_latest (repo_name : pystr) : invocation :=
  {| cwd := get_repo_path repo_name;
     command := git ["log"; "-1"; "--pretty=format:%H|%an|%ae|%s|%ci"]%string |}.
Definition branch_current (repo_name : pystr) : invocation :=
  {| cwd := get_repo_path repo_name;
     command := git ["branch"; "--show-current"]%string |}.

End Service.

(** ** Machines to run the service on *)

(** A checkout with local changes whose latest commit has a bar in its
    subject. *)
Definition barred_subject (inv : invocation) (w : unit) : process * unit :=
  if list_eq_dec pystr_eq_dec (command inv)
       (git ["status"; "--porcelain"]%string)
  then (Completed 0 (str " M a.py" ++ nl) [], w)
  else if list_eq_dec pystr_eq_dec (command inv)
            (git ["log"; "-1"; "--pretty=format:%H|%an|%ae|%s|%ci"]%string)
  then (Completed 0
          (str "1a2b3c|Ann|ann@example.org|fix a|b|2025-01-02 03:04:05 +0900")
          [], w)
  else (Completed 0 (str "main" ++ nl) [], w).

(** A machine without [git]. *)
Definition no_git (inv : invocation) (w : unit) : process * unit :=
  (OtherException (str "[Errno 2] No such file or directory: 'git'"), w).

End RepoSpec.

Module ParserSpec.
Import Py Git Parser.

Section Service.

Variable ChunkEntry : Type.
Variable get_output_path : pystr -> pystr.

(** The chunks of a list of results. *)
Definition chunk_count (results : list (ParseResult ChunkEntry)) : nat :=
  list_sum (map (fun r => length (chunks r)) results).

(** The file [_save_chunks_to_json] asks to write for a source file, if the
    file is below the repository and has a name. *)
Definition json_target (repo_path repo_name py_file : pystr) : list pystr :=
  match relative_to (parse_path py_file) (parse_path repo_path) with
  | Some relative_path =>
      match with_suffix relative_path (str ".json") with
      | Some json_path =>
          [path_str (joinpath (parse_path (get_output_path repo_name))
                       json_path)]
      | None => []
      end
  | None => []
  end.

(** The files written for a list of results. *)
Definition json_targets (repo_path repo_name : pystr)
    (results : list (ParseResult ChunkEntry)) : list pystr :=
  flat_map
    (fun r => if success r then json_target repo_path repo_name (file_path r)
              else [])
    results.

End Service.

(** ** A repository of three files, one of which does not parse *)

Definition three_files (repo_path : pystr) (w : unit)
  : outcome (list pystr) * unit :=
  (Returned [repo_path ++ str "/a.py"; repo_path ++ str "/pkg/b.py";
             repo_path ++ str "/c.py"], w).

(** The chunks are counted only: a chunk is its name. *)
Definition parse_but_b (py_file : pystr) (w : unit)
  : outcome (list pystr) * unit :=
  if pystr_eqb py_file (str "/srv/repository/RAGIT/pkg/b.py")
  then (Raised (str "invalid syntax (b.py, line 1)"), w)
  else (Returned [str "f"; str "g"], w).

(** What a result of [chunk_file] looks like. *)
Definition sound {ChunkEntry : Type} (r : ParseResult ChunkEntry) : Prop :=
  if success r then error r = None
  else chunks r = [] /\ error r <> None.

Definition parsed_dir (repo_name : pystr) : pystr :=
  str "/srv/parsed_repository/" ++ repo_name.

Definition parse_ragit (save_json : bool)
  : RepositoryParseResult pystr * Parser.state unit :=
  parse_repository unit pystr (fun _ _ => true) three_files parse_but_b
    (fun _ _ _ w => w) GitSpec.repository_dir parsed_dir (str "RAGIT")
    save_json {| machine := tt; written := [] |}.

End ParserSpec.

Module MilvusSpec.
Import Py Git Milvus.

(** A server that cannot be reached: every request raises. *)
Definition unreachable : pystr := str "MilvusException: server unavailable".

Definition down {A} (w : unit) : outcome A * unit := (Raised unreachable, w).

End MilvusSpec.

Module ProcessSpec.
Import Py Git Process.

(** The times a run has added one to the number of collections. *)
Definition increments (tr : list event) : nat :=
  length (filter (fun ev => match ev with
                            | CollectionsCountIncremented => true
                            | _ => false
                            end) tr).

Definition errored : RepositoryRow :=
  {| status := str "error"; vectordb_status := str "error" |}.
Definition active : RepositoryRow :=
  {| status := str "active"; vectordb_status := str "active" |}.
Definition active_without_index : RepositoryRow :=
  {| status := str "active"; vectordb_status := str "error" |}.

(** What the status endpoint answers for a row; the error message is
    whatever the column holds. *)
Definition answer (r : RepositoryRow) (error_message : option pystr)
  : outcome Settings.StatusData :=
  Returned {| Settings.status := Some (status r);
              Settings.vectordb_status := Some (vectordb_status r);
              Settings.error_message := error_message |}.

(** ** Services to run the task with *)

Definition cloned_result (repo_name : option pystr) : Repo.CloneResult :=
  {| Repo.clone_success := true;
     Repo.clone_repo_name := or_empty repo_name;
     Repo.clone_repo_path := str "/srv/repository/" ++ or_empty repo_name;
     Repo.clone_message := Some (str "Repository cloned successfully");
     Repo.clone_error := None |}.

Definition cloned (git_url : pystr) (repo_name : option pystr) (w : unit)
  : outcome Repo.CloneResult * unit :=
  (Returned (cloned_result repo_name), w).

(** A parser that does not find the directory of the repository. *)
Definition not_found_result (repo_name : pystr)
  : Parser.RepositoryParseResult pystr :=
  Parser.parse_failure pystr GitSpec.repository_dir repo_name
    (str "Repository " ++ repo_name ++ str " not found at "
     ++ GitSpec.repository_dir repo_name).

Definition not_found_by_parser (repo_name : pystr) (save_json : bool)
    (w : unit) : outcome (Parser.RepositoryParseResult pystr) * unit :=
  (Returned (not_found_result repo_name), w).

Definition parsed_three (repo_name : pystr) (save_json : bool) (w : unit)
  : outcome (Parser.RepositoryParseResult pystr) * unit :=
  (Returned (fst (ParserSpec.parse_ragit save_json)), w).

(** An embedder that runs out of memory. *)
Definition out_of_memory : EmbeddingResult :=
  {| embed_success := false;
     embed_message := Some (Some (str "CUDA out of memory"));
     embed_inserted_count := None |}.

Definition embed_fails (repo_name collection_name model_key : pystr)
    (w : unit) : outcome EmbeddingResult * unit :=
  (Returned out_of_memory, w).

Definition fresh : Process.pstate unit :=
  {| machine := tt;
     row := {| status := str "pending"; vectordb_status := str "pending" |};
     events := [] |}.

Definition process_ragit
    (parse_repository :
       pystr -> bool -> unit
       -> outcome (Parser.RepositoryParseResult pystr) * unit)
  : ProcessResult * Process.pstate unit :=
  process_repository_pipeline unit pystr cloned parse_repository embed_fails
    (str "f47ac10b-58cc-4372-a567-0e02b2c3d479")
    (str "https://github.com/Gyu-Chul/RAGIT.git") (str "RAGIT")
    (str "text-embedding-3-small") fresh.

End ProcessSpec.

Module SyncSpec.
Import Py Git Pipeline PipelineSpec.

(** The calls of a run that write to the index: the deletion and the
    embeddings. *)
Definition index_calls (tr : list event) : list event :=
  filter (fun ev => is_call_of StageDelete ev || is_call_of StageEmbed ev) tr.

(** An embedding of the JSON file of one of the given files. *)
Definition is_embed_of (repo_name : pystr) (files : list pystr) (ev : event)
  : Prop :=
  exists f e,
    In f files
    /\ ev = Called StageEmbed
              [str "parsed_repository/" ++ repo_name ++ str "/" ++ f] e.

(** What the status endpoint answers for a row; the error message is
    whatever the column holds. *)
Definition answer (r : RepositoryRow) (error_message : option pystr)
  : outcome Settings.StatusData :=
  Returned {| Settings.status := Some (status r);
              Settings.vectordb_status := Some (vectordb_status r);
              Settings.error_message := error_message |}.

(** The notice of a synchronisation that went well. *)
Definition synchronized (shown : pystr) : Settings.notification :=
  {| Settings.text :=
       Settings.check_mark ++ str " Repository " ++ Settings.dq ++ shown
       ++ Settings.dq ++ str " synchronized successfully!";
     Settings.color := str "positive";
     Settings.timeout := 5000%N |}.

End SyncSpec.

Module WorkerSpec.
Import Py Git Milvus MilvusSpec.

(** The requests of the body of the deletion after the first one, and those
    of its [finally] after the first one. *)
Definition body_requests (collection_name : pystr) (source_files : list pystr)
  : list (list request) :=
  [[]; [LoadCollection collection_name];
   [LoadCollection collection_name;
    Delete collection_name (filter_expr source_files)]].

Definition final_requests (collection_name : pystr) : list (list request) :=
  [[]; [ReleaseCollection collection_name]].

(** ** Machines *)

(** A server with the collection, which deletes three entities. *)
Definition deletes_three (collection_name filter : pystr) (w : unit)
  : outcome (option Z) * unit := (Returned (Some 3%Z), w).

Definition present (collection_name : pystr) (w : unit)
  : outcome bool * unit := (Returned true, w).

Definition done (collection_name : pystr) (w : unit)
  : outcome unit * unit := (Returned tt, w).

Definition quiet_server : Milvus.state unit :=
  {| server := tt; requests := [] |}.

(** A diff that lists one file, and a pull that succeeds, on any machine. *)
Definition one_file : DiffResult :=
  {| diff_success := true; diff_files_list := [str "a.json"];
     diff_message := None; diff_error := None |}.

Definition no_file : DiffResult :=
  {| diff_success := true; diff_files_list := [];
     diff_message := None; diff_error := None |}.

Definition pulled (name : pystr) : PullResult :=
  {| pull_success := true; pull_repo_name := name;
     pull_repo_path := str "/srv/repository/" ++ name;
     pull_message := Some []; pull_error := None |}.

Definition diff_gives {W : Type} (d : DiffResult) (name : pystr) (w : W)
  : outcome DiffResult * W := (Returned d, w).

Definition pull_done {W : Type} (name : pystr) (w : W)
  : outcome PullResult * W := (Returned (pulled name), w).

(** The update pipeline on the repository [RAGIT], one file of which has
    changed, with the index on a server that answers every request of the
    collection manager with [has]. *)
Definition sync_on
    (has : forall A : Type, A -> unit -> outcome A * unit)
  : Pipeline.PipelineResult * Pipeline.pstate (Milvus.state unit) :=
  Pipeline.update_repository_pipeline (Milvus.state unit)
    (diff_gives one_file) pull_done
    (Worker.delete_entities unit (fun _ => has bool false)
       (fun _ => has unit tt) (fun _ _ => has (option Z) None)
       (fun _ => has unit tt))
    (fun name save w =>
       (Returned {| Pipeline.parse_success := true;
                    Pipeline.parse_message := None;
                    Pipeline.parse_total_files := Some 3%Z |}, w))
    (fun path name key w =>
       (Returned {| Pipeline.embed_success := true;
                    Pipeline.embed_inserted_count := Some 5%Z |}, w))
    (fun _ _ => true)
    (str "f47ac10b-58cc-4372-a567-0e02b2c3d479") (str "RAGIT")
    (str "repo_f47ac10b_58cc_4372_a567_0e02b2c3d479") true
    (str "text-embedding-3-small")
    {| Pipeline.machine := quiet_server;
       Pipeline.row := Pipeline.row PipelineSpec.idle;
       Pipeline.events := [] |}.

(** A server without the collection, and one that cannot be reached. *)
Definition without_collection (A : Type) (a : A) (w : unit)
  : outcome A * unit := (Returned a, w).

Definition out_of_reach (A : Type) (a : A) (w : unit) : outcome A * unit :=
  (Raised unreachable, w).

(** The update pipeline on a repository whose directory the parser does not
    find, with nothing to update. *)
Definition sync_unparsed
  : Pipeline.PipelineResult * Pipeline.pstate (Parser.state unit) :=
  Pipeline.update_repository_pipeline (Parser.state unit)
    (diff_gives no_file) pull_done
    (fun name files w =>
       (Returned {| Pipeline.delete_success := true;
                    Pipeline.delete_error := None |}, w))
    (Worker.parse_repository unit pystr (fun _ _ => false)
       ParserSpec.three_files ParserSpec.parse_but_b (fun _ _ _ w => w)
       GitSpec.repository_dir ParserSpec.parsed_dir)
    (fun path name key w =>
       (Returned {| Pipeline.embed_success := true;
                    Pipeline.embed_inserted_count := Some 5%Z |}, w))
    (fun _ _ => true)
    (str "f47ac10b-58cc-4372-a567-0e02b2c3d479") (str "RAGIT")
    (str "repo_f47ac10b_58cc_4372_a567_0e02b2c3d479") true
    (str "text-embedding-3-small")
    {| Pipeline.machine := {| Parser.machine := tt; Parser.written := [] |};
       Pipeline.row := Pipeline.row PipelineSpec.idle;
       Pipeline.events := [] |}.

End WorkerSpec.

Module SettingsSpec.
Import Py Git Settings.

(** An answer on which the check of a synchronisation goes on: neither
    column is [error], and the two are not both [active]. *)
Definition in_progress (d : StatusData) : bool :=
  negb (is_ (status d) "error" || is_ (vectordb_status d) "error")
  && negb (is_ (status d) "active" && is_ (vectordb_status d) "active").

(** The page of a check that has stopped without a word. *)
Definition stopped_silently (checks : nat) : page :=
  {| check_count := checks; timer_active := false; notifications := [];
     reloads := 0 |}.

(** The page of a check that goes on. *)
Definition polling (checks : nat) : page :=
  {| check_count := checks; timer_active := true; notifications := [];
     reloads := 0 |}.

(** What a run of a check with the bound [max_checks] keeps. *)
Definition bounded (max_checks processed : nat) (p : page) : Prop :=
  (timer_active p = true ->
   notifications p = [] /\ reloads p = 0 /\ check_count p = processed
   /\ check_count p < max_checks)
  /\ length (notifications p) <= 1
  /\ reloads p <= length (notifications p)
  /\ check_count p <= max_checks
  /\ check_count p <= processed.

(** The two checks of the page, run from their start on the answers the
    server gives. *)
Definition sync_poll (repo_name : pystr)
    (responses : list (outcome StatusData)) : page :=
  run_timer (check_sync_status repo_name) responses started.

Definition creation_poll (repo_name : pystr)
    (responses : list (outcome StatusData)) : page :=
  run_timer (check_repository_status repo_name) responses started.

(** The text of the exception of [_make_request] for a request that timed
    out, on the gateway of the default address. *)
Definition gateway_timeout : pystr :=
  str "Gateway server timeout at http://localhost:8080/api/repositories/"
  ++ str "f47ac10b-58cc-4372-a567-0e02b2c3d479/status".

Definition updating : StatusData :=
  {| status := Some (str "updating");
     vectordb_status := Some (str "pending");
     error_message := None |}.

End SettingsSpec.

Module StatusSpec.
Import Py Git Api.

(** Everybody may read every repository, and no row has an error message. *)
Definition everyone_reads (db : Database) (repo_id user : pystr) : bool := true.
Definition no_message (r : Repository) : option pystr := None.

(** The text of the [HTTPError] of [requests] for the two errors of the
    endpoint, asked for the repository [RAGIT] on the gateway of the
    default address. *)
Definition requests_error (status_code : nat) : pystr :=
  decimal status_code ++ str " Client Error: "
  ++ (if status_code =? 403 then str "Forbidden" else str "Not Found")
  ++ str " for url: http://localhost:8080/api/repositories/"
  ++ id ApiSpec.ragit ++ str "/status".

End StatusSpec.

(* ===================================================================== *)
(** * Properties of the diff renderer *)
(* ===================================================================== *)

Module RenderProofs.
Import Py Dmp History RenderSpec.

#[local] Hint Constructors well_cut : core.

Lemma concat_lines_of (s : pystr) : concat (lines_of s) = s.
Proof.
  induction s as [|c s IH]; simpl; [reflexivity|].
  destruct (c =? 10)%N.
  - simpl. now rewrite IH.
  - destruct (lines_of s) as [|l ls]; simpl in *.
    + now rewrite <- IH.
    + now rewrite <- IH.
Qed.

Lemma ends_lf_cons (c : char) (t : pystr) : ends_lf t -> ends_lf (c :: t).
Proof. intros [t' ->]. now exists (c :: t'). Qed.

Lemma well_cut_cons_head (c : char) (l : pystr) (ls : list pystr) :
  well_cut (l :: ls) -> well_cut ((c :: l) :: ls).
Proof.
  intros H. inversion H; subst; auto using ends_lf_cons.
Qed.

Lemma well_cut_lines_of (s : pystr) : well_cut (lines_of s).
Proof.
  induction s as [|c s IH]; simpl; auto.
  destruct (N.eqb_spec c 10).
  - subst. apply wc_cons; auto. now exists [].
  - destruct (lines_of s); auto using well_cut_cons_head.
Qed.

Lemma well_cut_app_r (a b : list pystr) : well_cut (a ++ b) -> well_cut b.
Proof.
  induction a as [|x a IH]; simpl; auto.
  intros H. inversion H; subst; auto.
  destruct a; simpl in *; [subst; auto | discriminate].
Qed.

Lemma well_cut_app_l (a b : list pystr) :
  well_cut (a ++ b) -> b <> [] -> Forall ends_lf a.
Proof.
  induction a as [|x a IH]; simpl; intros H Hb; auto.
  inversion H; subst.
  - destruct a; simpl in *; [congruence | discriminate].
  - constructor; auto.
Qed.

Lemma ends_lf_concat (a : list pystr) :
  Forall ends_lf a -> a <> [] -> ends_lf (concat a).
Proof.
  induction 1 as [|x a Hx Ha IH]; [congruence|]. intros _.
  destruct a as [|y a]; simpl.
  - now rewrite app_nil_r.
  - destruct IH as [t' Ht]; [discriminate|].
    simpl in Ht. rewrite Ht. exists (x ++ t'). now rewrite app_assoc.
Qed.

Lemma splitlines_cons (s : pystr) :
  s <> [] -> exists p l, splitlines_keepends s = p :: l.
Proof.
  destruct s as [|c s]; [congruence|]. intros _.
  cbn [splitlines_keepends].
  destruct (c =? 13)%N.
  - destruct s as [|d s]; [eauto|]. destruct (d =? 10)%N; eauto.
  - destruct (is_linebreak c); [eauto|].
    destruct (splitlines_keepends s); eauto.
Qed.

Lemma splitlines_app (a b : pystr) :
  ends_lf a ->
  splitlines_keepends (a ++ b) = splitlines_keepends a ++ splitlines_keepends b.
Proof.
  intros [t ->]. revert b.
  induction t as [t IH] using (induction_ltof1 _ (@length char)).
  unfold ltof in IH. intros b.
  destruct t as [|c t]; [reflexivity|].
  cbn [app splitlines_keepends].
  destruct (c =? 13)%N eqn:Hc.
  - destruct t as [|d t]; cbn [app].
    + reflexivity.
    + destruct (d =? 10)%N.
      * rewrite (IH t); [reflexivity | simpl; lia].
      * change (d :: t ++ [10%N]) with ((d :: t) ++ [10%N]).
        change (d :: (t ++ [10%N]) ++ b) with (((d :: t) ++ [10%N]) ++ b).
        rewrite (IH (d :: t)); [reflexivity | simpl; lia].
  - destruct (is_linebreak c).
    + rewrite (IH t); [reflexivity | simpl; lia].
    + rewrite (IH t); [| simpl; lia].
      destruct (splitlines_cons (t ++ [10%N])) as (p & l & E).
      { now destruct t. }
      rewrite E. reflexivity.
Qed.

Lemma kept_lines_app (a b : list pystr) :
  well_cut (a ++ b) ->
  kept_lines (concat (a ++ b)) = kept_lines (concat a) ++ kept_lines (concat b).
Proof.
  intros H. rewrite concat_app. unfold kept_lines.
  destruct b as [|y b].
  - simpl. now rewrite !app_nil_r.
  - destruct a as [|x a]; [reflexivity|].
    rewrite splitlines_app, filter_app; [reflexivity|].
    apply ends_lf_concat; [|discriminate].
    eapply well_cut_app_l; [exact H | discriminate].
Qed.

Lemma lines_marked_app (keep : diff_op -> bool) (a b : list (diff_op * pystr)) :
  lines_marked keep (a ++ b) = lines_marked keep a ++ lines_marked keep b.
Proof. unfold lines_marked. now rewrite filter_app, map_app. Qed.

Lemma lines_marked_chunk (keep : diff_op -> bool) (x : diff_op * pystr) :
  lines_marked keep (chunk_entries x)
  = if keep (fst x) then kept_lines (snd x) else [].
Proof.
  unfold lines_marked, chunk_entries.
  induction (kept_lines (snd x)) as [|l ls IH]; simpl.
  - now destruct (keep (fst x)).
  - destruct (keep (fst x)); simpl in *; [now rewrite IH | exact IH].
Qed.

Lemma lines_marked_side (keep : diff_op -> bool) (d : diffs) :
  well_cut (side keep d) ->
  lines_marked keep (flat_map chunk_entries (chars_to_lines d))
  = kept_lines (concat (side keep d)).
Proof.
  unfold side. induction d as [|[o ts] d IH]; simpl; [reflexivity|].
  intros H. rewrite lines_marked_app, lines_marked_chunk. simpl.
  destruct (keep o); simpl in *.
  - rewrite kept_lines_app by exact H.
    rewrite IH; [reflexivity|]. eapply well_cut_app_r; eauto.
  - now apply IH.
Qed.

Lemma marked_lines_unfold (diff_main : list pystr -> list pystr -> diffs)
    (text1 text2 : pystr) :
  marked_lines diff_main text1 text2
  = flat_map chunk_entries
      (chars_to_lines (diff_main (lines_of text1) (lines_of text2))).
Proof. reflexivity. Qed.

(** Chunks that spell the empty text contribute no line. *)
Lemma side_nil_no_entries (keep : diff_op -> bool) (d : diffs) :
  side keep d = [] ->
  Forall (fun e => keep (fst e) = false)
    (flat_map chunk_entries (chars_to_lines d)).
Proof.
  unfold side. induction d as [|[o ts] d IH]; simpl; [constructor|].
  intros H. apply Forall_app. destruct (keep o) eqn:Hk; simpl in *.
  - apply app_eq_nil in H. destruct H as [-> H]. split; [constructor | auto].
  - split; [|auto]. unfold chunk_entries. simpl.
    apply Forall_forall. intros e He. apply in_map_iff in He.
    destruct He as (l & <- & _). exact Hk.
Qed.

Lemma all_marked (o : diff_op) (entries : list (diff_op * pystr)) :
  Forall (fun e => fst e = o) entries ->
  entries = map (fun line => (o, line)) (map snd entries).
Proof.
  induction 1 as [|[o' l] es Ho _ IH]; simpl in *; [reflexivity|].
  subst. now rewrite <- IH.
Qed.

Lemma filter_all {A} (p : A -> bool) (l : list A) :
  Forall (fun x => p x = true) l -> filter p l = l.
Proof.
  induction 1 as [|x l Hx _ IH]; simpl; [reflexivity|]. now rewrite Hx, IH.
Qed.


(** ** A run of the library that meets the contract *)

Lemma common_prefix_l (a b : list pystr) :
  a = common_prefix a b ++ skipn (length (common_prefix a b)) a.
Proof.
  revert b. induction a as [|x a IH]; intros [|y b]; simpl; try reflexivity.
  destruct (pystr_eqb x y); simpl; [|reflexivity]. now rewrite <- IH.
Qed.

Lemma common_prefix_r (a b : list pystr) :
  b = common_prefix a b ++ skipn (length (common_prefix a b)) b.
Proof.
  revert b. induction a as [|x a IH]; intros [|y b]; simpl; try reflexivity.
  unfold pystr_eqb. destruct (pystr_eq_dec x y); simpl; [|reflexivity].
  subst. now rewrite <- IH.
Qed.

Lemma drop_end_rev {A} (n : nat) (l : list A) :
  drop_end n l = rev (skipn n (rev l)).
Proof.
  unfold drop_end. now rewrite skipn_rev, rev_involutive.
Qed.

Lemma common_suffix_l (a b : list pystr) :
  a = drop_end (length (common_suffix a b)) a ++ common_suffix a b.
Proof.
  unfold common_suffix. rewrite drop_end_rev, length_rev, <- rev_app_distr.
  rewrite <- common_prefix_l. now rewrite rev_involutive.
Qed.

Lemma common_suffix_r (a b : list pystr) :
  b = drop_end (length (common_suffix a b)) b ++ common_suffix a b.
Proof.
  unfold common_suffix. rewrite drop_end_rev, length_rev, <- rev_app_distr.
  rewrite <- common_prefix_r. now rewrite rev_involutive.
Qed.

Lemma side_app (keep : diff_op -> bool) (x y : diffs) :
  side keep (x ++ y) = side keep x ++ side keep y.
Proof. unfold side. now rewrite filter_app, map_app, concat_app. Qed.

Lemma side_equal_chunk (keep : diff_op -> bool) (l : list pystr) :
  keep DIFF_EQUAL = true -> side keep (equal_chunk l) = l.
Proof.
  intros H. destruct l as [|x l]; [reflexivity|].
  unfold side. simpl. rewrite H. simpl. now rewrite app_nil_r.
Qed.

Lemma find_sub_spec (short long : list pystr) (i : nat) :
  find_sub short long = Some i ->
  long = firstn i long ++ short ++ skipn (i + length short) long.
Proof.
  revert i. induction long as [|x long IH]; intros i; cbn [find_sub].
  - destruct (list_eq_dec pystr_eq_dec (firstn (length short) []) short)
      as [E|_]; [|discriminate].
    intros [= <-]. rewrite firstn_nil in E. subst short. reflexivity.
  - destruct (list_eq_dec pystr_eq_dec (firstn (length short) (x :: long))
                short) as [E|_].
    + intros [= <-]. cbn [firstn app Nat.add].
      rewrite <- E at 1. now rewrite firstn_skipn.
    + destruct (find_sub short long) as [j|] eqn:F; [|discriminate].
      intros [= <-]. cbn [firstn app Nat.add skipn]. f_equal. now apply IH.
Qed.

Lemma side_compute_coarse (a b : list pystr) :
  side not_insert (diff_compute_coarse a b) = a
  /\ side not_delete (diff_compute_coarse a b) = b.
Proof.
  destruct a as [|x a], b as [|y b];
    try (unfold side; simpl; rewrite ?app_nil_r; now auto).
  unfold diff_compute_coarse.
  destruct (length (y :: b) <? length (x :: a)).
  - destruct (find_sub (y :: b) (x :: a)) as [i|] eqn:F.
    + apply find_sub_spec in F. unfold side. cbn [filter fst snd map concat
        not_insert not_delete diff_op_eqb negb]. rewrite !app_nil_r.
      split; [now rewrite <- F | reflexivity].
    + unfold side; simpl; rewrite ?app_nil_r; auto.
  - destruct (find_sub (x :: a) (y :: b)) as [i|] eqn:F.
    + apply find_sub_spec in F. unfold side. cbn [filter fst snd map concat
        not_insert not_delete diff_op_eqb negb]. rewrite !app_nil_r.
      split; [reflexivity | now rewrite <- F].
    + unfold side; simpl; rewrite ?app_nil_r; auto.
Qed.

Lemma diff_main_coarse_ok : diff_main_ok diff_main_coarse.
Proof.
  intros a b. unfold diff_main_coarse.
  destruct (list_eq_dec pystr_eq_dec a b) as [->|_].
  - now rewrite !side_equal_chunk.
  - set (pre := common_prefix a b).
    set (a1 := skipn (length pre) a). set (b1 := skipn (length pre) b).
    set (suf := common_suffix a1 b1).
    rewrite !side_app, !side_equal_chunk by reflexivity.
    destruct (side_compute_coarse (drop_end (length suf) a1)
                (drop_end (length suf) b1)) as [-> ->].
    unfold suf. rewrite <- common_suffix_l, <- common_suffix_r.
    unfold a1, b1, pre.
    now rewrite <- common_prefix_l, <- common_prefix_r.
Qed.

(** ** The rendered diff, read back *)

Lemma is_break_linebreak (c : char) : is_linebreak c = true -> is_break c = true.
Proof. unfold is_break. intros ->. apply orb_true_r. Qed.

Lemma not_break (c : char) :
  is_break c = false -> (c =? 13)%N = false /\ is_linebreak c = false.
Proof. unfold is_break. apply orb_false_iff. Qed.

Lemma ended_line_cons (c : char) (l : pystr) :
  is_break c = false -> ended_line l -> ended_line (c :: l).
Proof.
  intros Hc (body & ending & -> & Hb & He).
  exists (c :: body), ending. repeat split; [|exact He].
  cbn [forallb]. now rewrite Hc, Hb.
Qed.

Lemma ended_line_entry (e : diff_op * pystr) :
  ended_line (snd e) -> ended_line (entry_text e).
Proof.
  intros H. unfold entry_text.
  destruct (fst e); cbn [marker str map list_ascii_of_string app];
    repeat apply ended_line_cons; trivial.
Qed.

(** A line with its ending is cut off whatever follows, but a line feed
    after a carriage return. *)
Lemma splitlines_ended (l rest : pystr) :
  ended_line l ->
  hd_error rest <> Some 10%N ->
  splitlines_keepends (l ++ rest) = l :: splitlines_keepends rest.
Proof.
  intros (body & ending & -> & Hb & He) Hr.
  induction body as [|c body IH].
  - cbn [app]. destruct He as [-> | (b & -> & Hbr)].
    + reflexivity.
    + cbn [app splitlines_keepends].
      destruct (N.eqb_spec b 13) as [->|Hn].
      * destruct rest as [|d rest]; [reflexivity|].
        destruct (N.eqb_spec d 10) as [->|_]; [|reflexivity].
        now elim Hr.
      * unfold is_break in Hbr. apply orb_true_iff in Hbr.
        destruct Hbr as [Hbr|Hbr]; [apply N.eqb_eq in Hbr; contradiction|].
        now rewrite Hbr.
  - cbn [forallb] in Hb. apply andb_true_iff in Hb. destruct Hb as [Hc Hb].
    apply negb_true_iff in Hc. destruct (not_break _ Hc) as [H13 Hl].
    specialize (IH Hb).
    change (((c :: body) ++ ending) ++ rest)
      with (c :: (body ++ ending) ++ rest).
    cbn [splitlines_keepends]. rewrite H13, Hl, IH. reflexivity.
Qed.

Lemma entry_text_head (e : diff_op * pystr) (rest : pystr) :
  hd_error (entry_text e ++ rest) <> Some 10%N.
Proof. unfold entry_text. destruct (fst e); discriminate. Qed.

Lemma read_line_entry (e : diff_op * pystr) : read_line (entry_text e) = Some e.
Proof. destruct e as [[] l]; reflexivity. Qed.

(** Entries that end with their line ending are the lines of the text they
    make. *)
Lemma read_back_entries (entries : list (diff_op * pystr)) :
  Forall (fun e => ended_line (snd e)) entries ->
  read_back (concat (map entry_text entries)) = map Some entries.
Proof.
  unfold read_back. induction 1 as [|e es He _ IH]; [reflexivity|].
  cbn [map concat]. rewrite splitlines_ended.
  - cbn [map]. now rewrite read_line_entry, IH.
  - now apply ended_line_entry.
  - destruct es as [|e' es]; [discriminate|].
    cbn [map concat]. apply entry_text_head.
Qed.

Lemma lines_of_cons (s : pystr) :
  s <> [] -> exists l ls, lines_of s = l :: ls.
Proof.
  destruct s as [|c s]; [congruence|]. intros _. cbn [lines_of].
  destruct (c =? 10)%N; [eauto|]. destruct (lines_of s); eauto.
Qed.

Lemma lines_of_terminated (t : pystr) :
  terminated t -> Forall ends_lf (lines_of t).
Proof.
  intros [-> | [t' ->]]; [constructor|].
  induction t' as [|c t' IH]; cbn [app lines_of].
  - constructor; [now exists [] | constructor].
  - destruct (c =? 10)%N eqn:Hc.
    + apply N.eqb_eq in Hc. subst. constructor; [now exists [] | exact IH].
    + destruct (lines_of_cons (t' ++ [10%N])) as (l & ls & E).
      { now destruct t'. }
      rewrite E in *. inversion IH; subst.
      constructor; [now apply ends_lf_cons | assumption].
Qed.

(** The lines of a text that ends with a line feed all have their ending. *)
Lemma splitlines_all_ended (s : pystr) :
  ends_lf s -> Forall ended_line (splitlines_keepends s).
Proof.
  intros [t ->].
  induction t as [t IH] using (induction_ltof1 _ (@length char)).
  unfold ltof in IH.
  assert (Hlf : ended_line [10%N]).
  { exists [], [10%N]. repeat split. right. now exists 10%N. }
  destruct t as [|c t]; [repeat constructor; exact Hlf|].
  cbn [app splitlines_keepends].
  destruct (c =? 13)%N eqn:Hc.
  - apply N.eqb_eq in Hc. subst c.
    destruct t as [|d t]; cbn [app].
    + repeat constructor. exists [], [13%N; 10%N]. repeat split. now left.
    + destruct (d =? 10)%N eqn:Hd.
      * constructor; [|apply IH; simpl; lia].
        apply N.eqb_eq in Hd. subst d.
        exists [], [13%N; 10%N]. repeat split. now left.
      * constructor.
        { exists [], [13%N]. repeat split. right. now exists 13%N. }
        change (d :: t ++ [10%N]) with ((d :: t) ++ [10%N]).
        apply IH. simpl. lia.
  - destruct (is_linebreak c) eqn:Hl.
    + constructor; [|apply IH; simpl; lia].
      exists [], [c]. repeat split. right. exists c. split; [reflexivity|].
      now apply is_break_linebreak.
    + specialize (IH t ltac:(simpl; lia)).
      destruct (splitlines_cons (t ++ [10%N])) as (l & ls & E).
      { now destruct t. }
      rewrite E in *. inversion IH; subst.
      constructor; [|assumption].
      apply ended_line_cons; [|assumption].
      unfold is_break. now rewrite Hc, Hl.
Qed.

Lemma kept_lines_ended (tokens : list pystr) :
  Forall ends_lf tokens -> Forall ended_line (kept_lines (concat tokens)).
Proof.
  intros H. unfold kept_lines.
  destruct tokens as [|x tokens]; [constructor|].
  apply Forall_forall. intros l Hl. apply filter_In in Hl.
  destruct Hl as [Hl _].
  pose proof (splitlines_all_ended (concat (x :: tokens))) as Ha.
  rewrite Forall_forall in Ha. apply Ha; [|exact Hl].
  apply ends_lf_concat; [exact H | discriminate].
Qed.

Lemma side_tokens (keep : diff_op -> bool) (d : diffs) (x : diff_op * list pystr) :
  In x d -> keep (fst x) = true -> incl (snd x) (side keep d).
Proof.
  unfold side. induction d as [|y d IH]; [intros []|].
  intros [-> | Hin] Hk; cbn [filter].
  - rewrite Hk. cbn [map concat]. apply incl_appl, incl_refl.
  - destruct (keep (fst y)); [|now apply IH].
    cbn [map concat]. apply incl_appr. now apply IH.
Qed.

(** With texts that end with a line feed, every entry of the rendered diff
    has its line ending. *)
Lemma entries_ended (diff_main : list pystr -> list pystr -> diffs)
    (before after : pystr) :
  diff_main_ok diff_main ->
  terminated before -> terminated after ->
  Forall (fun e => ended_line (snd e)) (marked_lines diff_main before after).
Proof.
  intros Hok Hb Ha. rewrite marked_lines_unfold.
  destruct (Hok (lines_of before) (lines_of after)) as [H1 H2].
  set (d := diff_main (lines_of before) (lines_of after)) in *.
  assert (Htok : forall x, In x d -> Forall ends_lf (snd x)).
  { intros x Hx. apply Forall_forall. intros t Ht.
    pose proof (lines_of_terminated before Hb) as Fb.
    pose proof (lines_of_terminated after Ha) as Fa.
    rewrite Forall_forall in Fb, Fa.
    destruct (fst x) eqn:Ho.
    - apply Fb. rewrite <- H1.
      apply (side_tokens not_insert d x Hx); [now rewrite Ho | exact Ht].
    - apply Fa. rewrite <- H2.
      apply (side_tokens not_delete d x Hx); [now rewrite Ho | exact Ht].
    - apply Fb. rewrite <- H1.
      apply (side_tokens not_insert d x Hx); [now rewrite Ho | exact Ht]. }
  clearbody d. clear H1 H2.
  induction d as [|x d IH]; [constructor|].
  cbn [chars_to_lines map flat_map]. apply Forall_app. split.
  - unfold chunk_entries. cbn [fst snd].
    apply Forall_forall. intros e He. apply in_map_iff in He.
    destruct He as (l & <- & Hl). cbn [snd].
    pose proof (kept_lines_ended (snd x) (Htok x (or_introl eq_refl))) as Hk.
    rewrite Forall_forall in Hk. now apply Hk.
  - apply IH. intros y Hy. apply Htok. now right.
Qed.

(** ** The two sides of a rendered diff *)

(** C5, as the code has it: for every diff that [diff_main] may return, the
    string returned is the concatenation of entries, each the marker of an
    operation followed by a line of the texts that is not blank, with its
    ending; the entries marked as inserted or unchanged are, in order, the
    lines of [after] that are not blank, and those marked as deleted or
    unchanged the lines of [before] that are not blank.  When both texts are
    empty or end with a line feed, the entries are the lines of the string
    returned, read back with their markers.  Rendering from the empty text
    gives every non-blank line of [after] with the marker of an insertion
    and nothing else, rendering to the empty text every non-blank line of
    [before] with the marker of a deletion and nothing else. *)
Theorem render_sides (diff_main : list pystr -> list pystr -> diffs)
    (before after : pystr) :
  diff_main_ok diff_main ->
  (exists entries,
      generate_highlighted_diff diff_main before after
      = concat (map entry_text entries)
      /\ lines_marked not_delete entries = kept_lines after
      /\ lines_marked not_insert entries = kept_lines before
      /\ (terminated before -> terminated after ->
          read_back (generate_highlighted_diff diff_main before after)
          = map Some entries))
  /\ generate_highlighted_diff diff_main [] after
    = concat (map (fun line => str "+ " ++ line) (kept_lines after))
  /\ generate_highlighted_diff diff_main before []
    = concat (map (fun line => str "- " ++ line) (kept_lines before)).
Proof.
  intros Hok.
  assert (Hmap : forall o t1 t2 ls,
    marked_lines diff_main t1 t2 = map (fun line => (o, line)) ls ->
    generate_highlighted_diff diff_main t1 t2
    = concat (map (fun line => marker o ++ line) ls)).
  { intros o t1 t2 ls H. unfold generate_highlighted_diff. rewrite H.
    now rewrite map_map. }
  assert (Hafter : forall x y,
    lines_marked not_delete (marked_lines diff_main x y) = kept_lines y).
  { intros x y. destruct (Hok (lines_of x) (lines_of y)) as [_ H2].
    rewrite marked_lines_unfold, lines_marked_side; rewrite H2.
    - now rewrite concat_lines_of.
    - apply well_cut_lines_of. }
  assert (Hbefore : forall x y,
    lines_marked not_insert (marked_lines diff_main x y) = kept_lines x).
  { intros x y. destruct (Hok (lines_of x) (lines_of y)) as [H1 _].
    rewrite marked_lines_unfold, lines_marked_side; rewrite H1.
    - now rewrite concat_lines_of.
    - apply well_cut_lines_of. }
  split; [|split].
  - exists (marked_lines diff_main before after).
    split; [reflexivity|]. split; [apply Hafter|]. split; [apply Hbefore|].
    intros Hb Ha. unfold generate_highlighted_diff.
    apply read_back_entries. now apply entries_ended.
  - apply (Hmap DIFF_INSERT).
    specialize (Hafter [] after).
    destruct (Hok (lines_of []) (lines_of after)) as [H1 _].
    apply side_nil_no_entries in H1. rewrite <- marked_lines_unfold in H1.
    assert (Hall : Forall (fun e => fst e = DIFF_INSERT)
                     (marked_lines diff_main [] after)).
    { eapply Forall_impl; [|exact H1]. intros [[] l]; simpl; now intros. }
    rewrite (all_marked _ _ Hall). f_equal. rewrite <- Hafter.
    unfold lines_marked. rewrite filter_all; [reflexivity|].
    eapply Forall_impl; [|exact Hall]. intros [o l]; simpl. now intros ->.
  - apply (Hmap DIFF_DELETE).
    specialize (Hbefore before []).
    destruct (Hok (lines_of before) (lines_of [])) as [_ H2].
    apply side_nil_no_entries in H2. rewrite <- marked_lines_unfold in H2.
    assert (Hall : Forall (fun e => fst e = DIFF_DELETE)
                     (marked_lines diff_main before [])).
    { eapply Forall_impl; [|exact H2]. intros [[] l]; simpl; now intros. }
    rewrite (all_marked _ _ Hall). f_equal. rewrite <- Hbefore.
    unfold lines_marked. rewrite filter_all; [reflexivity|].
    eapply Forall_impl; [|exact Hall]. intros [o l]; simpl. now intros ->.
Qed.

Lemma render_sides_witness :
  diff_main_ok diff_main_coarse
  /\ (exists entries,
         generate_highlighted_diff diff_main_coarse body_v1 body_v3
         = concat (map entry_text entries)
         /\ lines_marked not_delete entries = kept_lines body_v3
         /\ lines_marked not_insert entries = kept_lines body_v1
         /\ read_back (generate_highlighted_diff diff_main_coarse body_v1 body_v3)
            = map Some entries)
  /\ generate_highlighted_diff diff_main_coarse [] body_v3
     = concat (map (fun line => str "+ " ++ line) (kept_lines body_v3)).
Proof.
  split; [exact diff_main_coarse_ok|].
  destruct (render_sides diff_main_coarse body_v1 body_v3 diff_main_coarse_ok)
    as ((entries & H1 & H2 & H3 & H4) & H5 & _).
  split; [|exact H5].
  exists entries. repeat split; try assumption.
  apply H4; right.
  - exists (str "keep"). reflexivity.
  - exists (str "keep" ++ nl ++ nl ++ str "new"). reflexivity.
Defined.

(** The rendered diff of the witness, read back. *)
Example render_read_back :
  generate_highlighted_diff diff_main_coarse body_v1 body_v3
    = str "  keep" ++ nl ++ str "+ new" ++ nl
  /\ read_back (generate_highlighted_diff diff_main_coarse body_v1 body_v3)
     = [Some (DIFF_EQUAL, str "keep" ++ nl); Some (DIFF_INSERT, str "new" ++ nl)].
Proof. split; vm_compute; reflexivity. Qed.

(** C5 as it is stated fails: the unchanged line is marked as context and the
    blank line is dropped, so the insertion-marked lines of the diff from
    [body_v1] to [body_v2] spell ["new"], not [body_v2], and from the empty
    text the inserted lines lack the blank line of [body_v2]; and a line
    without its line feed is glued to the entry that follows, so the diff
    from ["a"] to ["b"] is the one line ["- a+ b"], whose text is neither of
    the two. *)
Lemma render_roundtrip_counterexample :
  generate_highlighted_diff diff_main_coarse body_v1 body_v2
    = str "  keep" ++ nl ++ str "+ new"
  /\ read_back (generate_highlighted_diff diff_main_coarse body_v1 body_v2)
     = [Some (DIFF_EQUAL, str "keep" ++ nl); Some (DIFF_INSERT, str "new")]
  /\ generate_highlighted_diff diff_main_coarse [] body_v2
    = str "+ keep" ++ nl ++ str "+ new"
  /\ read_back (generate_highlighted_diff diff_main_coarse [] body_v2)
     = [Some (DIFF_INSERT, str "keep" ++ nl); Some (DIFF_INSERT, str "new")]
  /\ body_v2 = str "keep" ++ nl ++ nl ++ str "new"
  /\ generate_highlighted_diff diff_main_coarse (str "a") (str "b")
    = str "- a+ b"
  /\ read_back (generate_highlighted_diff diff_main_coarse (str "a") (str "b"))
     = [Some (DIFF_DELETE, str "a+ b")].
Proof. repeat split; vm_compute; reflexivity. Qed.

End RenderProofs.

(* ===================================================================== *)
(** * Properties of the history tracker *)
(* ===================================================================== *)

Module HistoryProofs.
Import Py Dmp History HistorySpec.

Section Tracker.

Variable iter_commits : pystr -> list Commit.
Variable read_blob : pystr -> pystr -> blob_read.
Variable codec_decode : pystr -> bytes -> decode_result.
Variable decode_utf8_replace : bytes -> pystr.
Variable query_captures : pystr -> pystr -> outcome (list ts_node).
Variable diff_main : list pystr -> list pystr -> diffs.

Local Abbreviation content_at :=
  (get_file_content_at_commit read_blob codec_decode decode_utf8_replace).
Local Abbreviation render := (generate_highlighted_diff diff_main).

Section Trace.

Variable file_path : pystr.
Variables node_name node_type : option pystr.
Variables start_line end_line : option Z.

Local Abbreviation trace :=
  (trace_history iter_commits read_blob codec_decode decode_utf8_replace
     query_captures diff_main file_path node_name node_type start_line
     end_line).
Local Abbreviation walk :=
  (compared read_blob codec_decode decode_utf8_replace query_captures
     diff_main file_path node_name node_type start_line end_line).
Local Abbreviation step :=
  (compare_step read_blob codec_decode decode_utf8_replace query_captures
     diff_main file_path node_name node_type start_line end_line).
Local Abbreviation reduced_at :=
  (HistorySpec.reduced_at read_blob codec_decode decode_utf8_replace
     query_captures file_path node_name node_type start_line end_line).
Local Abbreviation code_at :=
  (HistorySpec.code_at read_blob codec_decode decode_utf8_replace
     query_captures file_path node_name node_type start_line end_line).
Local Abbreviation reduces :=
  (HistorySpec.reduces read_blob codec_decode decode_utf8_replace
     query_captures file_path node_name node_type start_line end_line).
Local Abbreviation changed :=
  (HistorySpec.changed read_blob codec_decode decode_utf8_replace
     query_captures file_path node_name node_type start_line end_line).
Local Abbreviation record_of :=
  (HistorySpec.record_of read_blob codec_decode decode_utf8_replace
     query_captures diff_main file_path node_name node_type start_line
     end_line).
Local Abbreviation creation_record :=
  (HistorySpec.creation_record diff_main).
Local Abbreviation emitted :=
  (HistorySpec.emitted read_blob codec_decode decode_utf8_replace
     query_captures diff_main file_path node_name node_type start_line
     end_line).
Local Abbreviation changes :=
  (HistorySpec.changes read_blob codec_decode decode_utf8_replace
     query_captures diff_main file_path node_name node_type start_line
     end_line).

Lemma opt_eqb_eq (a b : option pystr) : opt_eqb a b = true <-> a = b.
Proof. unfold opt_eqb. destruct (opt_eq_dec a b); split; congruence. Qed.

Lemma changed_spec (current parent : Commit) :
  changed current parent = true
  <-> ~ (code_at current = None /\ code_at parent = None)
      /\ code_at current <> code_at parent.
Proof.
  unfold changed. rewrite andb_true_iff, !negb_true_iff.
  rewrite andb_false_iff.
  assert (Hn : forall o : option pystr, is_none o = false <-> o <> None).
  { intros [x|]; simpl; split; congruence. }
  rewrite !Hn. split.
  - intros [H1 H2]. split.
    + intros [Ha Hb]. destruct H1; congruence.
    + intros E. apply opt_eqb_eq in E. congruence.
  - intros [H1 H2]. split.
    + destruct (code_at current); [left; congruence|].
      destruct (code_at parent); [right; congruence|]. tauto.
    + destruct (opt_eqb (code_at current) (code_at parent)) eqn:E; auto.
      apply opt_eqb_eq in E. contradiction.
Qed.

(** ** The reduction of a commit *)

Lemma returned_code (c : Commit) (code : option pystr) :
  reduced_at c = Returned code -> code_at c = code /\ reduces c.
Proof.
  intros H. unfold HistorySpec.reduces, HistorySpec.code_at.
  rewrite H. now split.
Qed.

Lemma raised_not_reduces (c : Commit) (e : pystr) :
  reduced_at c = Raised e -> ~ reduces c.
Proof. unfold HistorySpec.reduces. intros H R. congruence. Qed.

Lemma reduced_at_unfold (c : Commit) :
  reduced_at c
  = match node_type, node_name with
    | Some t, Some n =>
        match content_at (hexsha c) file_path with
        | Some source_code =>
            fst (find_node_body query_captures source_code n t start_line
                   end_line)
        | None => Returned None
        end
    | _, _ => Returned (content_at (hexsha c) file_path)
    end.
Proof.
  unfold HistorySpec.reduced_at, reduced, is_full_file.
  destruct node_type, node_name; simpl; try reflexivity;
    now destruct (content_at (hexsha c) file_path).
Qed.

(** A reduction raises only what the query of [find_node_body] raises. *)
Lemma reduced_at_raised (c : Commit) (e : pystr) :
  reduced_at c = Raised e ->
  exists t n source_code,
    node_type = Some t /\ node_name = Some n
    /\ content_at (hexsha c) file_path = Some source_code
    /\ in_keys t query_kinds = true
    /\ query_captures (format_query t n) source_code = Raised e.
Proof.
  rewrite reduced_at_unfold.
  destruct node_type as [t|], node_name as [n|]; try discriminate.
  destruct (content_at (hexsha c) file_path) as [source_code|];
    [|discriminate].
  intros H. exists t, n, source_code. repeat split.
  - revert H. unfold find_node_body, in_keys, QUERIES_keys, query_kinds.
    cbn [existsb].
    destruct (pystr_eqb t (str "function")); [reflexivity|].
    destruct (pystr_eqb t (str "async_function")); [reflexivity|].
    destruct (pystr_eqb t (str "class")); [reflexivity|].
    destruct (pystr_eqb t (str "module")); cbn [orb negb];
      [destruct start_line, end_line; discriminate|].
    destruct (pystr_eqb t (str "script")); cbn [orb negb];
      [destruct start_line, end_line; discriminate | discriminate].
  - revert H. unfold find_node_body.
    destruct (negb (in_keys t QUERIES_keys)); [discriminate|].
    destruct (in_keys t [str "module"; str "script"]);
      [destruct start_line, end_line; discriminate|].
    destruct (query_captures (format_query t n) source_code); cbn [fst];
      congruence.
Qed.

(** ** The loop over the adjacent pairs *)

Lemma step_unfold (commits : list Commit) (history : list CommitChange)
    (i : nat) (current parent : Commit) :
  nth_error commits i = Some current ->
  nth_error commits (i + 1) = Some parent ->
  step commits history i
  = match reduced_at current, reduced_at parent with
    | Raised e, _ => Raised e
    | Returned _, Raised e => Raised e
    | Returned _, Returned _ => Returned (history ++ emitted current parent)
    end.
Proof.
  intros Hc Hp. unfold compare_step. rewrite Hc, Hp.
  fold (reduced_at current) (reduced_at parent). unfold bind.
  destruct (reduced_at current) as [a|e] eqn:Ea; [|reflexivity].
  destruct (reduced_at parent) as [b|e] eqn:Eb; [|reflexivity].
  destruct (returned_code _ _ Ea) as [Ha _].
  destruct (returned_code _ _ Eb) as [Hb _].
  unfold emitted, changed. rewrite Ha, Hb.
  destruct (is_none a && is_none b); simpl.
  - now rewrite app_nil_r.
  - destruct (opt_eqb a b); simpl.
    + now rewrite app_nil_r.
    + unfold HistorySpec.record_of, change_of, prefix_slice.
      now rewrite Ha, Hb.
Qed.

Lemma step_shift (c : Commit) (commits : list Commit)
    (history : list CommitChange) (i : nat) :
  step (c :: commits) history (S i) = step commits history i.
Proof. reflexivity. Qed.

Lemma for_range_shift (c : Commit) (commits : list Commit) (n k : nat)
    (history : list CommitChange) :
  for_range (step (c :: commits)) (seq (S k) n) history
  = for_range (step commits) (seq k n) history.
Proof.
  revert k history. induction n as [|n IH]; intros k history; simpl.
  - reflexivity.
  - rewrite step_shift. unfold bind.
    destruct (step commits history k); [apply IH | reflexivity].
Qed.

Lemma walk_cons (c p : Commit) (rest : list Commit)
    (history : list CommitChange) :
  for_range (step (c :: p :: rest)) (seq 0 (length (c :: p :: rest) - 1))
    history
  = match reduced_at c, reduced_at p with
    | Raised e, _ => Raised e
    | Returned _, Raised e => Raised e
    | Returned _, Returned _ =>
        for_range (step (p :: rest)) (seq 0 (length (p :: rest) - 1))
          (history ++ emitted c p)
    end.
Proof.
  simpl length. replace (S (S (length rest)) - 1) with (S (length rest)) by lia.
  replace (S (length rest) - 1) with (length rest) by lia.
  cbn [seq for_range].
  rewrite (step_unfold (c :: p :: rest) history 0 c p) by reflexivity.
  unfold bind.
  destruct (reduced_at c); [|reflexivity].
  destruct (reduced_at p); [|reflexivity].
  apply for_range_shift.
Qed.

(** The loop, by how it ends. *)
Lemma walk_from (commits : list Commit) (history : list CommitChange) :
  match for_range (step commits) (seq 0 (length commits - 1)) history with
  | Returned h =>
      h = history
          ++ flat_map (fun cp => emitted (fst cp) (snd cp)) (adjacent commits)
      /\ (2 <= length commits -> Forall reduces commits)
  | Raised e => exists c, In c commits /\ reduced_at c = Raised e
  end.
Proof.
  revert history. induction commits as [|c commits IH]; intros history.
  - simpl. rewrite app_nil_r. split; [reflexivity | simpl; lia].
  - destruct commits as [|p rest].
    + simpl. rewrite app_nil_r. split; [reflexivity | simpl; lia].
    + rewrite walk_cons.
      destruct (reduced_at c) as [a|e] eqn:Ea;
        [|exists c; split; [now left | exact Ea]].
      destruct (reduced_at p) as [b|e] eqn:Eb;
        [|exists p; split; [right; now left | exact Eb]].
      specialize (IH (history ++ emitted c p)).
      destruct (for_range _ _ (history ++ emitted c p)) as [h|e].
      * destruct IH as [-> Hall]. split.
        { unfold adjacent. simpl. now rewrite <- app_assoc. }
        intros _. constructor; [exact (proj2 (returned_code _ _ Ea))|].
        destruct rest as [|q rest].
        { constructor; [exact (proj2 (returned_code _ _ Eb)) | constructor]. }
        apply Hall. simpl. lia.
      * destruct IH as (x & Hin & Hx). exists x. split; [now right | exact Hx].
Qed.

Lemma flat_map_emitted (pairs : list (Commit * Commit)) :
  flat_map (fun cp => emitted (fst cp) (snd cp)) pairs
  = map (fun cp => record_of (fst cp) (snd cp))
      (filter (fun cp => changed (fst cp) (snd cp)) pairs).
Proof.
  induction pairs as [|[c p] pairs IH]; simpl; [reflexivity|].
  unfold emitted at 1. destruct (changed c p); simpl; now rewrite IH.
Qed.

Lemma walk_inv (commits : list Commit) :
  match walk commits with
  | Returned h =>
      h = changes commits /\ (2 <= length commits -> Forall reduces commits)
  | Raised e => exists c, In c commits /\ reduced_at c = Raised e
  end.
Proof.
  unfold compared. pose proof (walk_from commits []) as H.
  destruct (for_range _ _ []); [|exact H].
  destruct H as [-> Hall]. split; [|exact Hall].
  simpl. apply flat_map_emitted.
Qed.

Lemma walk_records (commits : list Commit) :
  Forall reduces commits -> walk commits = Returned (changes commits).
Proof.
  intros Hall. pose proof (walk_inv commits) as H.
  destruct (walk commits) as [h|e].
  - now destruct H as [-> _].
  - destruct H as (c & Hin & Hc). exfalso.
    apply (raised_not_reduces _ _ Hc).
    rewrite Forall_forall in Hall. now apply Hall.
Qed.

Lemma record_changed (commits : list Commit) (r : CommitChange) :
  In r (changes commits) -> code_before r <> code_after r.
Proof.
  unfold HistorySpec.changes. intros H. apply in_map_iff in H.
  destruct H as ([c p] & <- & H). apply filter_In in H.
  destruct H as [_ H]. apply changed_spec in H. simpl in *.
  destruct H as [_ H]. congruence.
Qed.

(** ** The oldest commit *)

Lemma first_step_last (init : list Commit) (oldest : Commit)
    (history : list CommitChange) :
  first_commit_step read_blob codec_decode decode_utf8_replace query_captures
    diff_main file_path node_name node_type start_line end_line
    (init ++ [oldest]) history
  = match reduced_at oldest with
    | Returned (Some code) =>
        Returned
          (if existsb (fun c => opt_eqb (code_before c) (Some code)) history
           then history
           else history ++ [creation_record oldest code])
    | Returned None => Returned history
    | Raised e => Raised e
    end.
Proof.
  unfold first_commit_step.
  replace (nth_error (init ++ [oldest]) (length (init ++ [oldest]) - 1))
    with (Some oldest).
  - fold (reduced_at oldest). unfold bind.
    destruct (reduced_at oldest) as [[code|]|e]; auto.
    destruct (existsb _ history); reflexivity.
  - rewrite length_app. simpl.
    replace (length init + 1 - 1) with (length init) by lia.
    rewrite nth_error_app2 by lia. now rewrite Nat.sub_diag.
Qed.

Lemma trace_steps (init : list Commit) (oldest : Commit) :
  iter_commits file_path = init ++ [oldest] ->
  trace
  = match walk (init ++ [oldest]) with
    | Returned history =>
        first_commit_step read_blob codec_decode decode_utf8_replace
          query_captures diff_main file_path node_name node_type start_line
          end_line (init ++ [oldest]) history
    | Raised e => Raised e
    end.
Proof.
  intros H. unfold trace_history, get_file_history, bind. rewrite H.
  now destruct init.
Qed.

(** The trace, by how it ends. *)
Lemma trace_inv (init : list Commit) (oldest : Commit) :
  iter_commits file_path = init ++ [oldest] ->
  match trace with
  | Returned history =>
      Forall reduces (init ++ [oldest])
      /\ history
         = match code_at oldest with
           | Some code =>
               if existsb (fun c => opt_eqb (code_before c) (Some code))
                    (changes (init ++ [oldest]))
               then changes (init ++ [oldest])
               else changes (init ++ [oldest]) ++ [creation_record oldest code]
           | None => changes (init ++ [oldest])
           end
  | Raised e => exists c, In c (init ++ [oldest]) /\ reduced_at c = Raised e
  end.
Proof.
  intros H. rewrite (trace_steps init oldest H).
  pose proof (walk_inv (init ++ [oldest])) as Hw.
  destruct (walk (init ++ [oldest])) as [h|e]; [|exact Hw].
  destruct Hw as [-> Hall]. rewrite first_step_last.
  destruct (reduced_at oldest) as [code|e] eqn:Eo.
  - destruct (returned_code _ _ Eo) as [Hc Hr]. rewrite Hc.
    assert (Hf : Forall reduces (init ++ [oldest])).
    { destruct init as [|c init].
      - constructor; [exact Hr | constructor].
      - apply Hall. rewrite length_app. simpl. lia. }
    destruct code as [code|]; split; auto.
  - exists oldest. split; [|exact Eo].
    apply in_or_app. right. now left.
Qed.

Lemma trace_unfold (init : list Commit) (oldest : Commit) :
  iter_commits file_path = init ++ [oldest] ->
  Forall reduces (init ++ [oldest]) ->
  trace
  = Returned
      match code_at oldest with
      | Some code =>
          if existsb (fun c => opt_eqb (code_before c) (Some code))
               (changes (init ++ [oldest]))
          then changes (init ++ [oldest])
          else changes (init ++ [oldest]) ++ [creation_record oldest code]
      | None => changes (init ++ [oldest])
      end.
Proof.
  intros H Hall. pose proof (trace_inv init oldest H) as Ht.
  destruct trace as [h|e].
  - now destruct Ht as [_ ->].
  - destruct Ht as (c & Hin & Hc). exfalso.
    apply (raised_not_reduces _ _ Hc).
    rewrite Forall_forall in Hall. now apply Hall.
Qed.

Lemma trace_empty :
  iter_commits file_path = [] -> trace = Returned [].
Proof.
  intros H. unfold trace_history, get_file_history. now rewrite H.
Qed.

(** C1: the reduction of a commit is the content of the file in whole-file
    mode and, in construct mode, the call of [find_node_body] on it, which is
    not made when the file is absent; it raises only what the tree-sitter
    query of [find_node_body] raises, as it does for a name that breaks the
    query string.  When every reduction returns, the loop over the adjacent
    pairs [(current, parent)] of the commits, newest first, returns one
    record for every pair whose reduced contents are not both absent and are
    unequal, made for [current] from these two contents and their rendered
    diff, in the order of the pairs, and nothing for the other pairs; the
    history returned is this one, followed by at most the record of
    creation.  A trace that returns has reduced every commit, and every one
    of its records has [code_before] different from [code_after]; a trace
    that raises raises the exception of the reduction of one of the
    commits. *)
Theorem trace_records_changes :
  (forall c,
      reduced_at c
      = match node_type, node_name with
        | Some t, Some n =>
            match content_at (hexsha c) file_path with
            | Some source_code =>
                fst (find_node_body query_captures source_code n t
                       start_line end_line)
            | None => Returned None
            end
        | _, _ => Returned (content_at (hexsha c) file_path)
        end)
  /\ (forall c e,
        reduced_at c = Raised e ->
        exists t n source_code,
          node_type = Some t /\ node_name = Some n
          /\ content_at (hexsha c) file_path = Some source_code
          /\ in_keys t query_kinds = true
          /\ query_captures (format_query t n) source_code = Raised e)
  /\ (forall current parent,
        changed current parent = true
        <-> ~ (code_at current = None /\ code_at parent = None)
            /\ code_at current <> code_at parent)
  /\ (Forall reduces (iter_commits file_path) ->
      walk (iter_commits file_path)
      = Returned
          (map (fun cp => record_of (fst cp) (snd cp))
             (filter (fun cp => changed (fst cp) (snd cp))
                (adjacent (iter_commits file_path))))
      /\ exists tail,
           trace
           = Returned
               (map (fun cp => record_of (fst cp) (snd cp))
                  (filter (fun cp => changed (fst cp) (snd cp))
                     (adjacent (iter_commits file_path)))
                ++ tail)
           /\ (tail = []
               \/ exists oldest code, tail = [creation_record oldest code]))
  /\ (forall history,
        trace = Returned history ->
        Forall reduces (iter_commits file_path)
        /\ Forall (fun r => code_before r <> code_after r) history)
  /\ (forall e,
        trace = Raised e ->
        exists c, In c (iter_commits file_path) /\ reduced_at c = Raised e).
Proof.
  split; [apply reduced_at_unfold|].
  split; [apply reduced_at_raised|].
  split; [apply changed_spec|].
  destruct (iter_commits file_path) as [|c0 cs] eqn:E.
  { pose proof (trace_empty E) as Ht. rewrite Ht. repeat split.
    - exists []. auto.
    - constructor.
    - injection H as <-. constructor.
    - discriminate. }
  destruct (exists_last (l := c0 :: cs)) as (init & oldest & Hl);
    [discriminate|].
  rewrite Hl in *. clear Hl c0 cs.
  pose proof (trace_inv init oldest E) as Hinv.
  split; [|split].
  - intros Hall. split; [now apply walk_records|].
    rewrite (trace_unfold init oldest E Hall).
    fold (changes (init ++ [oldest])).
    destruct (code_at oldest) as [code|];
      [destruct (existsb _ _)|];
      try (exists []; rewrite app_nil_r; now auto).
    exists [creation_record oldest code]. eauto.
  - intros history Ht. rewrite Ht in Hinv. destruct Hinv as [Hall ->].
    split; [exact Hall|].
    apply Forall_forall. intros r Hr.
    destruct (code_at oldest) as [code|];
      [destruct (existsb _ _)|]; try (eapply record_changed; eassumption).
    apply in_app_or in Hr. destruct Hr as [Hr|[<-|[]]].
    + eapply record_changed; eassumption.
    + discriminate.
  - intros e Ht. now rewrite Ht in Hinv.
Qed.

(** C2: when the path has commits, the oldest being [oldest], and the loop
    over the pairs has returned a history, the oldest commit is reduced on
    its own, and the history returned is the one of the loop, followed by
    one more record exactly when the reduced content of [oldest] is present
    and is the [code_before] of none of the records of the loop; that record
    is the last of the list, it is made for [oldest], has no [code_before],
    the content as [code_after] and the diff rendered from the empty text.
    When the loop or the reduction of [oldest] raises, the trace raises the
    same exception. *)
Theorem trace_creation_record (init : list Commit) (oldest : Commit) :
  iter_commits file_path = init ++ [oldest] ->
  (forall history first_code,
      walk (iter_commits file_path) = Returned history ->
      reduced_at oldest = Returned first_code ->
      (forall code,
          first_code = Some code ->
          (forall r, In r history -> code_before r <> Some code) ->
          trace = Returned (history ++ [creation_record oldest code])
          /\ last (history ++ [creation_record oldest code])
               (creation_record oldest [])
             = creation_record oldest code)
      /\ (first_code = None
          \/ (exists r, In r history /\ code_before r = first_code) ->
          trace = Returned history))
  /\ (forall e,
        walk (iter_commits file_path) = Raised e
        \/ (exists history,
               walk (iter_commits file_path) = Returned history
               /\ reduced_at oldest = Raised e) ->
        trace = Raised e).
Proof.
  intros H. rewrite (trace_steps init oldest H). rewrite H. split.
  - intros history first_code Hw Ho. rewrite Hw, first_step_last, Ho. split.
    + intros code -> Hno.
      destruct (existsb _ _) eqn:E.
      * apply existsb_exists in E. destruct E as (r & Hr & E).
        apply opt_eqb_eq in E. now apply Hno in Hr.
      * split; [reflexivity|]. apply last_last.
    + intros [-> | (r & Hr & E)]; [reflexivity|].
      destruct first_code as [code|]; [|reflexivity].
      destruct (existsb _ _) eqn:F; [reflexivity|].
      assert (T : existsb (fun c => opt_eqb (code_before c) (Some code))
                    history = true).
      { apply existsb_exists. exists r. split; [exact Hr|].
        now apply opt_eqb_eq. }
      congruence.
  - intros e [Hw | (history & Hw & Ho)]; rewrite Hw; [reflexivity|].
    now rewrite first_step_last, Ho.
Qed.

End Trace.

(** C8: when the blob of the path can be read at the commit, whatever its
    bytes, the content returned is a string, never the absent result: the
    decoding by the first of utf-8, cp949, euc-kr and latin-1 that succeeds
    and, should none succeed, the decoding as utf-8 with the invalid bytes
    replaced; the absent result is returned exactly when the read of the
    blob has raised, a [KeyError] or [ValueError] or any other exception. *)
Theorem content_decoded_or_absent (commit_hash file_path : pystr) :
  (forall raw_data,
      read_blob commit_hash file_path = Blob raw_data ->
      exists content,
        content_at commit_hash file_path = Some content
        /\ (forall c, codec_decode (str "utf-8") raw_data = Decoded c ->
                      content = c)
        /\ (forall c, decode_fails (codec_decode (str "utf-8") raw_data) ->
                      codec_decode (str "cp949") raw_data = Decoded c ->
                      content = c)
        /\ (forall c, decode_fails (codec_decode (str "utf-8") raw_data) ->
                      decode_fails (codec_decode (str "cp949") raw_data) ->
                      codec_decode (str "euc-kr") raw_data = Decoded c ->
                      content = c)
        /\ (forall c, decode_fails (codec_decode (str "utf-8") raw_data) ->
                      decode_fails (codec_decode (str "cp949") raw_data) ->
                      decode_fails (codec_decode (str "euc-kr") raw_data) ->
                      codec_decode (str "latin-1") raw_data = Decoded c ->
                      content = c)
        /\ (decode_fails (codec_decode (str "utf-8") raw_data) ->
            decode_fails (codec_decode (str "cp949") raw_data) ->
            decode_fails (codec_decode (str "euc-kr") raw_data) ->
            decode_fails (codec_decode (str "latin-1") raw_data) ->
            content = decode_utf8_replace raw_data))
  /\ (content_at commit_hash file_path = None
      <-> read_blob commit_hash file_path = LookupFailed
          \/ read_blob commit_hash file_path = UnexpectedFailure).
Proof.
  unfold get_file_content_at_commit. split.
  - intros raw_data ->. eexists. split; [reflexivity|].
    unfold encodings, decode_with, decode_fails.
    destruct (codec_decode (str "utf-8") raw_data) eqn:E1;
      destruct (codec_decode (str "cp949") raw_data) eqn:E2;
      destruct (codec_decode (str "euc-kr") raw_data) eqn:E3;
      destruct (codec_decode (str "latin-1") raw_data) eqn:E4;
      repeat split; intros;
      repeat match goal with
        | H : forall content, Decoded ?x <> Decoded content |- _ =>
            exfalso; exact (H x eq_refl)
        end;
      congruence.
  - destruct (read_blob commit_hash file_path) as [raw| |]; split;
      try tauto; try discriminate.
    intros [H|H]; discriminate.
Qed.

(** With Python's latin-1, which decodes every byte to the code point of the
    same number, the replacing decoder is never reached. *)
Lemma latin1_catches_all (commit_hash file_path : pystr) (raw_data : bytes) :
  (forall raw, codec_decode (str "latin-1") raw
               = Decoded (map Byte.to_N raw)) ->
  read_blob commit_hash file_path = Blob raw_data ->
  decode_fails (codec_decode (str "utf-8") raw_data) ->
  decode_fails (codec_decode (str "cp949") raw_data) ->
  decode_fails (codec_decode (str "euc-kr") raw_data) ->
  content_at commit_hash file_path = Some (map Byte.to_N raw_data).
Proof.
  intros Hl Hb H1 H2 H3. unfold get_file_content_at_commit. rewrite Hb.
  unfold encodings, decode_with, decode_fails in *.
  destruct (codec_decode (str "utf-8") raw_data) as [c| |];
    [now elim (H1 c)| |];
    (destruct (codec_decode (str "cp949") raw_data) as [c| |];
     [now elim (H2 c)| |]);
    (destruct (codec_decode (str "euc-kr") raw_data) as [c| |];
     [now elim (H3 c)| |]);
    now rewrite Hl.
Qed.

Lemma find_node_body_unsupported
    (source_code node_name node_type : pystr) (start_line end_line : option Z) :
  in_keys node_type QUERIES_keys = false ->
  find_node_body query_captures source_code node_name node_type start_line
    end_line
  = (Returned None, [UnsupportedNodeType node_type]).
Proof. intros H. unfold find_node_body. now rewrite H. Qed.

Lemma find_node_body_query
    (source_code node_name node_type : pystr) (start_line end_line : option Z) :
  in_keys node_type query_kinds = true ->
  find_node_body query_captures source_code node_name node_type start_line
    end_line
  = match query_captures (format_query node_type node_name) source_code with
    | Returned captures => (Returned (first_definition captures), [])
    | Raised e => (Raised e, [])
    end.
Proof.
  unfold find_node_body, in_keys, query_kinds, QUERIES_keys. cbn [existsb].
  unfold pystr_eqb.
  destruct (pystr_eq_dec node_type (str "function")) as [->|?];
    [intros _; reflexivity|].
  destruct (pystr_eq_dec node_type (str "async_function")) as [->|?];
    [intros _; reflexivity|].
  destruct (pystr_eq_dec node_type (str "class")) as [->|?];
    [intros _; reflexivity | discriminate].
Qed.

(** C7, as the code has it: for a kind that is not a key of [QUERIES],
    [find_node_body] prints one line that names the kind and returns the
    absent result; it raises nothing.  The value returned is the one it
    returns for a construct of a supported kind that the source does not
    have, when the query captures no definition. *)
Theorem unsupported_kind_returns_absent
    (source_code node_name node_type : pystr)
    (start_line end_line : option Z) :
  in_keys node_type QUERIES_keys = false ->
  find_node_body query_captures source_code node_name node_type start_line
    end_line
  = (Returned None, [UnsupportedNodeType node_type])
  /\ (forall other_source other_name other_type captures,
        in_keys other_type query_kinds = true ->
        query_captures (format_query other_type other_name) other_source
          = Returned captures ->
        first_definition captures = None ->
        fst (find_node_body query_captures other_source other_name other_type
               start_line end_line)
        = fst (find_node_body query_captures source_code node_name node_type
                 start_line end_line)).
Proof.
  intros H. rewrite find_node_body_unsupported by exact H.
  split; [reflexivity|].
  intros other_source other_name other_type captures Hk Hq Hn.
  rewrite find_node_body_query by exact Hk. now rewrite Hq, Hn.
Qed.

End Tracker.

(** ** The tracker on the scenario of the specification *)

(** A module span by its lines, first and last included. *)
Example find_module_lines :
  fst (find_node_body one_function_captures
         (str "l1" ++ nl ++ str "l2" ++ nl ++ str "l3" ++ nl) []
         (str "module") (Some 2%Z) (Some 3%Z))
  = Returned (Some (str "l2" ++ nl ++ str "l3")).
Proof. vm_compute. reflexivity. Qed.

(** Without lines, the whole text but its last line feeds. *)
Example find_script_whole :
  fst (find_node_body one_function_captures
         (str "l1" ++ nl ++ str "l2" ++ nl ++ nl) [] (str "script") None None)
  = Returned (Some (str "l1" ++ nl ++ str "l2")).
Proof. vm_compute. reflexivity. Qed.

(** The whole-file trace of the scenario. *)
Example scenario_trace_file :
  scenario_trace None None
  = Returned
      (changes scenario_blob ascii_codec replace_invalid
         one_function_captures diff_main_coarse (str "a.py") None None None
         None [commit3; commit2; commit1])
  /\ map (fun r => (commit_hash r, code_before r, code_after r))
       (changes scenario_blob ascii_codec replace_invalid
          one_function_captures diff_main_coarse (str "a.py") None None None
          None [commit3; commit2; commit1])
     = [(str "3333333", Some (str foo_v2), None);
        (str "2222222", Some (str foo_v1), Some (str foo_v2))].
Proof. split; vm_compute; reflexivity. Qed.

(** The trace of [foo] in the scenario: the deletion in the third commit and
    the change in the second; the content of the first commit is the
    [code_before] of the second record, so no record of creation follows. *)
Lemma scenario_trace_foo :
  scenario_trace (Some (str "foo")) (Some (str "function"))
  = Returned
      [ {| commit_hash := str "3333333"; commit_message := str "remove a.py";
           author := str "dev"; date := str "2025-01-04 03:04:05";
           code_before := Some (str foo_v2); code_after := None;
           highlighted_diff := str "- def foo(): return 2" |};
        {| commit_hash := str "2222222"; commit_message := str "change foo";
           author := str "dev"; date := str "2025-01-03 03:04:05";
           code_before := Some (str foo_v1); code_after := Some (str foo_v2);
           highlighted_diff :=
             str "- def foo(): return 1+ def foo(): return 2" |} ].
Proof. vm_compute. reflexivity. Qed.

Lemma trace_creation_record_witness :
  scenario_commits (str "a.py") = [commit3; commit2] ++ [commit1]
  /\ single_commit (str "a.py") = [] ++ [commit1]
  /\ scenario_trace (Some (str "foo")) (Some (str "function"))
     = compared scenario_blob ascii_codec replace_invalid
         one_function_captures diff_main_coarse (str "a.py")
         (Some (str "foo")) (Some (str "function")) None None
         (scenario_commits (str "a.py"))
  /\ trace_history single_commit scenario_blob ascii_codec replace_invalid
       one_function_captures diff_main_coarse (str "a.py")
       (Some (str "foo")) (Some (str "function")) None None
     = Returned
         ([] ++ [creation_record diff_main_coarse commit1 (str foo_v1)]).
Proof.
  split; [reflexivity|]. split; [reflexivity|]. split.
  - destruct (proj1 (trace_creation_record scenario_commits scenario_blob
                       ascii_codec replace_invalid one_function_captures
                       diff_main_coarse (str "a.py") (Some (str "foo"))
                       (Some (str "function")) None None
                       [commit3; commit2] commit1 eq_refl)
                _ (Some (str foo_v1)) eq_refl eq_refl) as [_ H].
    unfold scenario_trace. rewrite H; [reflexivity|].
    right. eexists. split; [right; left; reflexivity | reflexivity].
  - destruct (proj1 (trace_creation_record single_commit scenario_blob
                       ascii_codec replace_invalid one_function_captures
                       diff_main_coarse (str "a.py") (Some (str "foo"))
                       (Some (str "function")) None None
                       [] commit1 eq_refl)
                [] (Some (str foo_v1)) eq_refl eq_refl) as [H _].
    apply (H (str foo_v1) eq_refl). intros r [].
Defined.

Lemma unsupported_kind_returns_absent_witness :
  in_keys (str "method") QUERIES_keys = false
  /\ find_node_body one_function_captures (str foo_v1) (str "foo")
       (str "method") None None
     = (Returned None, [UnsupportedNodeType (str "method")])
  /\ fst (find_node_body one_function_captures (str foo_v1) (str "bar")
            (str "function") None None)
     = fst (find_node_body one_function_captures (str foo_v1) (str "foo")
              (str "method") None None).
Proof.
  split; [reflexivity|].
  destruct (unsupported_kind_returns_absent one_function_captures
              (str foo_v1) (str "foo") (str "method") None None eq_refl)
    as [H1 H2].
  split; [exact H1|].
  apply (H2 (str foo_v1) (str "bar") (str "function") []); reflexivity.
Defined.

(** C7 as it is stated fails: asked for the kind ["method"], which is not
    supported, [find_node_body] returns the absent result, and so it does
    for the function [bar], which the source does not have; the function
    [foo], which it has, is found. *)
Lemma unsupported_kind_counterexample :
  fst (find_node_body one_function_captures (str foo_v1) (str "foo")
         (str "method") None None) = Returned None
  /\ fst (find_node_body one_function_captures (str foo_v1) (str "bar")
            (str "function") None None) = Returned None
  /\ fst (find_node_body one_function_captures (str foo_v1) (str "foo")
            (str "function") None None) = Returned (Some (str foo_v1)).
Proof. repeat split; vm_compute; reflexivity. Qed.

(** C8 as it is stated fails: on a machine where the object of [a.py] cannot
    be read, the content of the path at the first commit, where the path is,
    is the absent result, as it is at the third commit of the scenario, where
    the path is not. *)
Lemma unreadable_blob_counterexample :
  unreadable_blob (hexsha commit1) (str "a.py") = UnexpectedFailure
  /\ get_file_content_at_commit unreadable_blob ascii_codec replace_invalid
       (hexsha commit1) (str "a.py") = None
  /\ scenario_blob (hexsha commit3) (str "a.py") = LookupFailed
  /\ get_file_content_at_commit scenario_blob ascii_codec replace_invalid
       (hexsha commit3) (str "a.py") = None
  /\ get_file_content_at_commit scenario_blob ascii_codec replace_invalid
       (hexsha commit1) (str "a.py") = Some (str foo_v1).
Proof. repeat split; vm_compute; reflexivity. Qed.

End HistoryProofs.

(* ===================================================================== *)
(** * Properties of the git service *)
(* ===================================================================== *)

Module GitProofs.
Import Py Git GitSpec.

Section Service.

Variable World : Type.
Variable subprocess_run : invocation -> World -> process * World.
Variable repo_exists : pystr -> World -> bool.
Variable get_repo_path : pystr -> pystr.

Local Abbreviation state := (Git.state World).
Local Abbreviation run := (Git.run World subprocess_run).
Local Abbreviation validate_exists := (Git.validate_exists World repo_exists).
Local Abbreviation pull_repository :=
  (Git.pull_repository World subprocess_run repo_exists get_repo_path).
Local Abbreviation diff_files :=
  (Git.diff_files World subprocess_run repo_exists get_repo_path).
Local Abbreviation checkout_main := (GitSpec.checkout_main get_repo_path).
Local Abbreviation pull := (GitSpec.pull get_repo_path).
Local Abbreviation fetch := (GitSpec.fetch get_repo_path).
Local Abbreviation diff_names := (GitSpec.diff_names get_repo_path).

(** What [run] does, by the way the process ends. *)
Lemma run_log (cmd : list pystr) (dir : pystr) (timeout : nat) (s : state) :
  log (snd (run cmd dir timeout s)) = log s ++ [mkInvocation dir cmd].
Proof.
  unfold Git.run.
  destruct (subprocess_run _ (world s)) as [[rc out err| |msg] w]; simpl;
    try reflexivity.
  now destruct (rc =? 0)%Z.
Qed.

Lemma run_failed (cmd : list pystr) (dir : pystr) (timeout : nat) (s : state)
    (rc : Z) (out err : pystr) (w : World) :
  subprocess_run (mkInvocation dir cmd) (world s) = (Completed rc out err, w) ->
  rc <> 0%Z ->
  run cmd dir timeout s
  = (inr (GitCommandError err),
     {| world := w; log := log s ++ [mkInvocation dir cmd] |}).
Proof.
  intros E Hrc. unfold Git.run. rewrite E.
  destruct (Z.eqb_spec rc 0); [contradiction | reflexivity].
Qed.

Lemma validate_exists_state (repo_name : pystr) (s : state) :
  snd (validate_exists repo_name s) = s.
Proof. unfold Git.validate_exists. now destruct (repo_exists _ _). Qed.

Lemma run_ends (cmd : list pystr) (dir : pystr) (s : state) (p : process)
    (w : World) :
  subprocess_run (mkInvocation dir cmd) (world s) = (p, w) ->
  run cmd dir 300 s
  = (match failure_text p with
     | None => inl {| run_stdout := stdout_of p;
                      run_stderr := match p with
                                    | Completed _ _ err => err
                                    | _ => []
                                    end |}
     | Some e => inr (match p with
                      | TimeoutExpired => GitTimeoutError e
                      | _ => GitCommandError e
                      end)
     end,
     {| world := w; log := log s ++ [mkInvocation dir cmd] |}).
Proof.
  intros E. unfold Git.run. rewrite E.
  destruct p as [rc out err| |msg]; cbn [failure_text stdout_of];
    try reflexivity.
  now destruct (rc =? 0)%Z.
Qed.

(** C10, as the code has it: when the directory of the repository is there,
    [pull_repository] runs [git checkout main] first, whatever branch is
    checked out.  When that command completes with status 0, it runs
    [git pull] next and nothing else, and its result is the one of the pull:
    a success with the output of git, or a failure with the text of the
    error.  When [git checkout main] ends in any other way, the result is a
    failure with the text of the error and [git pull] is not run.  Without
    the directory, no command is run. *)
Theorem pull_checks_out_main (repo_name : pystr) (s : state) :
  (forall p1 w1 p2 w2,
      repo_exists repo_name (world s) = true ->
      subprocess_run (checkout_main repo_name) (world s) = (p1, w1) ->
      failure_text p1 = None ->
      subprocess_run (pull repo_name) w1 = (p2, w2) ->
      pull_repository repo_name s
      = (match failure_text p2 with
         | None => pull_succeeded repo_name (get_repo_path repo_name) (stdout_of p2)
         | Some e => pull_failed repo_name e
         end,
         {| world := w2;
            log := log s ++ [checkout_main repo_name; pull repo_name] |}))
  /\ (forall p1 w1 e,
        repo_exists repo_name (world s) = true ->
        subprocess_run (checkout_main repo_name) (world s) = (p1, w1) ->
        failure_text p1 = Some e ->
        pull_repository repo_name s
        = (pull_failed repo_name e,
           {| world := w1; log := log s ++ [checkout_main repo_name] |}))
  /\ (repo_exists repo_name (world s) = false ->
      pull_repository repo_name s
      = (pull_failed repo_name
           (str "Repository " ++ repo_name ++ str " not found"), s)).
Proof.
  split; [|split].
  - intros p1 w1 p2 w2 He H1 Hf1 H2.
    unfold Git.pull_repository, pull_body, Git.bind, Git.validate_exists.
    rewrite He. unfold checkout_main in H1.
    rewrite (run_ends _ _ s p1 w1 H1), Hf1.
    unfold pull in H2.
    rewrite (run_ends _ _ {| world := w1; log := _ |} p2 w2 H2).
    cbn [log]. rewrite <- app_assoc. cbn [app].
    destruct (failure_text p2) as [e|]; [|reflexivity].
    now destruct p2.
  - intros p1 w1 e He H1 Hf1.
    unfold Git.pull_repository, pull_body, Git.bind, Git.validate_exists.
    rewrite He. unfold checkout_main in H1.
    rewrite (run_ends _ _ s p1 w1 H1), Hf1.
    now destruct p1.
  - intros He.
    unfold Git.pull_repository, pull_body, Git.bind, Git.validate_exists.
    now rewrite He.
Qed.

Lemma format_source_file_names (file_paths : list pystr) :
  Forall (fun p => json_name p <> None) file_paths ->
  exists files,
    _format_source_file file_paths = Returned files
    /\ map Some files = map json_name file_paths.
Proof.
  induction 1 as [|p l Hp _ (files & IH & Hm)]; simpl.
  - now exists [].
  - unfold json_name in *.
    destruct (with_suffix (parse_path p) (str ".json")) as [q|];
      [|now elim Hp].
    rewrite IH. exists (path_str q :: files). simpl. now rewrite Hm.
Qed.

Lemma diff_files_log (repo_name : pystr) (s : state) :
  exists l,
    log (snd (diff_files repo_name s)) = log s ++ l
    /\ (l = [] \/ l = [fetch repo_name]
        \/ l = [fetch repo_name; diff_names repo_name]).
Proof.
  unfold Git.diff_files, diff_body, Git.bind.
  pose proof (validate_exists_state repo_name s) as Hv.
  destruct (validate_exists repo_name s) as [[[]|e] s0];
    simpl in Hv; subst s0.
  - pose proof (run_log (git ["fetch"]%string)
                  (get_repo_path repo_name) 300 s) as H1.
    destruct (run _ _ 300 s) as [[r1|e1] s1]; simpl in H1.
    + pose proof (run_log
                    (git ["diff"; "--name-only"; "HEAD"; "origin/main"]%string)
                    (get_repo_path repo_name) 300 s1) as H2.
      destruct (run _ _ 300 s1) as [[r2|e2] s2]; simpl in *.
      * exists [fetch repo_name; diff_names repo_name].
        destruct (_format_source_file _); simpl;
          rewrite H2, H1, <- app_assoc; auto.
      * exists [fetch repo_name; diff_names repo_name].
        rewrite H2, H1, <- app_assoc; auto.
    + simpl. exists [fetch repo_name]. auto.
  - simpl. exists []. rewrite app_nil_r. auto.
Qed.


End Service.

(** ** Runs of the service *)

Example format_source_file_names_kept :
  _format_source_file
    [str "archive.tar.gz"; str ".gitignore"; str "Makefile";
     str "pkg//mod/./x.py"]
  = Returned [str "archive.tar.json"; str ".gitignore.json";
              str "Makefile.json"; str "pkg/mod/x.json"].
Proof. vm_compute. reflexivity. Qed.

(** The example of the docstring of [_format_source_file]. *)
Lemma format_source_file_docstring :
  _format_source_file [str "src/api/utils.py"]
  = Returned [str "src/api/utils.json"].
Proof. vm_compute. reflexivity. Qed.



(** Without a branch or a path [main], the pull fails with the text of git
    and [git pull] does not run. *)
Lemma pull_without_main :
  pull_repository unit no_main_branch (fun _ _ => true) repository_dir
    (str "RAGIT") here
  = (pull_failed (str "RAGIT")
       (str "error: pathspec 'main' did not match any file(s) known to git"
        ++ nl),
     {| world := tt; log := [checkout_main repository_dir (str "RAGIT")] |}).
Proof. vm_compute. reflexivity. Qed.

(** C10 as it is stated fails: in a repository that has no branch [main]
    and tracks a file of that name, [git checkout main] ends with status 0
    and changes no branch; [git pull] runs on the branch that is checked
    out, and the pull is reported as a success. *)
Lemma pull_on_other_branch_counterexample :
  pull_repository unit main_is_a_path (fun _ _ => true) repository_dir
    (str "RAGIT") here
  = (pull_succeeded (str "RAGIT") (repository_dir (str "RAGIT"))
       (str "Already up to date." ++ nl),
     {| world := tt;
        log := [checkout_main repository_dir (str "RAGIT");
                pull repository_dir (str "RAGIT")] |})
  /\ main_is_a_path (checkout_main repository_dir (str "RAGIT")) tt
     = (Completed 0 [] (str "Updated 0 paths from the index" ++ nl), tt).
Proof. split; vm_compute; reflexivity. Qed.

End GitProofs.

(* ===================================================================== *)
(** * Properties of the update pipeline *)
(* ===================================================================== *)

Module PipelineProofs.
Import Py Git Pipeline PipelineSpec.

Lemma loud_unique (l1 l2 pre post : list event) (x y : event) :
  Forall quiet l1 -> Forall quiet l2 -> ~ quiet y ->
  l1 ++ x :: l2 = pre ++ y :: post ->
  pre = l1 /\ y = x /\ post = l2.
Proof.
  intros H1 H2 Hy. revert pre.
  induction H1 as [|a l1 Ha _ IH]; intros pre E.
  - destruct pre as [|b pre]; simpl in E.
    + inversion E; auto.
    + exfalso. inversion E; subst.
      apply Forall_app in H2. destruct H2 as [_ H2].
      inversion H2; auto.
  - destruct pre as [|b pre]; simpl in E; inversion E; subst.
    + contradiction.
    + destruct (IH pre H1) as (-> & -> & ->); auto.
Qed.

Section Task.

Variable World : Type.
Variable diff_files : pystr -> World -> outcome DiffResult * World.
Variable pull_repository : pystr -> World -> outcome PullResult * World.
Variable delete_entities :
  pystr -> list pystr -> World -> outcome DeleteResult * World.
Variable parse_repository :
  pystr -> bool -> World -> outcome ParseResult * World.
Variable embed_documents :
  pystr -> pystr -> pystr -> World -> outcome EmbedResult * World.
Variable path_exists : pystr -> World -> bool.

Local Abbreviation pstate := (Pipeline.pstate World).
Local Abbreviation P := (Pipeline.P World).
Local Abbreviation bind := (@Pipeline.bind World _ _).
Local Abbreviation call := (@Pipeline.call World _).
Local Abbreviation update_repository_status :=
  (Pipeline.update_repository_status World).
Local Abbreviation halts_well := (@PipelineSpec.halts_well World _).

(** The event of a call tells how the service ended. *)
Lemma call_records_ending {R} (st : stage) (args : list pystr)
    (ok : R -> bool) (f : World -> outcome R * World) (s : pstate) :
  events (snd (call st args ok f s))
  = events s
    ++ [Called st args
          match fst (f (machine s)) with
          | Returned r => if ok r then ReportedSuccess else ReportedFailure
          | Raised _ => RaisedException
          end].
Proof.
  unfold Pipeline.call. now destruct (f (machine s)) as [[r|e] w].
Qed.

Lemma halts_ret {A} (a : A) : halts_well (Pipeline.ret World a).
Proof. intros s. exists []. simpl. now rewrite app_nil_r. Qed.

Lemma halts_bind {A B} (m : P A) (k : A -> P B) :
  halts_well m -> (forall a, halts_well (k a)) -> halts_well (bind m k).
Proof.
  intros Hm Hk s. unfold Pipeline.bind.
  destruct (Hm s) as (tr1 & E1 & H1).
  destruct (m s) as [[a|r|e] s1]; simpl in *.
  - destruct (Hk a s1) as (tr2 & E2 & H2).
    exists (tr1 ++ tr2). rewrite E2, E1, <- app_assoc. split; [reflexivity|].
    destruct (k a s1) as [[b|r|e] s2]; simpl in *.
    + apply Forall_app; auto.
    + destruct H2 as (pre & st & args & -> & Hq & Hr).
      exists (tr1 ++ pre), st, args. rewrite <- app_assoc.
      split; [reflexivity|]. split; [apply Forall_app; auto | exact Hr].
    + destruct H2 as (pre & st & args & -> & Hq).
      exists (tr1 ++ pre), st, args. rewrite <- app_assoc.
      split; [reflexivity | apply Forall_app; auto].
  - exists tr1. auto.
  - exists tr1. auto.
Qed.

Lemma halts_update_status (st vst : string) :
  halts_well (update_repository_status st vst).
Proof.
  intros s. exists [StatusWritten (str st) (str vst)]. simpl.
  split; [reflexivity|]. repeat constructor.
Qed.

Lemma halts_update_file_count (n : Z) :
  halts_well (Pipeline.update_file_count World n).
Proof.
  intros s. exists [FileCountWritten n]. simpl.
  split; [reflexivity|]. repeat constructor.
Qed.

(** A call whose result is checked as the pipeline checks it. *)
Lemma halts_checked {R B} (st : stage) (args : list pystr) (ok : R -> bool)
    (f : World -> outcome R * World) (msg : R -> pystr) (sa : string)
    (k : R -> P B) :
  str sa = status_after st ->
  (forall r, halts_well (k r)) ->
  halts_well
    (bind (call st args ok f)
       (fun r =>
          if negb (ok r) then
            bind (update_repository_status sa "error")
              (fun _ => Pipeline.return_ World
                          (Failed (msg r) (step_name st)))
          else k r)).
Proof.
  intros Hsa Hk s. unfold Pipeline.bind, Pipeline.call.
  destruct (f (machine s)) as [[r|e] w]; simpl.
  - destruct (ok r) eqn:Hok; simpl.
    + match goal with |- context [k r ?x] => set (s1 := x) end.
      destruct (Hk r s1) as (tr & E & H).
      exists (Called st args ReportedSuccess :: tr).
      rewrite E. change (events s1) with (events s ++ [Called st args ReportedSuccess]).
      rewrite <- app_assoc. simpl app.
      split; [reflexivity|].
      destruct (k r s1) as [[b|r'|e] s2]; simpl in *.
      * constructor; simpl; auto.
      * destruct H as (pre & st' & args' & -> & Hq & Hr).
        exists (Called st args ReportedSuccess :: pre), st', args'.
        split; [reflexivity|]. split; [constructor; simpl; auto | exact Hr].
      * destruct H as (pre & st' & args' & -> & Hq).
        exists (Called st args ReportedSuccess :: pre), st', args'.
        split; [reflexivity|]. constructor; simpl; auto.
    + exists [Called st args ReportedFailure;
              StatusWritten (str sa) (str "error")].
      rewrite <- app_assoc. split; [reflexivity|].
      exists [], st, args. rewrite Hsa. simpl.
      repeat split; eauto.
  - exists [Called st args RaisedException]. split; [reflexivity|].
    exists [], st, args. auto.
Qed.

Section Run.

Variables repo_id repo_name collection_name : pystr.
Variable save_json : bool.
Variable model_key : pystr.

Local Abbreviation embed_loop :=
  (Pipeline.embed_loop World embed_documents path_exists repo_name
     collection_name model_key).
Local Abbreviation pipeline_body :=
  (Pipeline.pipeline_body World diff_files pull_repository delete_entities
     parse_repository embed_documents path_exists repo_id repo_name
     collection_name save_json model_key).
Local Abbreviation update_repository_pipeline :=
  (Pipeline.update_repository_pipeline World diff_files pull_repository
     delete_entities parse_repository embed_documents path_exists repo_id
     repo_name collection_name save_json model_key).

Lemma halts_embed_loop (files : list pystr) (total : Z) :
  halts_well (embed_loop files total).
Proof.
  revert total. induction files as [|f files IH]; intros total.
  - apply halts_ret.
  - intros s. cbn [Pipeline.embed_loop].
    destruct (negb (path_exists (json_file_path repo_name f) (machine s))).
    + apply IH.
    + revert s. eapply halts_checked; [reflexivity|]. intros r. apply IH.
Qed.

Lemma halts_pipeline_body : halts_well pipeline_body.
Proof.
  unfold Pipeline.pipeline_body.
  apply halts_bind; [apply halts_update_status|]. intros _.
  eapply halts_checked; [reflexivity|]. intros diff_result.
  eapply halts_checked; [reflexivity|]. intros pull_result.
  apply halts_bind; [apply halts_update_status|]. intros _.
  apply halts_bind.
  { destruct (diff_files_list diff_result); [apply halts_ret|].
    eapply halts_checked; [reflexivity|]. intros r. apply halts_ret. }
  intros deleted_count.
  eapply halts_checked; [reflexivity|]. intros parse_result.
  apply halts_bind; [apply halts_update_file_count|]. intros _.
  apply halts_bind.
  { destruct (diff_files_list diff_result);
      [apply halts_ret | apply halts_embed_loop]. }
  intros total. apply halts_bind; [apply halts_update_status|]. intros _.
  apply halts_ret.
Qed.

(** C4, as the code has it: when a call of one of the five services does
    not succeed, nothing had failed before it, the pipeline writes a state of
    error for the repository, closes its session and does nothing else (no
    later step runs and the step is not tried again), and the result it
    returns has [success = False]; its step is the name of the step of that
    service when the service reported the failure in its result, and
    ["unknown"] when the service raised.  The state written has
    [vectordb_status = "error"] in every case, and [status = "error"] for
    the pull, for the reparse and for a service that raised. *)
Theorem failing_stage_halts (s : pstate) (pre post : list event)
    (st : stage) (args : list pystr) (e : ending) :
  e <> ReportedSuccess ->
  events (snd (update_repository_pipeline s))
    = events s ++ pre ++ Called st args e :: post ->
  (exists msg,
      fst (update_repository_pipeline s) = Failed msg (reported_step st e))
  /\ success (fst (update_repository_pipeline s)) = false
  /\ post = [StatusWritten (status_written st e) (str "error"); DbClosed]
  /\ Forall quiet pre
  /\ status (row (snd (update_repository_pipeline s))) = status_written st e
  /\ vectordb_status (row (snd (update_repository_pipeline s))) = str "error"
  /\ error_state (row (snd (update_repository_pipeline s))).
Proof.
  intros He.
  assert (Hloud : ~ quiet (Called st args e)) by (destruct e; simpl; tauto).
  unfold Pipeline.update_repository_pipeline.
  destruct (halts_pipeline_body s) as (tr & E & H).
  destruct (pipeline_body s) as [[r|r|exc] s1]; simpl in *; rewrite E;
    rewrite <- !app_assoc; intros Heq; apply app_inv_head in Heq.
  - exfalso.
    assert (Hq : Forall quiet (tr ++ [DbClosed])).
    { apply Forall_app. split; [auto | repeat constructor]. }
    rewrite Heq in Hq. apply Forall_app in Hq. destruct Hq as [_ Hq].
    inversion Hq; auto.
  - destruct H as (pre' & st' & args' & -> & Hq & (msg & ->) & Hs & Hv).
    rewrite <- app_assoc in Heq. simpl in Heq.
    destruct (loud_unique pre'
                [StatusWritten (status_after st') (str "error"); DbClosed]
                pre post (Called st' args' ReportedFailure)
                (Called st args e)) as (-> & Hy & ->); auto.
    { repeat constructor. }
    inversion Hy; subst. unfold error_state. simpl. repeat split; eauto.
  - destruct H as (pre' & st' & args' & -> & Hq).
    rewrite <- !app_assoc in Heq. simpl in Heq.
    destruct (loud_unique pre'
                [StatusWritten (str "error") (str "error"); DbClosed]
                pre post (Called st' args' RaisedException)
                (Called st args e)) as (-> & Hy & ->); auto.
    { repeat constructor. }
    inversion Hy; subst. unfold error_state. simpl. repeat split; eauto.
Qed.

(** C3, as the code has it: when the change set that was detected is empty,
    the pipeline calls neither the deletion nor the embedding, whatever the
    other steps do; and when the pull and the reparse of the whole
    repository then both succeed, it has called the reparse, it ends with
    both columns of the state at ["active"] and it returns a success with
    [deleted_count = 0] and [embedded_count = 0]. *)
Theorem empty_changeset_sync (s : pstate) (d : DiffResult) (w1 : World) :
  diff_files repo_name (machine s) = (Returned d, w1) ->
  diff_success d = true ->
  diff_files_list d = [] ->
  (exists tr,
      events (snd (update_repository_pipeline s)) = events s ++ tr
      /\ Forall no_index_write tr)
  /\ (forall p w2 pr w3,
        pull_repository repo_name w1 = (Returned p, w2) ->
        pull_success p = true ->
        parse_repository repo_name save_json w2 = (Returned pr, w3) ->
        parse_success pr = true ->
        update_repository_pipeline s
        = (Succeeded repo_id repo_name (get_or (parse_total_files pr) 0%Z)
             0 0 (str "Repository updated successfully"),
           {| machine := w3;
              row := {| status := str "active";
                        vectordb_status := str "active";
                        file_count := get_or (parse_total_files pr) 0%Z |};
              events :=
                events s
                ++ [StatusWritten (str "updating") (str "pending");
                    Called StageDiff [repo_name] ReportedSuccess;
                    Called StagePull [repo_name] ReportedSuccess;
                    StatusWritten (str "updating") (str "updating");
                    Called StageParse [repo_name] ReportedSuccess;
                    FileCountWritten (get_or (parse_total_files pr) 0%Z);
                    StatusWritten (str "active") (str "active");
                    DbClosed] |})).
Proof.
  intros Hd Hok Hfiles. split.
  - unfold Pipeline.update_repository_pipeline, Pipeline.pipeline_body,
      Pipeline.bind, Pipeline.call, Pipeline.update_repository_status,
      Pipeline.update_file_count, Pipeline.ret, Pipeline.return_.
    simpl. rewrite Hd, Hok, Hfiles. simpl.
    destruct (pull_repository repo_name w1) as [[p|e] w2]; simpl;
      [destruct (pull_success p); simpl;
       [destruct (parse_repository repo_name save_json w2) as [[pr|e] w3];
        simpl; [destruct (parse_success pr); simpl|]|]|];
      rewrite <- ?app_assoc; simpl; eexists; (split; [reflexivity|]);
      repeat constructor.
  - intros p w2 pr w3 Hp Hpok Hpr Hprok.
    unfold Pipeline.update_repository_pipeline, Pipeline.pipeline_body,
      Pipeline.bind, Pipeline.call, Pipeline.update_repository_status,
      Pipeline.update_file_count, Pipeline.ret, Pipeline.return_.
    simpl. rewrite Hd, Hok, Hfiles. simpl. rewrite Hp, Hpok. simpl.
    rewrite Hpr, Hprok. simpl. unfold record_event, write_status. simpl.
    now rewrite <- !app_assoc.
Qed.

End Run.

End Task.

(** ** Runs of the pipeline *)

Lemma empty_changeset_sync_witness :
  sync_with (found []) pull_ok
  = (Succeeded (str "f47ac10b-58cc-4372-a567-0e02b2c3d479") (str "RAGIT")
       3 0 0 (str "Repository updated successfully"),
     {| machine := tt;
        row := {| status := str "active"; vectordb_status := str "active";
                  file_count := 3 |};
        events :=
          [StatusWritten (str "updating") (str "pending");
           Called StageDiff [str "RAGIT"] ReportedSuccess;
           Called StagePull [str "RAGIT"] ReportedSuccess;
           StatusWritten (str "updating") (str "updating");
           Called StageParse [str "RAGIT"] ReportedSuccess;
           FileCountWritten 3;
           StatusWritten (str "active") (str "active");
           DbClosed] |}).
Proof.
  exact (proj2 (empty_changeset_sync unit (found []) pull_ok delete_ok
                  parse_ok embed_but_b (fun _ _ => true)
                  (str "f47ac10b-58cc-4372-a567-0e02b2c3d479") (str "RAGIT")
                  (str "repo_f47ac10b_58cc_4372_a567_0e02b2c3d479") true
                  (str "text-embedding-3-small") idle _ tt
                  eq_refl eq_refl eq_refl)
           _ tt _ tt eq_refl eq_refl eq_refl eq_refl).
Defined.

(** C3 as it is stated fails: the change set is empty and the pull times
    out; the pipeline does not reparse the repository, it leaves both
    columns of the state at ["error"] and it returns a failure. *)
Lemma empty_changeset_counterexample :
  sync_with (found []) pull_timed_out
  = (Failed (str "Git pull failed: Command timed out after 300 seconds")
       (str "pull"),
     {| machine := tt;
        row := {| status := str "error"; vectordb_status := str "error";
                  file_count := 3 |};
        events :=
          [StatusWritten (str "updating") (str "pending");
           Called StageDiff [str "RAGIT"] ReportedSuccess;
           Called StagePull [str "RAGIT"] ReportedFailure;
           StatusWritten (str "error") (str "error");
           DbClosed] |}).
Proof. vm_compute. reflexivity. Qed.

(** A run in which the embedding of the second of two changed files
    fails. *)
Lemma embed_failure_run :
  sync_with (found [str "a.json"; str "b.json"]) pull_ok
  = (Failed (str "Embedding failed for b.json") (str "embed"),
     {| machine := tt;
        row := {| status := str "active"; vectordb_status := str "error";
                  file_count := 3 |};
        events :=
          [StatusWritten (str "updating") (str "pending");
           Called StageDiff [str "RAGIT"] ReportedSuccess;
           Called StagePull [str "RAGIT"] ReportedSuccess;
           StatusWritten (str "updating") (str "updating");
           Called StageDelete [str "a.json"; str "b.json"] ReportedSuccess;
           Called StageParse [str "RAGIT"] ReportedSuccess;
           FileCountWritten 3;
           Called StageEmbed [str "parsed_repository/RAGIT/a.json"]
             ReportedSuccess;
           Called StageEmbed [str "parsed_repository/RAGIT/b.json"]
             ReportedFailure;
           StatusWritten (str "active") (str "error");
           DbClosed] |}).
Proof. vm_compute. reflexivity. Qed.

Lemma failing_stage_halts_witness :
  events (snd (sync_with (found [str "a.json"; str "b.json"]) pull_ok))
  = events idle
    ++ [StatusWritten (str "updating") (str "pending");
        Called StageDiff [str "RAGIT"] ReportedSuccess;
        Called StagePull [str "RAGIT"] ReportedSuccess;
        StatusWritten (str "updating") (str "updating");
        Called StageDelete [str "a.json"; str "b.json"] ReportedSuccess;
        Called StageParse [str "RAGIT"] ReportedSuccess;
        FileCountWritten 3;
        Called StageEmbed [str "parsed_repository/RAGIT/a.json"]
          ReportedSuccess]
    ++ Called StageEmbed [str "parsed_repository/RAGIT/b.json"]
         ReportedFailure
       :: [StatusWritten (str "active") (str "error"); DbClosed]
  /\ (exists msg,
        fst (sync_with (found [str "a.json"; str "b.json"]) pull_ok)
        = Failed msg (str "embed"))
  /\ success (fst (sync_with (found [str "a.json"; str "b.json"]) pull_ok))
     = false
  /\ error_state
       (row (snd (sync_with (found [str "a.json"; str "b.json"]) pull_ok))).
Proof.
  assert (E : events (snd (sync_with (found [str "a.json"; str "b.json"])
                             pull_ok))
              = events idle
                ++ [StatusWritten (str "updating") (str "pending");
                    Called StageDiff [str "RAGIT"] ReportedSuccess;
                    Called StagePull [str "RAGIT"] ReportedSuccess;
                    StatusWritten (str "updating") (str "updating");
                    Called StageDelete [str "a.json"; str "b.json"]
                      ReportedSuccess;
                    Called StageParse [str "RAGIT"] ReportedSuccess;
                    FileCountWritten 3;
                    Called StageEmbed [str "parsed_repository/RAGIT/a.json"]
                      ReportedSuccess]
                ++ Called StageEmbed [str "parsed_repository/RAGIT/b.json"]
                     ReportedFailure
                   :: [StatusWritten (str "active") (str "error"); DbClosed])
    by (vm_compute; reflexivity).
  split; [exact E|].
  destruct (failing_stage_halts unit (found [str "a.json"; str "b.json"])
              pull_ok delete_ok parse_ok embed_but_b (fun _ _ => true)
              (str "f47ac10b-58cc-4372-a567-0e02b2c3d479") (str "RAGIT")
              (str "repo_f47ac10b_58cc_4372_a567_0e02b2c3d479") true
              (str "text-embedding-3-small") idle _ _ StageEmbed _
              ReportedFailure ltac:(discriminate) E)
    as (Hm & Hs & _ & _ & _ & _ & He).
  auto.
Defined.

(** C4 as it is stated fails: the invalidation of the index fails by
    raising; the pipeline halts and writes the state of error, and the step
    of the result is ["unknown"], not the name of the step that failed. *)
Lemma failing_stage_counterexample :
  update_repository_pipeline unit (found [str "a.json"]) pull_ok
    delete_raises parse_ok embed_but_b (fun _ _ => true)
    (str "f47ac10b-58cc-4372-a567-0e02b2c3d479") (str "RAGIT")
    (str "repo_f47ac10b_58cc_4372_a567_0e02b2c3d479") true
    (str "text-embedding-3-small") idle
  = (Failed (str "MilvusException: server unavailable") (str "unknown"),
     {| machine := tt;
        row := {| status := str "error"; vectordb_status := str "error";
                  file_count := 3 |};
        events :=
          [StatusWritten (str "updating") (str "pending");
           Called StageDiff [str "RAGIT"] ReportedSuccess;
           Called StagePull [str "RAGIT"] ReportedSuccess;
           StatusWritten (str "updating") (str "updating");
           Called StageDelete [str "a.json"] RaisedException;
           StatusWritten (str "error") (str "error");
           DbClosed] |}).
Proof. vm_compute. reflexivity. Qed.

End PipelineProofs.

(* ===================================================================== *)
(** * Properties of the sync endpoint *)
(* ===================================================================== *)

Module ApiProofs.
Import Py Git Api ApiSpec.

Section Endpoint.

Variable check_user_permission : Database -> pystr -> pystr -> pystr -> bool.
Variable new_task_id : Broker -> pystr.

Local Abbreviation sync_repository :=
  (Api.sync_repository check_user_permission new_task_id).

(** The guard of the endpoint: for an administrator of a repository whose
    status is one of syncing, updating and pending, the request is answered
    with the error 400, nothing is sent to the broker and no row changes. *)
Lemma sync_rejected_while_in_progress (repo_id user : pystr) (db : Database)
    (b : Broker) (repository : Repository) :
  check_user_permission db repo_id user (str "admin") = true ->
  get_repository db repo_id = Some repository ->
  In (status repository) in_progress_statuses ->
  sync_repository repo_id user db b
  = (HTTPException 400
       (str "Repository is already being processed (status: "
        ++ status repository ++ str ")"), db, b).
Proof.
  intros Hp Hr Hin. unfold Api.sync_repository. rewrite Hp, Hr. simpl negb.
  cbv iota.
  replace (existsb (pystr_eqb (status repository)) in_progress_statuses)
    with true; [reflexivity|].
  symmetry. apply existsb_exists. exists (status repository).
  split; [exact Hin|]. unfold pystr_eqb.
  now destruct (pystr_eq_dec (status repository) (status repository)).
Qed.

(** A request that is accepted writes nothing to the database, so the same
    request sent again, before a worker has taken up the first task, is
    accepted again: the repository then has two syncs waiting. *)
Lemma sync_accepted_again (repo_id user : pystr) (db db' : Database)
    (b b' : Broker) (message task_id rid : pystr) :
  sync_repository repo_id user db b
    = (SyncStarted message task_id rid, db', b') ->
  db' = db
  /\ exists task task_id' b'',
       sync_repository repo_id user db' b'
         = (SyncStarted message task_id' rid, db', b'')
       /\ task_repo_id task = rid
       /\ queue b' = queue b ++ [(task_id, task)]
       /\ queue b'' = queue b' ++ [(task_id', task)].
Proof.
  unfold Api.sync_repository.
  destruct (check_user_permission db repo_id user (str "admin")) eqn:Hp;
    [|discriminate].
  simpl negb. cbv iota.
  destruct (get_repository db repo_id) as [r|] eqn:Hr; [|discriminate].
  destruct (existsb _ in_progress_statuses) eqn:Hs; [discriminate|].
  unfold send_task. destruct (reachable b) eqn:Hb; [|discriminate].
  intros H. inversion H; subst. split; [reflexivity|].
  rewrite Hp, Hr, Hs. simpl. eexists _, _, _.
  split; [reflexivity|]. split; [|split].
  2, 3: reflexivity. reflexivity.
Qed.

End Endpoint.

(** ** The endpoint on two requests in a row *)

(** C9 on the code: the repository is active and no sync is under way; two
    requests arrive one after the other, before a worker has started the
    first task.  The first is accepted and leaves the status as it was, so
    the second is accepted too: two update tasks for the repository are in
    the queue. *)
Theorem sync_twice_both_accepted :
  then_sync (id ragit) (str "admin-1")
    (sync_repository everyone_admin numbered (id ragit) (str "admin-1")
       [ragit] empty_broker)
  = (SyncStarted (str "Repository sync started for 'RAGIT'") (str "task-1")
       (id ragit),
     [ragit],
     {| reachable := true;
        queue := [(str "task-0", update_task); (str "task-1", update_task)] |})
  /\ pending_syncs (id ragit)
       (snd (then_sync (id ragit) (str "admin-1")
               (sync_repository everyone_admin numbered (id ragit)
                  (str "admin-1") [ragit] empty_broker))) = 2.
Proof. split; vm_compute; reflexivity. Qed.

Lemma sync_rejected_while_in_progress_witness :
  sync_repository everyone_admin numbered (id ragit) (str "admin-1")
    [{| id := id ragit; name := str "RAGIT"; status := str "updating";
        vectordb_status := str "pending" |}] empty_broker
  = (HTTPException 400
       (str "Repository is already being processed (status: updating)"),
     [{| id := id ragit; name := str "RAGIT"; status := str "updating";
         vectordb_status := str "pending" |}], empty_broker).
Proof.
  apply (sync_rejected_while_in_progress everyone_admin numbered
           (id ragit) (str "admin-1") _ empty_broker
           {| id := id ragit; name := str "RAGIT"; status := str "updating";
              vectordb_status := str "pending" |}).
  - reflexivity.
  - reflexivity.
  - right. left. reflexivity.
Defined.

End ApiProofs.

(* ===================================================================== *)
(** * Further properties of the history tracker *)
(* ===================================================================== *)

Module TraceProofs.
Import Py Dmp History RenderSpec HistorySpec TraceSpec.

#[local] Hint Constructors subsequence : core.

Lemma subsequence_refl {A} (l : list A) : subsequence l l.
Proof. induction l; auto. Qed.

Lemma subsequence_app_tail {A} (a b c : list A) :
  subsequence a b -> subsequence (a ++ c) (b ++ c).
Proof. induction 1; simpl; auto using subsequence_refl. Qed.

Lemma subsequence_weaken {A} (a b c : list A) :
  subsequence a b -> subsequence a (b ++ c).
Proof.
  induction 1; simpl; auto.
  induction c; auto.
Qed.

Lemma subsequence_length {A} (a b : list A) :
  subsequence a b -> length a <= length b.
Proof. induction 1; simpl; lia. Qed.

Lemma subsequence_filter_fst {A B} (p : A * B -> bool) (l : list (A * B)) :
  subsequence (map fst (filter p l)) (map fst l).
Proof.
  induction l as [|x l IH]; simpl; auto.
  destruct (p x); simpl; auto.
Qed.

Lemma adjacent_cons {A} (c x : A) (l : list A) :
  adjacent (c :: x :: l) = (c, x) :: adjacent (x :: l).
Proof. reflexivity. Qed.

Lemma adjacent_fst {A} (init : list A) (oldest : A) :
  map fst (adjacent (init ++ [oldest])) = init.
Proof.
  induction init as [|c init IH]; [reflexivity|].
  change ((c :: init) ++ [oldest]) with (c :: (init ++ [oldest])).
  destruct (init ++ [oldest]) as [|x l] eqn:E.
  - destruct init; discriminate.
  - rewrite adjacent_cons. simpl. now rewrite IH.
Qed.

(** ** [str.rstrip] and [str.splitlines] *)

Lemma lstrip_repeat (p : char -> bool) (c : char) (k : nat) (s : pystr) :
  p c = true -> lstrip_by p (repeat c k ++ s) = lstrip_by p s.
Proof.
  intros H. induction k; cbn [repeat app lstrip_by]; [reflexivity|].
  now rewrite H.
Qed.

Lemma rev_repeat {A} (a : A) (k : nat) : rev (repeat a k) = repeat a k.
Proof.
  induction k; simpl; [reflexivity|].
  rewrite IHk. symmetry. apply repeat_cons.
Qed.

Lemma rstrip_nl_repeat (s : pystr) (k : nat) :
  rstrip_nl (s ++ repeat 10%N k) = rstrip_nl s.
Proof.
  unfold rstrip_nl, rstrip_by.
  now rewrite rev_app_distr, rev_repeat, lstrip_repeat.
Qed.

Lemma lstrip_split (s : pystr) :
  exists j, s = repeat 10%N j ++ lstrip_by (N.eqb 10) s.
Proof.
  induction s as [|c s [j IH]]; cbn [lstrip_by].
  - now exists 0.
  - destruct (N.eqb_spec 10 c).
    + subst. exists (S j). cbn [repeat app]. now rewrite <- IH.
    + now exists 0.
Qed.

Lemma rstrip_nl_split (s : pystr) :
  exists j, s = rstrip_nl s ++ repeat 10%N j.
Proof.
  unfold rstrip_nl, rstrip_by.
  destruct (lstrip_split (rev s)) as [j H]. exists j.
  rewrite <- (rev_involutive s) at 1. rewrite H at 1.
  now rewrite rev_app_distr, rev_repeat.
Qed.

Lemma lstrip_head (s : pystr) (t : pystr) :
  lstrip_by (N.eqb 10) s <> 10%N :: t.
Proof.
  induction s as [|c s IH]; cbn [lstrip_by]; [discriminate|].
  destruct (N.eqb_spec 10 c); [exact IH|]. congruence.
Qed.

Lemma rstrip_nl_end (s t : pystr) : rstrip_nl s <> t ++ [10%N].
Proof.
  unfold rstrip_nl, rstrip_by. intros H.
  apply (f_equal (@rev N)) in H.
  rewrite rev_involutive, rev_app_distr in H. simpl in H.
  exact (lstrip_head _ _ H).
Qed.

Lemma concat_splitlines (s : pystr) : concat (splitlines_keepends s) = s.
Proof.
  induction s as [s IH] using (induction_ltof1 _ (@length N)).
  unfold ltof in IH.
  destruct s as [|c s]; [reflexivity|].
  cbn [splitlines_keepends].
  destruct (c =? 13)%N.
  - destruct s as [|d s]; [reflexivity|].
    destruct (d =? 10)%N; cbn [concat app].
    + rewrite (IH s); [reflexivity | simpl; lia].
    + rewrite (IH (d :: s)); [reflexivity | simpl; lia].
  - destruct (is_linebreak c); cbn [concat app].
    + rewrite (IH s); [reflexivity | simpl; lia].
    + specialize (IH s ltac:(simpl; lia)).
      destruct (splitlines_keepends s) as [|l ls]; cbn [concat app] in *.
      * now rewrite <- IH.
      * now rewrite <- IH.
Qed.

Lemma in_line_kinds (t : pystr) :
  in_keys t line_kinds = true -> t = str "module" \/ t = str "script".
Proof.
  unfold in_keys, line_kinds. simpl. unfold pystr_eqb.
  destruct (pystr_eq_dec t (str "module")); [now left|].
  destruct (pystr_eq_dec t (str "script")); [now right|]. discriminate.
Qed.

Section Tracker.

Variable iter_commits : pystr -> list Commit.
Variable read_blob : pystr -> pystr -> blob_read.
Variable codec_decode : pystr -> bytes -> decode_result.
Variable decode_utf8_replace : bytes -> pystr.
Variable query_captures : pystr -> pystr -> outcome (list ts_node).
Variable diff_main : list pystr -> list pystr -> diffs.

Local Abbreviation content_at :=
  (get_file_content_at_commit read_blob codec_decode decode_utf8_replace).
Local Abbreviation render := (generate_highlighted_diff diff_main).
Local Abbreviation find_node_body := (History.find_node_body query_captures).

(** ** The spans of modules and scripts *)

Lemma find_line_kind (source_code node_name node_type : pystr)
    (start_line end_line : option Z) :
  in_keys node_type line_kinds = true ->
  find_node_body source_code node_name node_type start_line end_line
  = (Returned
       (Some
          match start_line, end_line with
          | Some a, Some b =>
              rstrip_nl
                (concat (slice (splitlines_keepends source_code) (a - 1) b))
          | _, _ => rstrip_nl source_code
          end), []).
Proof.
  intros H. unfold History.find_node_body.
  fold line_kinds. rewrite H.
  replace (in_keys node_type QUERIES_keys) with true.
  - simpl. destruct start_line, end_line; reflexivity.
  - destruct (in_line_kinds _ H) as [-> | ->]; reflexivity.
Qed.

(** X1: for the kinds [module] and [script] and no complete line range, the
    span is the source without the line feeds at its end, whatever the name
    asked for: it is never absent, it does not end with a line feed, the
    source is the span followed by line feeds only, and a source that
    differs by line feeds at its end has the same span. *)
Theorem module_span_whole (source_code node_name other_name node_type : pystr)
    (start_line end_line : option Z) (k : nat) :
  in_keys node_type line_kinds = true ->
  start_line = None \/ end_line = None ->
  find_node_body source_code node_name node_type start_line end_line
    = (Returned (Some (rstrip_nl source_code)), [])
  /\ find_node_body (source_code ++ repeat 10%N k) other_name node_type
       start_line end_line
     = (Returned (Some (rstrip_nl source_code)), [])
  /\ (exists j, source_code = rstrip_nl source_code ++ repeat 10%N j)
  /\ (forall t, rstrip_nl source_code <> t ++ [10%N]).
Proof.
  intros Hk Hr. rewrite !find_line_kind by exact Hk.
  rewrite rstrip_nl_repeat.
  repeat split.
  - destruct Hr as [-> | ->]; [reflexivity | now destruct start_line].
  - destruct Hr as [-> | ->]; [reflexivity | now destruct start_line].
  - apply rstrip_nl_split.
  - intros t. apply rstrip_nl_end.
Qed.

Lemma slice_lines {A} (lines : list A) (a b : Z) :
  (1 <= a)%Z -> (0 <= b)%Z ->
  slice lines (a - 1) b
  = firstn (Z.to_nat (b - a + 1)) (skipn (Z.to_nat (a - 1)) lines).
Proof.
  intros Ha Hb. unfold slice, clamp_index.
  destruct (Z.ltb_spec (a - 1) 0) as [?|_]; [lia|].
  destruct (Z.ltb_spec b 0) as [?|_]; [lia|].
  set (n := Z.of_nat (length lines)).
  destruct (Z.le_gt_cases n (a - 1)) as [Hn|Hn].
  - rewrite (Z.min_r (a - 1)) by exact Hn.
    rewrite !skipn_all2 by (unfold n in *; lia). now rewrite !firstn_nil.
  - rewrite (Z.min_l (a - 1)) by lia.
    destruct (Z.le_gt_cases n b) as [Hm|Hm].
    + rewrite (Z.min_r b) by exact Hm.
      rewrite !firstn_all2; [reflexivity| |];
        rewrite length_skipn; unfold n in *; lia.
    + rewrite (Z.min_l b) by lia. do 2 f_equal. lia.
Qed.

(** X2: for the kinds [module] and [script] with a line range [a..b],
    [a >= 1] and [b >= 0]: the span is never absent; it is the text of the
    lines [a] to [b] that the source has, without the line feeds at its end;
    so from line 1 to the last line or beyond it is the span of the whole
    file, and a range that starts after the last line, or ends before it
    starts, gives the empty text. *)
Theorem module_span_lines (source_code node_name node_type : pystr) (a b : Z) :
  in_keys node_type line_kinds = true ->
  (1 <= a)%Z ->
  (0 <= b)%Z ->
  find_node_body source_code node_name node_type (Some a) (Some b)
  = (Returned
       (Some (rstrip_nl
                (concat (firstn (Z.to_nat (b - a + 1))
                           (skipn (Z.to_nat (a - 1))
                              (splitlines_keepends source_code)))))), [])
  /\ (a = 1%Z ->
      (Z.of_nat (length (splitlines_keepends source_code)) <= b)%Z ->
      find_node_body source_code node_name node_type (Some a) (Some b)
      = (Returned (Some (rstrip_nl source_code)), []))
  /\ ((Z.of_nat (length (splitlines_keepends source_code)) < a)%Z
      \/ (b < a)%Z ->
      find_node_body source_code node_name node_type (Some a) (Some b)
      = (Returned (Some []), [])).
Proof.
  intros Hk Ha Hb. rewrite find_line_kind by exact Hk.
  rewrite (slice_lines _ a b Ha Hb).
  split; [reflexivity|]. split.
  - intros -> Hn. change (Z.to_nat (1 - 1)) with 0. cbn [skipn].
    rewrite firstn_all2 by lia. now rewrite concat_splitlines.
  - intros [Hn | Hn].
    + rewrite skipn_all2 by lia. now rewrite firstn_nil.
    + replace (Z.to_nat (b - a + 1)) with 0 by lia. reflexivity.
Qed.

Section Trace.

Variable file_path : pystr.
Variables node_name node_type : option pystr.
Variables start_line end_line : option Z.

Local Abbreviation trace :=
  (trace_history iter_commits read_blob codec_decode decode_utf8_replace
     query_captures diff_main file_path node_name node_type start_line
     end_line).
Local Abbreviation walk :=
  (compared read_blob codec_decode decode_utf8_replace query_captures
     diff_main file_path node_name node_type start_line end_line).
Local Abbreviation reduced_at :=
  (HistorySpec.reduced_at read_blob codec_decode decode_utf8_replace
     query_captures file_path node_name node_type start_line end_line).
Local Abbreviation code_at :=
  (HistorySpec.code_at read_blob codec_decode decode_utf8_replace
     query_captures file_path node_name node_type start_line end_line).
Local Abbreviation reduces :=
  (HistorySpec.reduces read_blob codec_decode decode_utf8_replace
     query_captures file_path node_name node_type start_line end_line).
Local Abbreviation changes :=
  (HistorySpec.changes read_blob codec_decode decode_utf8_replace
     query_captures diff_main file_path node_name node_type start_line
     end_line).
Local Abbreviation changed :=
  (HistorySpec.changed read_blob codec_decode decode_utf8_replace
     query_captures file_path node_name node_type start_line end_line).
Local Abbreviation record_of :=
  (HistorySpec.record_of read_blob codec_decode decode_utf8_replace
     query_captures diff_main file_path node_name node_type start_line
     end_line).
Local Abbreviation creation_record :=
  (HistorySpec.creation_record diff_main).
Local Abbreviation changed_pairs :=
  (fun commits : list Commit =>
     filter (fun cp => changed (fst cp) (snd cp)) (adjacent commits)).

Lemma changed_false (c p : Commit) :
  changed c p = false <-> code_at c = code_at p.
Proof.
  unfold HistorySpec.changed, opt_eqb.
  destruct (opt_eq_dec (code_at c) (code_at p)) as [E|E].
  - rewrite andb_false_r. tauto.
  - split; [|tauto]. intros H. exfalso.
    destruct (code_at c), (code_at p); simpl in H; congruence.
Qed.

Lemma changes_nil (commits : list Commit) :
  changes commits = [] <-> changed_pairs commits = [].
Proof.
  unfold HistorySpec.changes. split; [apply map_eq_nil | now intros ->].
Qed.

Lemma head_code (init : list Commit) (oldest x : Commit) (l : list Commit) :
  init ++ [oldest] = x :: l ->
  (forall c, In c init -> code_at c = code_at oldest) ->
  code_at x = code_at oldest.
Proof.
  destruct init as [|c init]; simpl; intros E H.
  - congruence.
  - injection E as -> _. apply H. now left.
Qed.

Lemma no_change_iff (init : list Commit) (oldest : Commit) :
  changed_pairs (init ++ [oldest]) = []
  <-> forall c, In c init -> code_at c = code_at oldest.
Proof.
  induction init as [|c init IH].
  - simpl. split; [intros _ c [] | reflexivity].
  - change ((c :: init) ++ [oldest]) with (c :: (init ++ [oldest])).
    destruct (init ++ [oldest]) as [|x l] eqn:E.
    { destruct init; discriminate. }
    rewrite adjacent_cons. cbn [filter fst snd].
    destruct (changed c x) eqn:Hc.
    + split; [discriminate|]. intros H. exfalso.
      assert (Hx : code_at x = code_at oldest).
      { apply (head_code init oldest x l E). intros c' Hin. apply H. now right. }
      assert (Hcx : changed c x = false).
      { apply changed_false. rewrite Hx. apply H. now left. }
      congruence.
    + apply changed_false in Hc. rewrite IH. split.
      * intros H c' [<- | Hin]; [|auto].
        rewrite Hc. exact (head_code init oldest x l E H).
      * intros H c' Hin. apply H. now right.
Qed.

Lemma first_change (init : list Commit) (oldest : Commit) :
  changed_pairs (init ++ [oldest]) <> [] ->
  exists cp,
    In cp (changed_pairs (init ++ [oldest]))
    /\ code_at (snd cp) = code_at oldest.
Proof.
  induction init as [|c init IH].
  - simpl. congruence.
  - change ((c :: init) ++ [oldest]) with (c :: (init ++ [oldest])).
    pose proof (no_change_iff init oldest) as Hq.
    destruct (init ++ [oldest]) as [|x l] eqn:E.
    { destruct init; discriminate. }
    rewrite adjacent_cons. cbn [filter fst snd].
    destruct (filter (fun cp => changed (fst cp) (snd cp)) (adjacent (x :: l)))
      as [|y ys] eqn:F.
    + destruct (changed c x) eqn:Hc; [|congruence]. intros _.
      exists (c, x). split; [now left|]. simpl.
      apply (head_code init oldest x l E). now apply Hq.
    + intros _. destruct IH as (cp & Hin & Hcp); [discriminate|].
      exists cp. split; [|exact Hcp].
      destruct (changed c x); [now right | exact Hin].
Qed.

(** X3: the record of the creation is made only for a construct that no commit
    changed.  When every commit can be reduced, the loop over the pairs
    returns; when some adjacent pair of commits differs, the trace is the
    history of the loop and the oldest commit adds nothing to it; when none
    differs, which is when every commit has the code of the oldest one, the
    trace is the creation record alone, or empty if the code is absent. *)
Theorem creation_only_when_unchanged (init : list Commit) (oldest : Commit) :
  iter_commits file_path = init ++ [oldest] ->
  Forall reduces (init ++ [oldest]) ->
  exists history,
    walk (iter_commits file_path) = Returned history
    /\ (history <> [] -> trace = Returned history)
    /\ (history = [] ->
        trace = Returned match code_at oldest with
                         | Some code => [creation_record oldest code]
                         | None => []
                         end)
    /\ (history = [] <-> forall c, In c init -> code_at c = code_at oldest).
Proof.
  intros E Hall.
  rewrite (HistoryProofs.trace_unfold iter_commits read_blob codec_decode
             decode_utf8_replace query_captures diff_main file_path node_name
             node_type start_line end_line init oldest E Hall).
  rewrite E.
  exists (changes (init ++ [oldest])).
  split; [now apply HistoryProofs.walk_records|].
  split; [|split].
  - intros Hne. destruct (code_at oldest) as [code|] eqn:Hc; [|reflexivity].
    destruct (first_change init oldest) as (cp & Hin & Hcp).
    { intros H. apply Hne. now apply changes_nil. }
    replace (existsb _ _) with true; [reflexivity|].
    symmetry. apply existsb_exists.
    exists (record_of (fst cp) (snd cp)). split.
    + apply in_map_iff. now exists cp.
    + simpl. rewrite Hcp, Hc. apply HistoryProofs.opt_eqb_eq. reflexivity.
  - intros H. rewrite H. simpl. now destruct (code_at oldest).
  - rewrite <- no_change_iff. apply changes_nil.
Qed.

(** X4: a trace returns when every commit can be reduced, and every record
    of a trace that returns is made for a commit of the file's history: each
    commit gives at most one record, and the records keep the order of the
    commits, newest first; a record carries the first seven characters of
    its commit's hash, the stripped message, the author and the date. *)
Theorem trace_follows_commits :
  (Forall reduces (iter_commits file_path) ->
   exists history, trace = Returned history)
  /\ (forall history,
        trace = Returned history ->
        exists kept,
          subsequence kept (iter_commits file_path)
          /\ map stamp history = map stamp_of kept
          /\ length history <= length (iter_commits file_path)).
Proof.
  destruct (iter_commits file_path) as [|c0 cs] eqn:E.
  { rewrite (HistoryProofs.trace_empty iter_commits read_blob codec_decode
               decode_utf8_replace query_captures diff_main file_path
               node_name node_type start_line end_line E).
    split; [eauto|]. intros history [= <-]. exists [].
    repeat split; [constructor | simpl; lia]. }
  destruct (exists_last (l := c0 :: cs)) as (init & oldest & E');
    [discriminate|].
  rewrite E' in *. clear E' c0 cs.
  split.
  { intros Hall.
    rewrite (HistoryProofs.trace_unfold iter_commits read_blob codec_decode
               decode_utf8_replace query_captures diff_main file_path
               node_name node_type start_line end_line init oldest E Hall).
    eauto. }
  intros history Ht.
  pose proof (HistoryProofs.trace_inv iter_commits read_blob codec_decode
                decode_utf8_replace query_captures diff_main file_path
                node_name node_type start_line end_line init oldest E) as Hi.
  rewrite Ht in Hi. destruct Hi as [_ Hh].
  cut (exists kept,
         subsequence kept (init ++ [oldest])
         /\ map stamp history = map stamp_of kept).
  { intros (kept & Hs & Hm). exists kept. repeat split; auto.
    rewrite <- (length_map stamp), Hm, length_map.
    now apply subsequence_length. }
  rewrite Hh. unfold HistorySpec.changes.
  set (pairs := changed_pairs (init ++ [oldest])).
  assert (Hw : map stamp (map (fun cp => record_of (fst cp) (snd cp)) pairs)
               = map stamp_of (map fst pairs)).
  { rewrite !map_map. reflexivity. }
  assert (Hs : subsequence (map fst pairs) init).
  { unfold pairs. rewrite <- (adjacent_fst init oldest) at 2.
    apply subsequence_filter_fst. }
  assert (H1 : exists kept,
             subsequence kept (init ++ [oldest])
             /\ map stamp (map (fun cp => record_of (fst cp) (snd cp)) pairs)
                = map stamp_of kept).
  { exists (map fst pairs). split; [now apply subsequence_weaken | exact Hw]. }
  destruct (code_at oldest) as [code|]; [|exact H1].
  destruct (existsb _ _); [exact H1|].
  exists (map fst pairs ++ [oldest]). split.
  - now apply subsequence_app_tail.
  - rewrite !map_app, Hw. reflexivity.
Qed.

End Trace.

(** ** A target given by half *)

Lemma reduced_whole (node_name node_type : option pystr)
    (start_line end_line : option Z) (content : option pystr) :
  is_full_file node_name node_type = true ->
  reduced query_captures node_name node_type start_line end_line content
  = Returned content.
Proof. intros H. unfold reduced. now rewrite H. Qed.

Lemma for_range_ext
    (f g : list CommitChange -> nat -> outcome (list CommitChange))
    (l : list nat) (a : list CommitChange) :
  (forall a b, f a b = g a b) -> for_range f l a = for_range g l a.
Proof.
  intros H. revert a. induction l as [|b l IH]; intros a; simpl;
    [reflexivity|]. rewrite H. unfold bind.
  destruct (g a b); [apply IH | reflexivity].
Qed.

(** X5: a target of which only the name or only the kind is given is traced
    as the whole file: the trace is the one of the call with neither, and
    the line range plays no part in it. *)
Theorem half_target_traces_file (file_path : pystr)
    (node_name node_type : option pystr) (start_line end_line : option Z) :
  is_full_file node_name node_type = true ->
  trace_history iter_commits read_blob codec_decode decode_utf8_replace
    query_captures diff_main file_path node_name node_type start_line end_line
  = trace_history iter_commits read_blob codec_decode decode_utf8_replace
      query_captures diff_main file_path None None None None.
Proof.
  intros H. unfold trace_history.
  destruct (get_file_history iter_commits file_path) as [|c cs];
    [reflexivity|].
  set (commits := c :: cs).
  assert (Hw : compared read_blob codec_decode decode_utf8_replace
                 query_captures diff_main file_path node_name node_type
                 start_line end_line commits
               = compared read_blob codec_decode decode_utf8_replace
                   query_captures diff_main file_path None None None None
                   commits).
  { unfold compared. apply for_range_ext. intros history i.
    unfold compare_step.
    destruct (nth_error commits i); [|reflexivity].
    destruct (nth_error commits (i + 1)); [|reflexivity].
    rewrite !(reduced_whole node_name node_type) by exact H.
    now rewrite !(reduced_whole None None) by reflexivity. }
  rewrite Hw. unfold bind.
  destruct (compared _ _ _ _ _ _ None None None None commits)
    as [history|e]; [|reflexivity].
  unfold first_commit_step.
  destruct (nth_error commits (length commits - 1)); [|reflexivity].
  rewrite !(reduced_whole node_name node_type) by exact H.
  now rewrite !(reduced_whole None None) by reflexivity.
Qed.

(** ** A rendered diff that is empty *)

Lemma marked_sides (before after : pystr) :
  diff_main_ok diff_main ->
  lines_marked not_delete (marked_lines diff_main before after)
    = kept_lines after
  /\ lines_marked not_insert (marked_lines diff_main before after)
    = kept_lines before.
Proof.
  intros Hok.
  destruct (Hok (lines_of before) (lines_of after)) as [H1 H2].
  rewrite RenderProofs.marked_lines_unfold.
  rewrite !RenderProofs.lines_marked_side.
  - rewrite H1, H2. now rewrite !RenderProofs.concat_lines_of.
  - rewrite H1. apply RenderProofs.well_cut_lines_of.
  - rewrite H2. apply RenderProofs.well_cut_lines_of.
Qed.

Lemma render_nil (entries : list (diff_op * pystr)) :
  concat (map (fun x => marker (fst x) ++ snd x) entries) = []
  <-> entries = [].
Proof.
  split; [|now intros ->].
  destruct entries as [|[o l] es]; [reflexivity|].
  simpl. now destruct o.
Qed.

(** X6: the rendered diff of two texts is empty exactly when neither text
    has a line that is not blank; so a change that touches blank lines only
    is rendered as the empty text. *)
Theorem render_empty_iff_blank (before after : pystr) :
  diff_main_ok diff_main ->
  render before after = []
  <-> kept_lines before = [] /\ kept_lines after = [].
Proof.
  intros Hok. destruct (marked_sides before after Hok) as [Ha Hb].
  unfold generate_highlighted_diff. rewrite render_nil. split.
  - intros H. rewrite H in Ha, Hb. now split.
  - intros [H1 H2]. rewrite H2 in Ha. rewrite H1 in Hb.
    destruct (marked_lines diff_main before after) as [|[o l] es];
      [reflexivity|].
    destruct o; discriminate.
Qed.

End Tracker.

(** ** The properties on repositories *)

Lemma module_span_whole_witness :
  in_keys (str "script") line_kinds = true
  /\ find_node_body one_function_captures (str "x = 1" ++ nl ++ nl)
       (str "anything") (str "script") (Some 1%Z) None
     = (Returned (Some (str "x = 1")), []).
Proof.
  split; [reflexivity|].
  exact (proj1 (module_span_whole one_function_captures
                  (str "x = 1" ++ nl ++ nl) (str "anything") [] (str "script")
                  (Some 1%Z) None 0 eq_refl (or_intror eq_refl))).
Defined.

Lemma module_span_lines_witness :
  in_keys (str "module") line_kinds = true
  /\ find_node_body one_function_captures
       (str "l1" ++ nl ++ str "l2" ++ nl ++ str "l3" ++ nl) []
       (str "module") (Some 2%Z) (Some 3%Z)
     = (Returned (Some (str "l2" ++ nl ++ str "l3")), [])
  /\ find_node_body one_function_captures
       (str "l1" ++ nl ++ str "l2" ++ nl ++ str "l3" ++ nl) []
       (str "module") (Some 1%Z) (Some 9%Z)
     = (Returned (Some (str "l1" ++ nl ++ str "l2" ++ nl ++ str "l3")), [])
  /\ find_node_body one_function_captures
       (str "l1" ++ nl ++ str "l2" ++ nl ++ str "l3" ++ nl) []
       (str "module") (Some 5%Z) (Some 9%Z)
     = (Returned (Some []), []).
Proof.
  split; [reflexivity|]. split; [|split].
  - exact (proj1 (module_span_lines one_function_captures
                    (str "l1" ++ nl ++ str "l2" ++ nl ++ str "l3" ++ nl) []
                    (str "module") 2 3 eq_refl ltac:(lia) ltac:(lia))).
  - apply (proj1 (proj2 (module_span_lines one_function_captures
                    (str "l1" ++ nl ++ str "l2" ++ nl ++ str "l3" ++ nl) []
                    (str "module") 1 9 eq_refl ltac:(lia) ltac:(lia))));
      [reflexivity | cbn; lia].
  - apply (proj2 (proj2 (module_span_lines one_function_captures
                    (str "l1" ++ nl ++ str "l2" ++ nl ++ str "l3" ++ nl) []
                    (str "module") 5 9 eq_refl ltac:(lia) ltac:(lia)))).
    left. cbn. lia.
Defined.

Example noted_file_trace :
  noted_trace None None
  = Returned
      [ {| commit_hash := str "2222222"; commit_message := str "change foo";
           author := str "dev"; date := str "2025-01-03 03:04:05";
           code_before := Some (str foo_v1);
           code_after := Some (str foo_v1 ++ nl ++ str "# note");
           highlighted_diff :=
             str "- def foo(): return 1+ def foo(): return 1" ++ nl
             ++ str "+ # note" |} ].
Proof. vm_compute. reflexivity. Qed.

Lemma creation_only_when_unchanged_witness :
  noted_commits (str "a.py") = [commit2] ++ [commit1]
  /\ compared noted_blob ascii_codec replace_invalid first_line_captures
       diff_main_coarse (str "a.py") (Some (str "foo"))
       (Some (str "function")) None None (noted_commits (str "a.py"))
     = Returned []
  /\ noted_trace (Some (str "foo")) (Some (str "function"))
     = Returned [creation_record diff_main_coarse commit1 (str foo_v1)].
Proof.
  split; [reflexivity|]. split; [reflexivity|].
  destruct (creation_only_when_unchanged noted_commits noted_blob ascii_codec
              replace_invalid first_line_captures diff_main_coarse
              (str "a.py") (Some (str "foo")) (Some (str "function")) None
              None [commit2] commit1 eq_refl)
    as (history & Hw & _ & H & _).
  - repeat constructor.
  - apply H. vm_compute in Hw. now injection Hw as <-.
Defined.

Lemma half_target_traces_file_witness :
  is_full_file (Some (str "foo")) None = true
  /\ scenario_trace (Some (str "foo")) None = scenario_trace None None.
Proof.
  split; [reflexivity|].
  exact (half_target_traces_file scenario_commits scenario_blob ascii_codec
           replace_invalid one_function_captures diff_main_coarse (str "a.py")
           (Some (str "foo")) None None None eq_refl).
Defined.

Lemma render_empty_iff_blank_witness :
  diff_main_ok diff_main_coarse
  /\ generate_highlighted_diff diff_main_coarse (str "  " ++ nl)
       (nl ++ str "  " ++ nl ++ nl) = [].
Proof.
  split; [exact RenderProofs.diff_main_coarse_ok|].
  apply (render_empty_iff_blank diff_main_coarse (str "  " ++ nl)
           (nl ++ str "  " ++ nl ++ nl) RenderProofs.diff_main_coarse_ok).
  split; reflexivity.
Defined.

End TraceProofs.

(* ===================================================================== *)
(** * Further properties of the git service *)
(* ===================================================================== *)

Module RepoProofs.
Import Py PyStr Git GitSpec Repo RepoSpec.

(** ** [str.split], [str.join] and [str.replace] *)

Lemma split_on_cons (sep : char) (s : pystr) :
  exists p l, split_on sep s = p :: l.
Proof.
  destruct s as [|c s]; simpl; [eauto|].
  destruct (c =? sep)%N; [eauto|].
  destruct (split_on sep s); eauto.
Qed.

Lemma split_on_app (sep : char) (a b : pystr) :
  ~ In sep a ->
  split_on sep (a ++ sep :: b) = a :: split_on sep b.
Proof.
  induction a as [|c a IH]; intros Ha; cbn [app split_on].
  - now rewrite N.eqb_refl.
  - destruct (N.eqb_spec c sep) as [->|_].
    + exfalso. apply Ha. now left.
    + rewrite IH; [reflexivity|]. intros H. apply Ha. now right.
Qed.

Lemma split_on_none (sep : char) (a : pystr) :
  ~ In sep a -> split_on sep a = [a].
Proof.
  induction a as [|c a IH]; intros Ha; cbn [split_on]; [reflexivity|].
  destruct (N.eqb_spec c sep) as [->|_].
  - exfalso. apply Ha. now left.
  - rewrite IH; [reflexivity|]. intros H. apply Ha. now right.
Qed.

Lemma split_on_parts (sep : char) (s : pystr) :
  Forall (fun p => ~ In sep p) (split_on sep s).
Proof.
  induction s as [|c s IH]; cbn [split_on].
  - constructor; [intros [] | constructor].
  - destruct (N.eqb_spec c sep) as [->|Hc].
    + constructor; [intros [] | exact IH].
    + destruct (split_on sep s) as [|p l]; inversion IH; subst.
      * constructor; [|constructor]. intros [H|[]]. congruence.
      * constructor; [|assumption]. intros [H|H]; [congruence | auto].
Qed.

Lemma join_split (sep : char) (s : pystr) :
  join [sep] (split_on sep s) = s.
Proof.
  induction s as [|c s IH]; cbn [split_on]; [reflexivity|].
  destruct (c =? sep)%N eqn:Hc.
  - apply N.eqb_eq in Hc. subst.
    destruct (split_on_cons sep s) as (p & l & E). rewrite E in *.
    change (join [sep] ([] :: p :: l))
      with ([] ++ [sep] ++ join [sep] (p :: l)).
    now rewrite IH.
  - destruct (split_on sep s) as [|p l]; [now rewrite <- IH|].
    rewrite <- IH. destruct l; reflexivity.
Qed.

Lemma split_on_length (sep : char) (s : pystr) :
  length (split_on sep s) = S (count sep s).
Proof.
  unfold count. induction s as [|c s IH]; cbn [split_on count_occ];
    [reflexivity|].
  destruct (N.eqb_spec c sep) as [->|Hc].
  - destruct (N.eq_dec sep sep); [|congruence]. simpl. now rewrite IH.
  - destruct (N.eq_dec c sep); [congruence|].
    destruct (split_on sep s); simpl in *; [discriminate | exact IH].
Qed.

Lemma last_split_app (sep : char) (a b : pystr) :
  last (split_on sep (a ++ sep :: b)) [] = last (split_on sep b) [].
Proof.
  induction a as [|c a IH]; cbn [app split_on].
  - rewrite N.eqb_refl.
    destruct (split_on_cons sep b) as (p & l & ->). reflexivity.
  - destruct (split_on_cons sep (a ++ sep :: b)) as (p & l & E).
    destruct (split_on_cons sep b) as (q & m & E').
    rewrite E in *. rewrite E' in *.
    assert (Hl : l <> []).
    { intros ->. pose proof (split_on_length sep (a ++ sep :: b)) as H.
      rewrite E in H. unfold count in H. rewrite count_occ_app in H.
      simpl in H. destruct (N.eq_dec sep sep); [lia | congruence]. }
    destruct (c =? sep)%N.
    + exact IH.
    + rewrite <- IH. destruct l; [congruence | reflexivity].
Qed.

Lemma startswith_boundary (t : pystr) :
  t <> [] ->
  startswith (str ".git") (t ++ str ".git") = startswith (str ".git") t.
Proof.
  intros Ht.
  destruct t as [|a [|b [|c [|d t]]]]; [congruence| | | |];
    cbn; repeat match goal with
         | |- context [N.eqb ?x ?y] => destruct (N.eqb_spec x y); subst
         end; cbn; try reflexivity; try discriminate.
Qed.

Lemma contains_tail (needle : pystr) (c : char) (s : pystr) :
  contains needle (c :: s) = false ->
  startswith needle (c :: s) = false /\ contains needle s = false.
Proof. cbn [contains]. apply orb_false_elim. Qed.

Lemma replace_git_suffix (name : pystr) :
  contains (str ".git") name = false ->
  replace (str ".git") [] (name ++ str ".git") = name
  /\ replace (str ".git") [] name = name.
Proof.
  unfold replace. induction name as [|c name IH]; intros H.
  - split; reflexivity.
  - apply contains_tail in H. destruct H as [H1 H2].
    destruct (IH H2) as [IH1 IH2].
    change ((c :: name) ++ str ".git") with (c :: (name ++ str ".git")).
    cbn [replace_from].
    change (c :: (name ++ str ".git")) with ((c :: name) ++ str ".git").
    rewrite startswith_boundary by discriminate.
    rewrite H1. now rewrite IH1, IH2.
Qed.

Lemma join_last (sep : pystr) (l : list pystr) (x : pystr) :
  exists t, join sep (l ++ [x]) = t ++ x.
Proof.
  induction l as [|y l [t IH]].
  - now exists [].
  - change ((y :: l) ++ [x]) with (y :: (l ++ [x])).
    cbn [join]. destruct (l ++ [x]) eqn:E.
    + destruct l; discriminate.
    + rewrite IH. exists (y ++ sep ++ t). now rewrite <- !app_assoc.
Qed.

Section Service.

Variable World : Type.
Variable subprocess_run : invocation -> World -> process * World.
Variable repo_exists : pystr -> World -> bool.
Variable get_repo_path : pystr -> pystr.

Local Abbreviation state := (Git.state World).
Local Abbreviation run := (Git.run World subprocess_run).
Local Abbreviation pull_repository :=
  (Git.pull_repository World subprocess_run repo_exists get_repo_path).
Local Abbreviation diff_files :=
  (Git.diff_files World subprocess_run repo_exists get_repo_path).
Local Abbreviation clone_repository :=
  (Repo.clone_repository World subprocess_run repo_exists get_repo_path).
Local Abbreviation check_commit_status :=
  (Repo.check_commit_status World subprocess_run repo_exists get_repo_path).
Local Abbreviation clone := (RepoSpec.clone get_repo_path).
Local Abbreviation status_porcelain := (RepoSpec.status_porcelain get_repo_path).
Local Abbreviation log_latest := (RepoSpec.log_latest get_repo_path).
Local Abbreviation branch_current := (RepoSpec.branch_current get_repo_path).

Lemma run_completed (cmd : list pystr) (dir : pystr) (timeout : nat)
    (s : state) (out err : pystr) (w : World) :
  subprocess_run (mkInvocation dir cmd) (world s) = (Completed 0 out err, w) ->
  run cmd dir timeout s
  = (inl {| run_stdout := out; run_stderr := err |},
     {| world := w; log := log s ++ [mkInvocation dir cmd] |}).
Proof. intros H. unfold Git.run. now rewrite H. Qed.

(** X7: for a repository whose directory does not exist, [pull_repository],
    [diff_files] and [check_commit_status] run no command at all and report
    the failure with the error ["Repository <name> not found"]. *)
Theorem missing_repository_runs_nothing (repo_name : pystr) (s : state) :
  repo_exists repo_name (world s) = false ->
  pull_repository repo_name s
    = ({| pull_success := false; pull_repo_name := repo_name;
          pull_repo_path := []; pull_message := None;
          pull_error :=
            Some (str "Repository " ++ repo_name ++ str " not found") |}, s)
  /\ diff_files repo_name s
     = (Returned
          {| diff_success := false; diff_files_list := [];
             diff_message := None;
             diff_error :=
               Some (str "Repository " ++ repo_name ++ str " not found") |},
        s)
  /\ check_commit_status repo_name s
     = ({| status_success := false; status_repo_name := repo_name;
           status_repo_path := []; branch := []; has_changes := false;
           status := []; latest_commit := None;
           status_error :=
             Some (str "Repository " ++ repo_name ++ str " not found") |}, s).
Proof.
  intros H.
  unfold Git.pull_repository, Git.pull_body, Git.diff_files, Git.diff_body,
    Repo.check_commit_status, Repo.status_body, Git.bind, Git.validate_exists.
  rewrite H. repeat split.
Qed.

(** X8: [clone_repository] runs at most one command, [git clone <url>
    <path>], and none when the directory of the repository is there already;
    it reports success exactly when the directory was not there and the
    command ended with status 0; a failure comes with an empty path and with
    the same text as message and as error. *)
Theorem clone_runs_one_command (git_url : pystr) (repo_name : option pystr)
    (s : state) :
  clone_repo_name (fst (clone_repository git_url repo_name s))
    = clone_name git_url repo_name
  /\ (repo_exists (clone_name git_url repo_name) (world s) = true ->
      clone_success (fst (clone_repository git_url repo_name s)) = false
      /\ snd (clone_repository git_url repo_name s) = s)
  /\ (repo_exists (clone_name git_url repo_name) (world s) = false ->
      log (snd (clone_repository git_url repo_name s))
        = log s ++ [clone git_url (clone_name git_url repo_name)]
      /\ (clone_success (fst (clone_repository git_url repo_name s)) = true
          <-> exists out err,
                fst (subprocess_run
                       (clone git_url (clone_name git_url repo_name))
                       (world s))
                = Completed 0 out err))
  /\ (clone_success (fst (clone_repository git_url repo_name s)) = true ->
      clone_repo_path (fst (clone_repository git_url repo_name s))
        = get_repo_path (clone_name git_url repo_name)
      /\ clone_error (fst (clone_repository git_url repo_name s)) = None)
  /\ (clone_success (fst (clone_repository git_url repo_name s)) = false ->
      clone_repo_path (fst (clone_repository git_url repo_name s)) = []
      /\ clone_message (fst (clone_repository git_url repo_name s))
         = clone_error (fst (clone_repository git_url repo_name s))
      /\ clone_error (fst (clone_repository git_url repo_name s)) <> None).
Proof.
  unfold Repo.clone_repository, Repo.clone_body, Repo.validate_not_exists,
    Git.run, RepoSpec.clone.
  set (name := clone_name git_url repo_name).
  destruct (repo_exists name (world s)) eqn:Hex.
  - cbn. repeat split; try discriminate.
  - cbn [fst snd].
    destruct (subprocess_run _ (world s)) as [p w] eqn:Hp.
    destruct p as [rc out err| |msg];
      [destruct (Z.eqb_spec rc 0); [subst|] | idtac..];
      cbn; repeat split; try discriminate; try congruence; eauto;
      intros (out' & err' & Hc); congruence.
Qed.

(** X9: the commit information of [check_commit_status].  When the three
    commands succeed the status check succeeds, and it carries the latest
    commit exactly when the stripped output of [git log] has four bars; the
    five fields are then free of bars and spell the stripped output when
    joined by bars.  So a commit whose subject or author holds a bar is
    reported without its commit. *)
Theorem status_commit_info (repo_name : pystr) (s : state)
    (out1 err1 out2 err2 out3 err3 : pystr) (w1 w2 w3 : World) :
  repo_exists repo_name (world s) = true ->
  subprocess_run (status_porcelain repo_name) (world s)
    = (Completed 0 out1 err1, w1) ->
  subprocess_run (log_latest repo_name) w1 = (Completed 0 out2 err2, w2) ->
  subprocess_run (branch_current repo_name) w2
    = (Completed 0 out3 err3, w3) ->
  check_commit_status repo_name s
    = ({| status_success := true; status_repo_name := repo_name;
          status_repo_path := get_repo_path repo_name;
          branch := strip out3;
          has_changes := negb (is_empty (strip out1));
          status := out1;
          latest_commit := commit_info out2;
          status_error := None |},
       {| world := w3;
          log := log s ++ [status_porcelain repo_name; log_latest repo_name;
                           branch_current repo_name] |})
  /\ (commit_info out2 <> None <-> count 124%N (strip out2) = 4)
  /\ (forall c, commit_info out2 = Some c ->
        log_line c = strip out2
        /\ Forall no_bar [hash c; author_name c; author_email c; message c;
                          date c]).
Proof.
  intros Hex H1 H2 H3. split; [|split].
  - unfold Repo.check_commit_status, Repo.status_body, Git.bind,
      Git.validate_exists, Git.ret.
    rewrite Hex.
    rewrite (run_completed _ _ 300 s _ _ _ H1).
    rewrite (run_completed _ _ 300 (mkState w1 _) _ _ _ H2).
    rewrite (run_completed _ _ 300 (mkState w2 _) _ _ _ H3).
    cbn [run_stdout log]. now rewrite <- !app_assoc.
  - unfold commit_info.
    pose proof (split_on_length 124%N (strip out2)) as Hl.
    destruct (strip out2) as [|c0 t] eqn:Hs.
    + cbn. split; [congruence | discriminate].
    + cbn [is_empty negb].
      destruct (split_on 124%N (c0 :: t))
        as [|p0 [|p1 [|p2 [|p3 [|p4 [|p5 l]]]]]];
        cbn [length] in Hl; split; intros H; try congruence; try lia;
        exfalso; apply H; reflexivity.
  - intros c Hc. unfold commit_info in Hc.
    pose proof (join_split 124%N (strip out2)) as Hj.
    pose proof (split_on_parts 124%N (strip out2)) as Hp.
    destruct (strip out2) as [|c0 t] eqn:Hs; [discriminate|].
    cbn [is_empty negb] in Hc.
    destruct (split_on 124%N (c0 :: t))
      as [|p0 [|p1 [|p2 [|p3 [|p4 [|p5 l]]]]]]; try discriminate.
    injection Hc as <-. split; [exact Hj | exact Hp].
Qed.

End Service.

(** X10: the name [clone_repository] takes from the URL when none is given
    is the last component of the URL without its [.git]: it holds no slash,
    and for a URL that ends in [/<name>.git] or in [/<name>], with a name
    that holds neither a slash nor [.git], it is that name. *)
Theorem clone_name_from_url (prefix name : pystr) :
  ~ In 47%N name ->
  contains (str ".git") name = false ->
  clone_name (prefix ++ str "/" ++ name ++ str ".git") None = name
  /\ clone_name (prefix ++ str "/" ++ name) (Some []) = name
  /\ (forall git_url, ~ In 47%N (clone_name git_url None)).
Proof.
  intros Hs Hg. unfold clone_name, name_from_url. cbn [or_empty is_empty].
  change (str "/") with [47%N]. cbn [app].
  rewrite !last_split_app.
  destruct (replace_git_suffix name Hg) as [R1 R2].
  repeat split.
  - rewrite split_on_none; [exact R1|].
    intros H. apply in_app_or in H. destruct H as [H|H]; [auto|].
    cbn in H. repeat destruct H as [H|H]; try discriminate. exact H.
  - rewrite split_on_none by exact Hs. exact R2.
  - intros git_url.
    pose proof (split_on_parts 47%N git_url) as Hp.
    destruct (split_on_cons 47%N git_url) as (p & l & E). rewrite E in *.
    assert (Hl : ~ In 47%N (last (p :: l) [])).
    { destruct (@exists_last _ (p :: l)) as (i & x & Ex); [discriminate|].
      rewrite Ex in *. rewrite last_last.
      rewrite Forall_forall in Hp. apply Hp. apply in_or_app. right.
      now left. }
    revert Hl. generalize (last (p :: l) []). intros t Ht.
    unfold replace. generalize 0.
    induction t as [|c t IH]; intros k; cbn [replace_from]; [intros []|].
    assert (Ht' : ~ In 47%N t) by (intros H; apply Ht; now right).
    destruct k.
    + destruct (startswith (str ".git") (c :: t)).
      * cbn [app]. apply IH. exact Ht'.
      * intros [H|H]; [apply Ht; now left | now apply (IH Ht' 0)].
    + apply IH. exact Ht'.
Qed.

Lemma path_str_parts (r : pystr) (ps : list pystr) :
  ps <> [] -> path_str {| root := r; parts := ps |} = r ++ join (str "/") ps.
Proof. intros H. unfold path_str. cbn [root parts]. now destruct r, ps. Qed.

Lemma with_suffix_ends (p q : PurePath) (suffix : pystr) :
  with_suffix p suffix = Some q -> ends_with suffix (path_str q).
Proof.
  unfold with_suffix. destruct (rev (parts p)) as [|name before];
    [discriminate|].
  intros [= <-]. rewrite path_str_parts by (now destruct (rev before)).
  destruct (join_last (str "/") (rev before)
              (firstn (length name - length (suffix_of name)) name ++ suffix))
    as [t Ht].
  rewrite Ht.
  exists (root p ++ t ++ firstn (length name - length (suffix_of name)) name).
  now rewrite <- !app_assoc.
Qed.

Lemma with_suffix_none (p : pystr) (suffix : pystr) :
  with_suffix (parse_path p) suffix = None <-> has_name p = false.
Proof.
  unfold with_suffix, has_name.
  destruct (parts (parse_path p)) as [|x xs]; cbn [rev].
  - tauto.
  - destruct (rev xs ++ [x]) eqn:E; [destruct (rev xs); discriminate|].
    split; discriminate.
Qed.


(** ** The properties on machines *)

Lemma missing_repository_runs_nothing_witness :
  (fun (_ : pystr) (_ : unit) => false) (str "RAGIT") (world here) = false
  /\ fst (diff_files unit two_setup_files (fun _ _ => false) repository_dir
            (str "RAGIT") here)
     = Returned
         {| diff_success := false; diff_files_list := [];
            diff_message := None;
            diff_error := Some (str "Repository RAGIT not found") |}
  /\ log (snd (pull_repository unit two_setup_files (fun _ _ => false)
                 repository_dir (str "RAGIT") here)) = [].
Proof.
  destruct (missing_repository_runs_nothing unit two_setup_files
              (fun _ _ => false) repository_dir (str "RAGIT") here eq_refl)
    as (H1 & H2 & _).
  split; [reflexivity|]. split.
  - now rewrite H2.
  - now rewrite H1.
Defined.

Example clone_without_git :
  clone_repository unit no_git (fun _ _ => false) repository_dir
    (str "https://github.com/Gyu-Chul/RAGIT.git") None here
  = ({| clone_success := false; clone_repo_name := str "RAGIT";
        clone_repo_path := [];
        clone_message := Some git_not_installed;
        clone_error := Some git_not_installed |},
     {| world := tt;
        log := [clone repository_dir
                  (str "https://github.com/Gyu-Chul/RAGIT.git")
                  (str "RAGIT")] |}).
Proof. reflexivity. Qed.

Example name_from_pages_url :
  clone_name (str "https://github.com/me/me.github.io.git") None
  = str "mehub.io".
Proof. reflexivity. Qed.

Lemma status_commit_info_witness :
  check_commit_status unit barred_subject (fun _ _ => true) repository_dir
    (str "RAGIT") here
  = ({| status_success := true; status_repo_name := str "RAGIT";
        status_repo_path := str "/srv/repository/RAGIT";
        branch := str "main";
        has_changes := true;
        status := str " M a.py" ++ nl;
        latest_commit := None;
        status_error := None |},
     {| world := tt;
        log := [status_porcelain repository_dir (str "RAGIT");
                log_latest repository_dir (str "RAGIT");
                branch_current repository_dir (str "RAGIT")] |}).
Proof.
  exact (proj1 (status_commit_info unit barred_subject (fun _ _ => true)
                  repository_dir (str "RAGIT") here _ _ _ _ _ _ tt tt tt
                  eq_refl eq_refl eq_refl eq_refl)).
Defined.

Lemma clone_name_from_url_witness :
  ~ In 47%N (str "RAGIT")
  /\ contains (str ".git") (str "RAGIT") = false
  /\ clone_name (str "https://github.com/Gyu-Chul" ++ str "/" ++ str "RAGIT"
                 ++ str ".git") None = str "RAGIT".
Proof.
  assert (H : ~ In 47%N (str "RAGIT")).
  { cbn. intros H. repeat destruct H as [H|H]; try discriminate. exact H. }
  split; [exact H|]. split; [reflexivity|].
  exact (proj1 (clone_name_from_url (str "https://github.com/Gyu-Chul")
                  (str "RAGIT") H eq_refl)).
Defined.

End RepoProofs.

(* ===================================================================== *)
(** * Properties of the parser service *)
(* ===================================================================== *)

Module ParserProofs.
Import Py Git Parser ParserSpec.

Section Service.

Variable World : Type.
Variable ChunkEntry : Type.
Variable path_exists : pystr -> World -> bool.
Variable scan_repository : pystr -> World -> outcome (list pystr) * World.
Variable parse_file : pystr -> World -> outcome (list ChunkEntry) * World.
Variable write_json : pystr -> pystr -> list ChunkEntry -> World -> World.
Variables get_repo_path get_output_path : pystr -> pystr.

Local Abbreviation state := (Parser.state World).
Local Abbreviation ParseResult := (Parser.ParseResult ChunkEntry).
Local Abbreviation chunk_file := (Parser.chunk_file World ChunkEntry parse_file).
Local Abbreviation _save_chunks_to_json :=
  (Parser._save_chunks_to_json World ChunkEntry write_json get_output_path).
Local Abbreviation parse_files :=
  (Parser.parse_files World ChunkEntry parse_file write_json get_output_path).
Local Abbreviation parse_repository :=
  (Parser.parse_repository World ChunkEntry path_exists scan_repository
     parse_file write_json get_repo_path get_output_path).
Local Abbreviation chunk_count := (ParserSpec.chunk_count ChunkEntry).
Local Abbreviation json_target := (ParserSpec.json_target get_output_path).
Local Abbreviation json_targets :=
  (ParserSpec.json_targets ChunkEntry get_output_path).

Lemma chunk_file_result (py_file : pystr) (s : state) :
  file_path (fst (chunk_file py_file s)) = py_file
  /\ sound (fst (chunk_file py_file s))
  /\ written (snd (chunk_file py_file s)) = written s.
Proof.
  unfold Parser.chunk_file, sound.
  destruct (parse_file py_file (machine s)) as [[parsed|e] w]; cbn;
    repeat split; congruence.
Qed.

Lemma save_written (py_file : pystr) (parsed : list ChunkEntry)
    (repo_path repo_name : pystr) (s : state) :
  written (_save_chunks_to_json py_file parsed repo_path repo_name s)
  = written s ++ json_target repo_path repo_name py_file.
Proof.
  unfold Parser._save_chunks_to_json, ParserSpec.json_target.
  destruct (relative_to _ _) as [rel|]; [|now rewrite app_nil_r].
  destruct (with_suffix rel _); [reflexivity | now rewrite app_nil_r].
Qed.

Lemma chunk_count_app (a b : list ParseResult) :
  chunk_count (a ++ b) = chunk_count a + chunk_count b.
Proof. unfold ParserSpec.chunk_count. now rewrite map_app, list_sum_app. Qed.

Lemma json_targets_app (repo_path repo_name : pystr) (a b : list ParseResult) :
  json_targets repo_path repo_name (a ++ b)
  = json_targets repo_path repo_name a ++ json_targets repo_path repo_name b.
Proof. unfold ParserSpec.json_targets. apply flat_map_app. Qed.

(** The invariant of the loop over the files. *)
Lemma parse_files_results (repo_path repo_name : pystr) (save_json : bool)
    (python_files : list pystr) (parse_results : list ParseResult)
    (total : nat) (s : state) :
  exists new,
    fst (fst (parse_files repo_path repo_name save_json python_files
                parse_results total s)) = parse_results ++ new
    /\ snd (fst (parse_files repo_path repo_name save_json python_files
                   parse_results total s)) = total + chunk_count new
    /\ map file_path new = python_files
    /\ Forall sound new
    /\ written (snd (parse_files repo_path repo_name save_json python_files
                       parse_results total s))
       = written s
         ++ (if save_json then json_targets repo_path repo_name new else []).
Proof.
  revert parse_results total s.
  induction python_files as [|py_file rest IH]; intros parse_results total s.
  - exists []. cbn. rewrite !app_nil_r, Nat.add_0_r.
    repeat split; auto. destruct save_json; now rewrite app_nil_r.
  - cbn [Parser.parse_files].
    destruct (chunk_file_result py_file s) as (Hf & Hs & Hw).
    destruct (chunk_file py_file s) as [result s1]. cbn [fst snd] in *.
    destruct (success result) eqn:Hr.
    + match goal with
      | |- context [Parser.parse_files _ _ _ _ _ _ _ _ ?fs ?rs ?t ?s2] =>
          destruct (IH rs t s2) as (new & H1 & H2 & H3 & H4 & H5)
      end.
      exists (result :: new). rewrite H1, H2, H5.
      rewrite <- app_assoc. repeat split.
      * change (result :: new) with ([result] ++ new).
        rewrite chunk_count_app. unfold ParserSpec.chunk_count at 2. cbn. lia.
      * cbn. now rewrite Hf, H3.
      * constructor; assumption.
      * destruct save_json.
        -- rewrite save_written, Hw, <- app_assoc.
           cbn [ParserSpec.json_targets flat_map]. now rewrite Hr, Hf.
        -- now rewrite Hw.
    + match goal with
      | |- context [Parser.parse_files _ _ _ _ _ _ _ _ ?fs ?rs ?t ?s2] =>
          destruct (IH rs t s2) as (new & H1 & H2 & H3 & H4 & H5)
      end.
      exists (result :: new). rewrite H1, H2, H5.
      rewrite <- app_assoc. repeat split.
      * change (result :: new) with ([result] ++ new).
        rewrite chunk_count_app. unfold ParserSpec.chunk_count at 2. cbn.
        unfold sound in Hs. rewrite Hr in Hs. destruct Hs as [-> _]. cbn. lia.
      * cbn. now rewrite Hf, H3.
      * constructor; assumption.
      * rewrite Hw. destruct save_json; [|reflexivity].
        cbn [ParserSpec.json_targets flat_map]. now rewrite Hr.
Qed.

Lemma filter_success_length (l : list ParseResult) :
  length (filter success l) <= length l.
Proof. apply filter_length_le. Qed.

(** X12: the counts of [parse_repository].  Once the directory of the
    repository is there and the scan of it has returned, the result reports
    success whatever the files did: it has one entry for each file that was
    scanned, in their order; the parsed and the failed files add up to the
    total; the chunks are those of the entries; an entry that failed holds
    no chunk and the text of its error.  A result that reports failure holds
    no file, zero for every count, and the error. *)
Theorem parse_repository_counts (repo_name : pystr) (save_json : bool)
    (s : state) :
  (repo_success (fst (parse_repository repo_name save_json s)) = true ->
   total_files (fst (parse_repository repo_name save_json s))
     = length (files (fst (parse_repository repo_name save_json s)))
   /\ parsed_files (fst (parse_repository repo_name save_json s))
        + failed_files (fst (parse_repository repo_name save_json s))
      = total_files (fst (parse_repository repo_name save_json s))
   /\ parsed_files (fst (parse_repository repo_name save_json s))
      = length (filter success
                  (files (fst (parse_repository repo_name save_json s))))
   /\ total_chunks (fst (parse_repository repo_name save_json s))
      = chunk_count (files (fst (parse_repository repo_name save_json s)))
   /\ Forall sound (files (fst (parse_repository repo_name save_json s)))
   /\ repo_error (fst (parse_repository repo_name save_json s)) = None)
  /\ (repo_success (fst (parse_repository repo_name save_json s)) = false ->
      total_files (fst (parse_repository repo_name save_json s)) = 0
      /\ parsed_files (fst (parse_repository repo_name save_json s)) = 0
      /\ failed_files (fst (parse_repository repo_name save_json s)) = 0
      /\ total_chunks (fst (parse_repository repo_name save_json s)) = 0
      /\ files (fst (parse_repository repo_name save_json s)) = []
      /\ repo_error (fst (parse_repository repo_name save_json s)) <> None)
  /\ (forall python_files w,
        path_exists (get_repo_path repo_name) (machine s) = true ->
        scan_repository (get_repo_path repo_name) (machine s)
          = (Returned python_files, w) ->
        repo_success (fst (parse_repository repo_name save_json s)) = true
        /\ map file_path (files (fst (parse_repository repo_name save_json s)))
           = python_files).
Proof.
  unfold Parser.parse_repository.
  destruct (path_exists (get_repo_path repo_name) (machine s)); cbn [negb].
  2: { cbn. repeat split; try discriminate. }
  destruct (scan_repository (get_repo_path repo_name) (machine s))
    as [[python_files|e] w].
  2: { cbn. repeat split; try discriminate. }
  destruct python_files as [|f fs].
  { cbn. repeat split; try discriminate; auto.
    congruence. }
  match goal with
  | |- context [Parser.parse_files _ _ _ _ _ ?rp ?rn ?sj ?pf ?rs ?t ?s1] =>
      destruct (parse_files_results rp rn sj pf rs t s1)
        as (new & H1 & H2 & H3 & H4 & _);
      destruct (Parser.parse_files _ _ _ _ _ rp rn sj pf rs t s1)
        as [[parse_results total] s2]
  end.
  cbn [fst snd app] in *. subst parse_results total.
  cbn [fst repo_success total_files parsed_files failed_files total_chunks
         files repo_error].
  pose proof (filter_success_length new) as Hle.
  assert (Hlen : length new = length (f :: fs)).
  { now rewrite <- H3, length_map. }
  repeat split; try discriminate; auto.
  - lia.
  - congruence.
Qed.

(** X13: the files [parse_repository] writes.  With [save_json] it asks to
    write one JSON file for each file that parsed, in the order of the scan,
    at the path of the source file below the output directory with the
    suffix replaced by [.json], and none for a file that failed; without
    [save_json] it writes nothing. *)
Theorem parse_repository_writes (repo_name : pystr) (save_json : bool)
    (s : state) :
  written (snd (parse_repository repo_name save_json s))
  = written s
    ++ (if save_json
        then json_targets (get_repo_path repo_name) repo_name
               (files (fst (parse_repository repo_name save_json s)))
        else []).
Proof.
  unfold Parser.parse_repository.
  destruct (path_exists (get_repo_path repo_name) (machine s)); cbn [negb].
  2: { cbn. destruct save_json; now rewrite app_nil_r. }
  destruct (scan_repository (get_repo_path repo_name) (machine s))
    as [[python_files|e] w].
  2: { cbn. destruct save_json; now rewrite app_nil_r. }
  destruct python_files as [|f fs].
  { cbn. destruct save_json; now rewrite app_nil_r. }
  match goal with
  | |- context [Parser.parse_files _ _ _ _ _ ?rp ?rn ?sj ?pf ?rs ?t ?s1] =>
      destruct (parse_files_results rp rn sj pf rs t s1)
        as (new & H1 & _ & _ & _ & H5);
      destruct (Parser.parse_files _ _ _ _ _ rp rn sj pf rs t s1)
        as [[parse_results total] s2]
  end.
  cbn [fst snd app written files] in *. now subst parse_results.
Qed.

End Service.

Example parse_ragit_counts :
  (let r := fst (parse_ragit true) in
   (repo_success r, total_files r, parsed_files r, failed_files r,
    total_chunks r, map (fun f => (success f, error f)) (files r)))
  = (true, 3, 2, 1, 4,
     [(true, None);
      (false, Some (str "invalid syntax (b.py, line 1)"));
      (true, None)])
  /\ written (snd (parse_ragit true))
     = [str "/srv/parsed_repository/RAGIT/a.json";
        str "/srv/parsed_repository/RAGIT/c.json"]
  /\ written (snd (parse_ragit false)) = [].
Proof. repeat split. Qed.

End ParserProofs.

(* ===================================================================== *)
(** * Properties of the processing task and of the status checks *)
(* ===================================================================== *)

Module ProcessProofs.
Import Py Git Process ProcessSpec.

Section Task.

Variable World : Type.
Variable ChunkEntry : Type.
Variable clone_repository :
  pystr -> option pystr -> World -> outcome Repo.CloneResult * World.
Variable parse_repository :
  pystr -> bool -> World
  -> outcome (Parser.RepositoryParseResult ChunkEntry) * World.
Variable embed_repository :
  pystr -> pystr -> pystr -> World -> outcome EmbeddingResult * World.
Variables repo_id git_url repo_name model_key : pystr.

Local Abbreviation pstate := (Process.pstate World).
Local Abbreviation process_repository_pipeline :=
  (Process.process_repository_pipeline World ChunkEntry clone_repository
     parse_repository embed_repository repo_id git_url repo_name model_key).
Local Abbreviation collection_name :=
  (str "repo_" ++ Api.replace_hyphens repo_id).

Ltac run_task :=
  unfold Process.process_repository_pipeline, Process.process_body,
    Process.bind, Process.call, Process.update_repository_status,
    Process.update_file_count, Process.increment_collections_count,
    Process.return_, Process.ret, Process.getitem, Process.write_status,
    Process.record_event;
  cbn [machine row events fst snd].

(** Gives the events of a run that is over, all but the last one. *)
Ltac close_trace :=
  cbn [machine row events fst snd]; rewrite <- ?app_assoc; cbn [app];
  match goal with
  | |- exists tr, ?l ++ ?t = ?l ++ tr ++ [DbClosed] /\ _ =>
      exists (removelast t); split; [reflexivity|];
      cbn [removelast last increments filter length status vectordb_status]
  end.

(** X14: how a run of [process_repository_pipeline] can end.  It closes the
    database session last.  A run that succeeds leaves the repository
    active with an active index and has added one collection, once.  A run
    that fails has written, last, the state it leaves with the error it
    returns, and it names one of three steps: [clone], with the state of
    error and only the clone called; [embed], with the repository active and
    the index in error; or [unknown], with the state of error.  No run names
    the step [parse], and no run that names [clone] or [embed] has added a
    collection. *)
Theorem process_outcomes (s : pstate) :
  exists tr,
    events (snd (process_repository_pipeline s)) = events s ++ tr ++ [DbClosed]
    /\ match fst (process_repository_pipeline s) with
       | Succeeded rid rn fc tc cn ec msg =>
           row (snd (process_repository_pipeline s)) = active
           /\ increments tr = 1
           /\ rid = repo_id /\ rn = repo_name /\ cn = collection_name
       | Failed err step fc =>
           last tr DbClosed
             = StatusWritten
                 (status (row (snd (process_repository_pipeline s))))
                 (vectordb_status (row (snd (process_repository_pipeline s))))
                 (Some err)
           /\ ((step = str "clone"
                /\ row (snd (process_repository_pipeline s)) = errored
                /\ tr = [StatusWritten (str "syncing") (str "pending") None;
                         Called StageClone [git_url; repo_name] ReportedFailure;
                         StatusWritten (str "error") (str "error") (Some err)])
               \/ (step = str "embed"
                   /\ row (snd (process_repository_pipeline s))
                      = active_without_index
                   /\ increments tr = 0)
               \/ (step = str "unknown"
                   /\ row (snd (process_repository_pipeline s)) = errored
                   /\ exists e, err = str "Unexpected error: " ++ e))
       end.
Proof.
  destruct (process_repository_pipeline s) as [r s'] eqn:E.
  cbn [fst snd]. revert E. run_task.
  destruct (clone_repository git_url (Some repo_name) (machine s))
    as [[cr|e] w1]; cbn [machine row events fst snd].
  2: { intros [= <- <-]. close_trace. split; [reflexivity|].
       right; right; repeat split; eexists; reflexivity. }
  destruct (Repo.clone_success cr); cbn [negb machine row events fst snd].
  2: { intros [= <- <-]. close_trace. split; [reflexivity|]. left; repeat split. }
  destruct (parse_repository repo_name true w1) as [[pr|e] w2];
    cbn [machine row events fst snd].
  2: { intros [= <- <-]. close_trace. split; [reflexivity|].
       right; right; repeat split; eexists; reflexivity. }
  destruct (Parser.repo_success pr); cbn [negb machine row events fst snd].
  2: { intros [= <- <-]. close_trace. split; [reflexivity|].
       right; right; repeat split; eexists; reflexivity. }
  destruct (embed_repository repo_name collection_name model_key w2)
    as [[er|e] w3]; cbn [machine row events fst snd].
  2: { intros [= <- <-]. close_trace. split; [reflexivity|].
       right; right; repeat split; eexists; reflexivity. }
  destruct (embed_success er); cbn [negb machine row events fst snd].
  - destruct (embed_inserted_count er) as [n|];
      cbn [machine row events fst snd]; intros [= <- <-]; close_trace.
    + repeat split.
    + split; [reflexivity|]. right; right; repeat split; eexists; reflexivity.
  - destruct (embed_message er) as [m|];
      cbn [machine row events fst snd]; intros [= <- <-]; close_trace.
    + split; [reflexivity|]. right. left; repeat split.
    + split; [reflexivity|]. right; right; repeat split; eexists; reflexivity.
Qed.

(** X15: a parse that fails is not reported as such.  When the clone has
    succeeded and [parse_repository] returns a result that reports failure,
    the task reads the key [message], which that result does not have: the
    run ends in the handler of unexpected errors, returns the step
    [unknown] with the error ["Unexpected error: 'message'"], and writes
    this text, not the error of the parser, to the repository. *)
Theorem parse_failure_reported_unknown (s : pstate)
    (cr : Repo.CloneResult) (w1 : World)
    (pr : Parser.RepositoryParseResult ChunkEntry) (w2 : World) :
  clone_repository git_url (Some repo_name) (machine s) = (Returned cr, w1) ->
  Repo.clone_success cr = true ->
  parse_repository repo_name true w1 = (Returned pr, w2) ->
  Parser.repo_success pr = false ->
  process_repository_pipeline s
  = (Failed (str "Unexpected error: 'message'") (str "unknown") None,
     {| machine := w2;
        row := errored;
        events :=
          events s
          ++ [StatusWritten (str "syncing") (str "pending") None;
              Called StageClone [git_url; repo_name] ReportedSuccess;
              Called StageParse [repo_name] ReportedFailure;
              StatusWritten (str "error") (str "error")
                (Some (str "Unexpected error: 'message'"));
              DbClosed] |}).
Proof.
  intros Hc Hcs Hp Hps. run_task.
  rewrite Hc. cbn [machine row events fst snd]. rewrite Hcs.
  cbn [negb machine row events fst snd].
  rewrite Hp. cbn [machine row events fst snd]. rewrite Hps.
  cbn [negb machine row events fst snd].
  now rewrite <- !app_assoc.
Qed.

(** X16: an embedding that fails is shown as a success.  When clone and parse
    have succeeded and [embed_repository] returns a result that reports
    failure with a message, the task returns the step [embed] and leaves
    the repository active with its index in error; the status check of the
    page that added the repository, which reads the column [status] only,
    answers this state by the notice that the repository was processed
    successfully, stops its timer and reloads the page. *)
Theorem embed_failure_shown_as_processed (s : pstate)
    (cr : Repo.CloneResult) (w1 : World)
    (pr : Parser.RepositoryParseResult ChunkEntry) (w2 : World)
    (er : EmbeddingResult) (w3 : World) (m error_message : option pystr)
    (shown : pystr) :
  clone_repository git_url (Some repo_name) (machine s) = (Returned cr, w1) ->
  Repo.clone_success cr = true ->
  parse_repository repo_name true w1 = (Returned pr, w2) ->
  Parser.repo_success pr = true ->
  embed_repository repo_name collection_name model_key w2
    = (Returned er, w3) ->
  embed_success er = false ->
  embed_message er = Some m ->
  fst (process_repository_pipeline s)
    = Failed (str "Embedding failed: " ++ fmt_opt m) (str "embed")
        (Some (Parser.total_files pr))
  /\ row (snd (process_repository_pipeline s)) = active_without_index
  /\ Settings.check_repository_status shown
       (answer (row (snd (process_repository_pipeline s))) error_message)
       Settings.started
     = {| Settings.check_count := 1;
          Settings.timer_active := false;
          Settings.notifications :=
            [{| Settings.text :=
                  Settings.check_mark ++ str " Repository " ++ Settings.dq
                  ++ shown ++ Settings.dq ++ str " processed successfully!";
                Settings.color := str "positive";
                Settings.timeout := 5000%N |}];
          Settings.reloads := 1 |}.
Proof.
  intros Hc Hcs Hp Hps He Hes Hm. run_task.
  rewrite Hc. cbn [machine row events fst snd]. rewrite Hcs.
  cbn [negb machine row events fst snd].
  rewrite Hp. cbn [machine row events fst snd]. rewrite Hps.
  cbn [negb machine row events fst snd].
  rewrite He. cbn [machine row events fst snd]. rewrite Hes.
  cbn [negb machine row events fst snd]. rewrite Hm.
  cbn [machine row events fst snd]. repeat split.
Qed.

End Task.

Lemma parse_failure_reported_unknown_witness :
  process_ragit not_found_by_parser
  = (Failed (str "Unexpected error: 'message'") (str "unknown") None,
     {| machine := tt;
        row := errored;
        events :=
          [StatusWritten (str "syncing") (str "pending") None;
           Called StageClone
             [str "https://github.com/Gyu-Chul/RAGIT.git"; str "RAGIT"]
             ReportedSuccess;
           Called StageParse [str "RAGIT"] ReportedFailure;
           StatusWritten (str "error") (str "error")
             (Some (str "Unexpected error: 'message'"));
           DbClosed] |}).
Proof.
  exact (parse_failure_reported_unknown unit pystr cloned not_found_by_parser
           embed_fails (str "f47ac10b-58cc-4372-a567-0e02b2c3d479")
           (str "https://github.com/Gyu-Chul/RAGIT.git") (str "RAGIT")
           (str "text-embedding-3-small") fresh
           (cloned_result (Some (str "RAGIT"))) tt
           (not_found_result (str "RAGIT")) tt
           eq_refl eq_refl eq_refl eq_refl).
Defined.

Lemma embed_failure_shown_as_processed_witness :
  fst (process_ragit parsed_three)
  = Failed (str "Embedding failed: CUDA out of memory") (str "embed") (Some 3)
  /\ row (snd (process_ragit parsed_three)) = active_without_index
  /\ Settings.notifications
       (Settings.check_repository_status (str "RAGIT")
          (answer (row (snd (process_ragit parsed_three)))
             (Some (str "Embedding failed: CUDA out of memory")))
          Settings.started)
     = [{| Settings.text :=
             Settings.check_mark ++ str " Repository " ++ Settings.dq
             ++ str "RAGIT" ++ Settings.dq ++ str " processed successfully!";
           Settings.color := str "positive";
           Settings.timeout := 5000%N |}].
Proof.
  destruct (embed_failure_shown_as_processed unit pystr cloned parsed_three
              embed_fails (str "f47ac10b-58cc-4372-a567-0e02b2c3d479")
              (str "https://github.com/Gyu-Chul/RAGIT.git") (str "RAGIT")
              (str "text-embedding-3-small") fresh
              (cloned_result (Some (str "RAGIT"))) tt
              (fst (ParserSpec.parse_ragit true)) tt
              out_of_memory tt
              (Some (str "CUDA out of memory"))
              (Some (str "Embedding failed: CUDA out of memory"))
              (str "RAGIT") eq_refl eq_refl eq_refl eq_refl eq_refl eq_refl
              eq_refl) as (H1 & H2 & H3).
  split; [exact H1|]. split; [exact H2|].
  unfold process_ragit. now rewrite H3.
Defined.

End ProcessProofs.

(* ===================================================================== *)
(** * Further properties of the update pipeline *)
(* ===================================================================== *)

Module SyncProofs.
Import Py Git Pipeline PipelineSpec SyncSpec.

Section Task.

Variable World : Type.
Variable diff_files : pystr -> World -> outcome DiffResult * World.
Variable pull_repository : pystr -> World -> outcome PullResult * World.
Variable delete_entities :
  pystr -> list pystr -> World -> outcome DeleteResult * World.
Variable parse_repository :
  pystr -> bool -> World -> outcome ParseResult * World.
Variable embed_documents :
  pystr -> pystr -> pystr -> World -> outcome EmbedResult * World.
Variable path_exists : pystr -> World -> bool.
Variables repo_id repo_name collection_name : pystr.
Variable save_json : bool.
Variable model_key : pystr.

Local Abbreviation pstate := (Pipeline.pstate World).
Local Abbreviation embed_loop :=
  (Pipeline.embed_loop World embed_documents path_exists repo_name
     collection_name model_key).
Local Abbreviation update_repository_pipeline :=
  (Pipeline.update_repository_pipeline World diff_files pull_repository
     delete_entities parse_repository embed_documents path_exists repo_id
     repo_name collection_name save_json model_key).
Local Abbreviation is_embed_of := (SyncSpec.is_embed_of repo_name).

Ltac unfold_task :=
  unfold Pipeline.update_repository_pipeline, Pipeline.pipeline_body,
    Pipeline.bind, Pipeline.call, Pipeline.update_repository_status,
    Pipeline.update_file_count, Pipeline.return_, Pipeline.ret,
    Pipeline.write_status, Pipeline.record_event;
  cbn [machine row events fst snd status vectordb_status file_count].

Ltac reduce :=
  cbn [negb machine row events fst snd status vectordb_status file_count].

(** One call of the task, by the ways it can end. *)
Ltac next_call :=
  match goal with
  | |- context [diff_files ?a ?w] =>
      let d := fresh "d" in let e := fresh "e" in let w' := fresh "w" in
      destruct (diff_files a w) as [[d|e] w']; reduce;
      [destruct (diff_success d) eqn:?; reduce |]
  | |- context [pull_repository ?a ?w] =>
      let d := fresh "p" in let e := fresh "e" in let w' := fresh "w" in
      destruct (pull_repository a w) as [[d|e] w']; reduce;
      [destruct (pull_success d) eqn:?; reduce |]
  | |- context [delete_entities ?a ?b ?w] =>
      let d := fresh "dr" in let e := fresh "e" in let w' := fresh "w" in
      destruct (delete_entities a b w) as [[d|e] w']; reduce;
      [destruct (delete_success d) eqn:?; reduce |]
  | |- context [parse_repository ?a ?b ?w] =>
      let d := fresh "pr" in let e := fresh "e" in let w' := fresh "w" in
      destruct (parse_repository a b w) as [[d|e] w'] eqn:?; reduce;
      [destruct (parse_success d) eqn:?; reduce |]
  end.

(** ** The loop of the embeddings *)

Lemma embed_loop_run (files : list pystr) (total : Z) (s s' : pstate)
    (fl : flow Z) :
  embed_loop files total s = (fl, s') ->
  exists tr,
    events s' = events s ++ tr
    /\ file_count (row s') = file_count (row s)
    /\ match fl with
       | Next _ => Forall (is_embed_of files) tr /\ row s' = row s
       | Return r =>
           exists pre f,
             tr = pre ++ [Called StageEmbed
                            [str "parsed_repository/" ++ repo_name ++ str "/"
                             ++ f] ReportedFailure;
                          StatusWritten (str "active") (str "error")]
             /\ Forall (is_embed_of files) pre
             /\ In f files
             /\ r = Failed (str "Embedding failed for " ++ f) (str "embed")
             /\ status (row s') = str "active"
             /\ vectordb_status (row s') = str "error"
       | Throw _ => Forall (is_embed_of files) tr
       end.
Proof.
  revert total s. induction files as [|f files IH]; intros total s.
  - intros [= <- <-]. exists []. rewrite app_nil_r. auto.
  - cbn [Pipeline.embed_loop].
    assert (Hw : forall ev, is_embed_of files ev -> is_embed_of (f :: files) ev).
    { intros ev (f' & e & Hin & ->). exists f', e. split; [now right | auto]. }
    assert (H0 : forall e,
               is_embed_of (f :: files)
                 (Called StageEmbed [Pipeline.json_file_path repo_name f] e)).
    { intros e. exists f, e. split; [now left | reflexivity]. }
    destruct (path_exists _ (machine s)); cbn [negb].
    + unfold Pipeline.bind at 1, Pipeline.call.
      destruct (embed_documents _ collection_name model_key (machine s))
        as [[er|e] w]; reduce.
      * destruct (embed_success er) eqn:Hok; reduce.
        -- intros E. apply IH in E. destruct E as (tr & H1 & H2 & H3).
           cbn [events row Pipeline.record_event] in *.
           eexists. split; [rewrite H1, <- app_assoc; reflexivity|].
           split; [exact H2|].
           destruct fl as [n|r|e].
           ++ destruct H3 as [H3 H4]. split; [|exact H4].
              constructor; [apply H0|]. eapply Forall_impl; [apply Hw|exact H3].
           ++ destruct H3 as (pre & f' & -> & Hp & Hin & Hr & Hs).
              exists (Called StageEmbed [Pipeline.json_file_path repo_name f]
                        ReportedSuccess :: pre), f'.
              repeat split; try tauto.
              ** constructor; [apply H0|].
                 eapply Forall_impl; [apply Hw|exact Hp].
              ** now right.
           ++ constructor; [apply H0|].
              eapply Forall_impl; [apply Hw|exact H3].
        -- unfold Pipeline.bind, Pipeline.update_repository_status,
             Pipeline.return_, Pipeline.write_status, Pipeline.record_event.
           reduce. intros [= <- <-]. reduce.
           eexists. split; [rewrite <- app_assoc; reflexivity|].
           split; [reflexivity|].
           exists [], f. repeat split; auto. now left.
      * intros [= <- <-]. reduce. unfold Pipeline.record_event. reduce.
        eexists. split; [reflexivity|]. split; [reflexivity|].
        constructor; [apply H0|constructor].
    + intros E. apply IH in E. destruct E as (tr & H1 & H2 & H3).
      exists tr. split; [exact H1|]. split; [exact H2|].
      destruct fl as [n|r|e].
      * destruct H3 as [H3 H4]. split; [|exact H4].
        eapply Forall_impl; [apply Hw|exact H3].
      * destruct H3 as (pre & f' & -> & Hp & Hin & Hr & Hs).
        exists pre, f'. repeat split; try tauto.
        -- eapply Forall_impl; [apply Hw|exact Hp].
        -- now right.
      * eapply Forall_impl; [apply Hw|exact H3].
Qed.

Lemma index_calls_app (a b : list event) :
  index_calls (a ++ b) = index_calls a ++ index_calls b.
Proof. apply filter_app. Qed.

Lemma index_calls_embeds (files : list pystr) (tr : list event) :
  Forall (is_embed_of files) tr -> index_calls tr = tr.
Proof.
  induction 1 as [|ev tr (f & e & _ & ->) _ IH]; [reflexivity|].
  unfold index_calls in *. cbn. now rewrite IH.
Qed.

(** Gives the events of a run that is over, all but the last one. *)
Ltac close_trace :=
  reduce; rewrite <- ?app_assoc; cbn [app];
  match goal with
  | |- exists tr, ?l ++ ?t = ?l ++ tr ++ [DbClosed] /\ _ =>
      exists (removelast t); split; [reflexivity|];
      cbn [removelast success index_calls filter is_call_of orb]
  end.

Ltac failed :=
  split;
  [left; split; [reflexivity|];
   split; [unfold error_state; cbn; auto|];
   let msg := fresh "msg" in let H := fresh "H" in
   intros msg H;
      first [discriminate H
            | injection H as <-; do 3 eexists; repeat split; eauto] |].
Ltac failed_quiet := failed; left; reflexivity.

(** Every run of the task, by how it ends and by what it asks of the
    index. *)
Lemma pipeline_run (s s' : pstate) (r : PipelineResult) :
  update_repository_pipeline s = (r, s') ->
  exists tr,
    events s' = events s ++ tr ++ [DbClosed]
    /\ ((success r = false /\ error_state (row s')
         /\ forall msg,
              r = Failed msg (str "parse") ->
              exists pr w w',
                parse_repository repo_name save_json w = (Returned pr, w')
                /\ msg = str "Parsing failed: " ++ fmt_opt (parse_message pr)
                /\ status (row s') = str "error"
                /\ vectordb_status (row s') = str "error")
        \/ (status (row s') = str "active"
            /\ vectordb_status (row s') = str "active"
            /\ exists d w ec,
                 diff_files repo_name (machine s) = (Returned d, w)
                 /\ r = Succeeded repo_id repo_name (file_count (row s'))
                          (Z.of_nat (length (diff_files_list d))) ec
                          (str "Repository updated successfully")))
    /\ (index_calls tr = []
        \/ exists d w e embeds,
             diff_files repo_name (machine s) = (Returned d, w)
             /\ diff_files_list d <> []
             /\ index_calls tr
                = Called StageDelete (diff_files_list d) e :: embeds
             /\ Forall (is_embed_of (diff_files_list d)) embeds
             /\ (embeds <> [] -> e = ReportedSuccess)).
Proof.
  unfold_task. next_call.
  3: { intros [= <- <-]. close_trace. failed_quiet. }
  2: { intros [= <- <-]. close_trace. failed_quiet. }
  next_call.
  3: { intros [= <- <-]. close_trace. failed_quiet. }
  2: { intros [= <- <-]. close_trace. failed_quiet. }
  destruct (diff_files_list d) as [|f fs] eqn:Hfiles; reduce.
  - next_call.
    3: { intros [= <- <-]. close_trace. failed_quiet. }
    2: { intros [= <- <-]. close_trace. failed_quiet. }
    intros [= <- <-]. close_trace. split; [|now left].
    right. repeat split. exists d, w, 0%Z. rewrite Hfiles. now split.
  - assert (Hdel : forall e,
               exists d0 w1 e0 embeds,
                 (Returned d, w) = (Returned d0, w1)
                 /\ diff_files_list d0 <> []
                 /\ [Called StageDelete (f :: fs) e]
                    = Called StageDelete (diff_files_list d0) e0 :: embeds
                 /\ Forall (is_embed_of (diff_files_list d0)) embeds
                 /\ (embeds <> [] -> e0 = ReportedSuccess)).
    { intros e. exists d, w, e, []. rewrite Hfiles.
      repeat split; [discriminate | constructor | congruence]. }
    next_call.
    3: { intros [= <- <-]. close_trace. failed. right. apply Hdel. }
    2: { intros [= <- <-]. close_trace. failed. right. apply Hdel. }
    next_call.
    3: { intros [= <- <-]. close_trace. failed. right. apply Hdel. }
    2: { intros [= <- <-]. close_trace. failed. right. apply Hdel. }
    match goal with
    | |- context [Pipeline.embed_loop _ _ _ _ _ _ (f :: fs) ?t ?s1] =>
        destruct (Pipeline.embed_loop _ _ _ _ _ _ (f :: fs) t s1)
          as [fl s2] eqn:El
    end.
    apply embed_loop_run in El. destruct El as (tr & H1 & H2 & H3).
    cbn [events row file_count] in H1, H2.
    destruct fl as [n|r0|e]; reduce; intros [= <- <-]; reduce.
    + destruct H3 as [H3 H4].
      exists ([StatusWritten (str "updating") (str "pending");
               Called StageDiff [repo_name] ReportedSuccess;
               Called StagePull [repo_name] ReportedSuccess;
               StatusWritten (str "updating") (str "updating");
               Called StageDelete (f :: fs) ReportedSuccess;
               Called StageParse [repo_name] ReportedSuccess;
               FileCountWritten (get_or (parse_total_files pr) 0%Z)]
              ++ tr ++ [StatusWritten (str "active") (str "active")]).
      split; [rewrite H1, <- !app_assoc; reflexivity|]. split.
      * right. repeat split. exists d, w, n. rewrite Hfiles, H2.
        now split.
      * right. exists d, w, ReportedSuccess, tr. rewrite Hfiles.
        repeat split; [discriminate| |exact H3].
        rewrite !index_calls_app, (index_calls_embeds _ _ H3).
        cbn. now rewrite app_nil_r.
    + destruct H3 as (pre & f' & -> & Hp & Hin & -> & Hs & Hv).
      exists ([StatusWritten (str "updating") (str "pending");
               Called StageDiff [repo_name] ReportedSuccess;
               Called StagePull [repo_name] ReportedSuccess;
               StatusWritten (str "updating") (str "updating");
               Called StageDelete (f :: fs) ReportedSuccess;
               Called StageParse [repo_name] ReportedSuccess;
               FileCountWritten (get_or (parse_total_files pr) 0%Z)]
              ++ pre
              ++ [Called StageEmbed
                    [str "parsed_repository/" ++ repo_name ++ str "/" ++ f']
                    ReportedFailure;
                  StatusWritten (str "active") (str "error")]).
      split; [rewrite H1, <- !app_assoc; reflexivity|]. split.
      * left. split; [reflexivity|]. split; [now right|].
        intros msg H. discriminate H.
      * right.
        exists d, w, ReportedSuccess,
          (pre ++ [Called StageEmbed
                     [str "parsed_repository/" ++ repo_name ++ str "/" ++ f']
                     ReportedFailure]).
        rewrite Hfiles. repeat split; [discriminate| |].
        -- rewrite !index_calls_app, (index_calls_embeds _ _ Hp).
           reflexivity.
        -- apply Forall_app. split; [exact Hp|].
           constructor; [|constructor]. now exists f', ReportedFailure.
    + exists ([StatusWritten (str "updating") (str "pending");
               Called StageDiff [repo_name] ReportedSuccess;
               Called StagePull [repo_name] ReportedSuccess;
               StatusWritten (str "updating") (str "updating");
               Called StageDelete (f :: fs) ReportedSuccess;
               Called StageParse [repo_name] ReportedSuccess;
               FileCountWritten (get_or (parse_total_files pr) 0%Z)]
              ++ tr ++ [StatusWritten (str "error") (str "error")]).
      split; [rewrite H1, <- !app_assoc; reflexivity|]. split.
      * left. split; [reflexivity|]. split; [now left|].
        intros msg H. discriminate H.
      * right. exists d, w, ReportedSuccess, tr. rewrite Hfiles.
        repeat split; [discriminate| |exact H3].
        rewrite !index_calls_app, (index_calls_embeds _ _ H3).
        cbn. now rewrite app_nil_r.
Qed.

Lemma is_literal (value : pystr) (literal : string) :
  Settings.is_ (Some value) literal = true <-> value = str literal.
Proof.
  unfold Settings.is_, opt_eqb.
  destruct (opt_eq_dec (Some value) (Some (str literal))) as [E|E];
    split; congruence.
Qed.

(** X17: a run of the update pipeline never leaves the repository in a state
    of work in progress.  When the run is over, either it has succeeded and
    both columns are [active], or it has failed and one of the two columns
    is [error]; so the status check of the settings page, on the state the
    run leaves, stops at once, reloads the page, and shows the notice of
    success exactly for a run that succeeded and a notice of failure for
    every other run. *)
Theorem sync_run_settles (s : pstate) (error_message : option pystr)
    (shown : pystr) :
  Settings.timer_active
    (Settings.check_sync_status shown
       (answer (row (snd (update_repository_pipeline s))) error_message)
       Settings.started) = false
  /\ Settings.reloads
       (Settings.check_sync_status shown
          (answer (row (snd (update_repository_pipeline s))) error_message)
          Settings.started) = 1
  /\ (success (fst (update_repository_pipeline s)) = true ->
      status (row (snd (update_repository_pipeline s))) = str "active"
      /\ vectordb_status (row (snd (update_repository_pipeline s)))
         = str "active"
      /\ Settings.notifications
           (Settings.check_sync_status shown
              (answer (row (snd (update_repository_pipeline s)))
                 error_message) Settings.started)
         = [synchronized shown])
  /\ (success (fst (update_repository_pipeline s)) = false ->
      error_state (row (snd (update_repository_pipeline s)))
      /\ exists notice,
           Settings.notifications
             (Settings.check_sync_status shown
                (answer (row (snd (update_repository_pipeline s)))
                   error_message) Settings.started)
           = [notice]
           /\ Settings.color notice = str "negative").
Proof.
  destruct (update_repository_pipeline s) as [r s'] eqn:E.
  apply pipeline_run in E. destruct E as (tr & _ & H & _).
  cbn [fst snd]. unfold answer, Settings.check_sync_status.
  cbn [Settings.status Settings.vectordb_status Settings.error_message].
  destruct H as [(Hr & He & _) | (Hs & Hv & d & w & ec & _ & ->)].
  - assert (Hb : Settings.is_ (Some (status (row s'))) "error"
                 || Settings.is_ (Some (vectordb_status (row s'))) "error"
                 = true).
    { destruct He as [He|He]; rewrite He.
      - reflexivity.
      - apply orb_true_r. }
    rewrite Hb, Hr.
    destruct (Settings.truthy error_message); cbn;
      repeat split; try discriminate; auto; eexists; split; reflexivity.
  - rewrite Hs, Hv. cbn. repeat split; try discriminate.
Qed.

(** X18: what a run that succeeds reports.  The result of a successful run
    names the repository it was given; its [deleted_count] is the number of
    files the diff listed, not a number the index gave; and its
    [file_count] is the number the run has written to the repository. *)
Theorem sync_success_counts (s : pstate) (rid rn : pystr) (fc dc ec : Z)
    (msg : pystr) :
  fst (update_repository_pipeline s) = Succeeded rid rn fc dc ec msg ->
  exists d w,
    diff_files repo_name (machine s) = (Returned d, w)
    /\ dc = Z.of_nat (length (diff_files_list d))
    /\ rid = repo_id /\ rn = repo_name
    /\ fc = file_count (row (snd (update_repository_pipeline s)))
    /\ msg = str "Repository updated successfully".
Proof.
  destruct (update_repository_pipeline s) as [r s'] eqn:E.
  apply pipeline_run in E. destruct E as (tr & _ & H & _).
  cbn [fst snd]. intros ->.
  destruct H as [[Hr _] | (_ & _ & d & w & ec' & Hd & [= -> -> -> -> _ ->])].
  - discriminate.
  - exists d, w. repeat split; auto.
Qed.

(** X19: the index is written in one order only.  Among the events of a run,
    the calls that write to the index are none at all, or one deletion that
    carries all the files the diff listed, followed by embeddings only;
    every embedding is of the JSON file of one of these files, and there is
    one only if the deletion has reported success. *)
Theorem embeds_follow_delete (s : pstate) :
  exists tr,
    events (snd (update_repository_pipeline s)) = events s ++ tr
    /\ (index_calls tr = []
        \/ exists d w e embeds,
             diff_files repo_name (machine s) = (Returned d, w)
             /\ diff_files_list d <> []
             /\ index_calls tr
                = Called StageDelete (diff_files_list d) e :: embeds
             /\ Forall (is_embed_of (diff_files_list d)) embeds
             /\ (embeds <> [] -> e = ReportedSuccess)).
Proof.
  destruct (update_repository_pipeline s) as [r s'] eqn:E.
  apply pipeline_run in E. destruct E as (tr & H1 & _ & H).
  cbn [fst snd]. exists (tr ++ [DbClosed]). split; [exact H1|].
  rewrite index_calls_app. cbn. rewrite app_nil_r. exact H.
Qed.

End Task.

Lemma sync_success_counts_witness :
  exists d w,
    PipelineSpec.found [str "a.json"] (str "RAGIT") tt = (Returned d, w)
    /\ 1%Z = Z.of_nat (length (diff_files_list d))
    /\ str "f47ac10b-58cc-4372-a567-0e02b2c3d479"
       = str "f47ac10b-58cc-4372-a567-0e02b2c3d479"
    /\ str "RAGIT" = str "RAGIT"
    /\ 3%Z
       = file_count
           (row (snd (PipelineSpec.sync_with
                        (PipelineSpec.found [str "a.json"])
                        PipelineSpec.pull_ok)))
    /\ str "Repository updated successfully"
       = str "Repository updated successfully".
Proof.
  exact (sync_success_counts unit (PipelineSpec.found [str "a.json"])
           PipelineSpec.pull_ok PipelineSpec.delete_ok PipelineSpec.parse_ok
           PipelineSpec.embed_but_b (fun _ _ => true)
           (str "f47ac10b-58cc-4372-a567-0e02b2c3d479") (str "RAGIT")
           (str "repo_f47ac10b_58cc_4372_a567_0e02b2c3d479") true
           (str "text-embedding-3-small") PipelineSpec.idle
           (str "f47ac10b-58cc-4372-a567-0e02b2c3d479") (str "RAGIT")
           3%Z 1%Z 5%Z (str "Repository updated successfully") eq_refl).
Defined.

End SyncProofs.

(* ===================================================================== *)
(** * Properties of the deletion from the index, and of the pipeline on the
      services of the worker *)
(* ===================================================================== *)

Module WorkerProofs.
Import Py Git Milvus MilvusSpec WorkerSpec.

Section Client.

Variable Server : Type.
Variable has_collection : pystr -> Server -> outcome bool * Server.
Variable load_collection : pystr -> Server -> outcome unit * Server.
Variable delete : pystr -> pystr -> Server -> outcome (option Z) * Server.
Variable release_collection : pystr -> Server -> outcome unit * Server.

Local Abbreviation state := (Milvus.state Server).
Local Abbreviation delete_entities_by_source_files :=
  (Milvus.delete_entities_by_source_files Server has_collection
     load_collection delete release_collection).

Ltac unfold_delete :=
  unfold Milvus.delete_entities_by_source_files, Milvus.delete_body,
    Milvus.release, Milvus.validate_exists, Milvus.exists_, Milvus.bind,
    Milvus.send, Milvus.ret, Milvus.raise;
  cbn [server requests fst snd negb].

Ltac reduce := cbn [server requests fst snd negb].

Ltac next_request :=
  match goal with
  | |- context [has_collection ?a ?w] =>
      let b := fresh "found" in let e := fresh "e" in let w' := fresh "w" in
      destruct (has_collection a w) as [[[|]|e] w']; reduce
  | |- context [load_collection ?a ?w] =>
      let e := fresh "e" in let w' := fresh "w" in
      destruct (load_collection a w) as [[[]|e] w']; reduce
  | |- context [delete ?a ?b ?w] =>
      let n := fresh "n" in let e := fresh "e" in let w' := fresh "w" in
      destruct (delete a b w) as [[[n|]|e] w']; reduce
  | |- context [release_collection ?a ?w] =>
      let e := fresh "e" in let w' := fresh "w" in
      destruct (release_collection a w) as [[[]|e] w']; reduce
  end.

(** Names the requests of a run that is over. *)
Ltac name_requests name files :=
  reduce; rewrite <- ?app_assoc; cbn [app];
  first
    [ exists [], []; split; [reflexivity|]
    | exists [], [ReleaseCollection name]; split; [reflexivity|]
    | exists [LoadCollection name], []; split; [reflexivity|]
    | exists [LoadCollection name], [ReleaseCollection name];
      split; [reflexivity|]
    | exists [LoadCollection name; Delete name (filter_expr files)], [];
      split; [reflexivity|]
    | exists [LoadCollection name; Delete name (filter_expr files)],
        [ReleaseCollection name]; split; [reflexivity|] ].

(** X20: the requests of [delete_entities_by_source_files] and what it
    returns.  It asks whether the collection is there, first, and once more
    in its [finally]; between the two it may load the collection and then
    send one deletion, whose filter lists the files; after the second it
    may release the collection.  It sends no deletion for an empty list of
    files.  A result that reports success has no error, and was preceded by
    the loading and, for a list that is not empty, by the deletion; a result
    that reports failure has the count 0, an error and no message. *)
Theorem delete_entities_requests (collection_name : pystr)
    (source_files : list pystr) (s : state) :
  exists body final,
    requests (snd (delete_entities_by_source_files collection_name
                     source_files s))
    = requests s ++ [HasCollection collection_name] ++ body
      ++ [HasCollection collection_name] ++ final
    /\ In body (body_requests collection_name source_files)
    /\ In final (final_requests collection_name)
    /\ (source_files = [] ->
        body <> [LoadCollection collection_name;
                 Delete collection_name (filter_expr source_files)])
    /\ (forall r,
          fst (delete_entities_by_source_files collection_name source_files s)
          = Returned r ->
          if success r then
            error r = None
            /\ body = match source_files with
                      | [] => [LoadCollection collection_name]
                      | _ => [LoadCollection collection_name;
                              Delete collection_name
                                (filter_expr source_files)]
                      end
          else deleted_count r = 0%Z /\ error r <> None /\ message r = None).
Proof.
  destruct (delete_entities_by_source_files collection_name source_files s)
    as [o s'] eqn:E.
  cbn [fst snd]. revert E. unfold_delete.
  next_request.
  - next_request.
    + destruct source_files as [|f fs]; reduce.
      * next_request; [next_request|idtac..];
          intros [= <- <-]; name_requests collection_name (@nil pystr);
          cbn; repeat split; try tauto; try discriminate;
          intros r [= <-]; cbn; repeat split; discriminate.
      * next_request;
          (next_request; [next_request|idtac..]);
          intros [= <- <-]; name_requests collection_name (f :: fs);
          cbn [In body_requests final_requests];
          repeat split; try tauto; try discriminate;
          intros r [= <-]; cbn; repeat split; discriminate.
    + next_request; [next_request|idtac..];
        intros [= <- <-]; name_requests collection_name source_files;
        cbn [In body_requests final_requests];
        repeat split; try tauto; try discriminate;
        try (intros H; destruct source_files; discriminate);
        intros r [= <-]; cbn; repeat split; discriminate.
  - next_request; [next_request|idtac..];
      intros [= <- <-]; name_requests collection_name source_files;
      cbn [In body_requests final_requests];
      repeat split; try tauto; try discriminate;
      try (intros H; destruct source_files; discriminate);
      intros r [= <-]; cbn; repeat split; discriminate.
  - next_request; [next_request|idtac..];
      intros [= <- <-]; name_requests collection_name source_files;
      cbn [In body_requests final_requests];
      repeat split; try tauto; try discriminate;
      try (intros H; destruct source_files; discriminate);
      intros r [= <-]; cbn; repeat split; discriminate.
Qed.

End Client.

Section Index.

Variable Server : Type.
Variable has_collection : pystr -> Server -> outcome bool * Server.
Variable load_collection : pystr -> Server -> outcome unit * Server.
Variable delete : pystr -> pystr -> Server -> outcome (option Z) * Server.
Variable release_collection : pystr -> Server -> outcome unit * Server.

Local Abbreviation World := (Milvus.state Server).

Variable diff_files : pystr -> World -> outcome DiffResult * World.
Variable pull_repository : pystr -> World -> outcome PullResult * World.
Variable parse_repository :
  pystr -> bool -> World -> outcome Pipeline.ParseResult * World.
Variable embed_documents :
  pystr -> pystr -> pystr -> World -> outcome Pipeline.EmbedResult * World.
Variable path_exists : pystr -> World -> bool.
Variables repo_id repo_name collection_name : pystr.
Variable save_json : bool.
Variable model_key : pystr.

Local Abbreviation update_repository_pipeline :=
  (Pipeline.update_repository_pipeline World diff_files pull_repository
     (Worker.delete_entities Server has_collection load_collection delete
        release_collection)
     parse_repository embed_documents path_exists repo_id repo_name
     collection_name save_json model_key).

Ltac unfold_sync :=
  unfold Pipeline.update_repository_pipeline, Pipeline.pipeline_body,
    Pipeline.bind, Pipeline.call, Pipeline.update_repository_status,
    Pipeline.return_, Pipeline.ret, Pipeline.write_status,
    Pipeline.record_event;
  cbn [Pipeline.machine Pipeline.row Pipeline.events fst snd negb].

Ltac unfold_delete :=
  unfold Worker.delete_entities, Milvus.delete_entities_by_source_files,
    Milvus.delete_body, Milvus.release, Milvus.validate_exists,
    Milvus.exists_, Milvus.bind, Milvus.send, Milvus.ret, Milvus.raise;
  cbn [server requests fst snd negb].

(** X21: the update pipeline on an index without the collection.  When the
    diff lists a file and the pull succeeds, and the server answers that it
    has no such collection, the task returns the failure of the step
    [delete_entities] with the text of the collection manager, leaves the
    repository [active] with the index in [error], and has asked the server
    twice whether the collection is there and nothing else: it has neither
    parsed nor embedded anything. *)
Theorem missing_collection_fails_sync (s : Pipeline.pstate World)
    (d : DiffResult) (w1 : World) (p : PullResult) (w2 : World)
    (f : pystr) (fs : list pystr) :
  diff_files repo_name (Pipeline.machine s) = (Returned d, w1) ->
  diff_success d = true ->
  diff_files_list d = f :: fs ->
  pull_repository repo_name w1 = (Returned p, w2) ->
  pull_success p = true ->
  (forall w, has_collection collection_name w = (Returned false, w)) ->
  update_repository_pipeline s
  = (Pipeline.Failed
       (str "Failed to delete entities: Collection '" ++ collection_name
        ++ str "' not found") (str "delete_entities"),
     {| Pipeline.machine :=
          {| server := server w2;
             requests := requests w2 ++ [HasCollection collection_name;
                                         HasCollection collection_name] |};
        Pipeline.row :=
          {| Pipeline.status := str "active";
             Pipeline.vectordb_status := str "error";
             Pipeline.file_count := Pipeline.file_count (Pipeline.row s) |};
        Pipeline.events :=
          Pipeline.events s
          ++ [Pipeline.StatusWritten (str "updating") (str "pending");
              Pipeline.Called Pipeline.StageDiff [repo_name]
                Pipeline.ReportedSuccess;
              Pipeline.Called Pipeline.StagePull [repo_name]
                Pipeline.ReportedSuccess;
              Pipeline.StatusWritten (str "updating") (str "updating");
              Pipeline.Called Pipeline.StageDelete (f :: fs)
                Pipeline.ReportedFailure;
              Pipeline.StatusWritten (str "active") (str "error");
              Pipeline.DbClosed] |}).
Proof.
  intros Hd Hds Hdf Hp Hps Hhas.
  unfold_sync. rewrite Hd. cbn. rewrite Hds. cbn. rewrite Hp. cbn.
  rewrite Hps. cbn. rewrite Hdf. cbn.
  unfold_delete. rewrite ?Hhas. cbn. rewrite ?Hhas. cbn.
  rewrite <- !app_assoc. reflexivity.
Qed.

(** X22: the update pipeline on an index that cannot be reached.  When the
    diff lists a file and the pull succeeds, and the question whether the
    collection is there raises [e], the deletion does not return the failure
    of its [except]: its [finally] asks again and raises.  The task then
    returns the error [e] with the step [unknown] and leaves both the
    repository and the index in [error]. *)
Theorem unreachable_index_reported_unknown (s : Pipeline.pstate World)
    (d : DiffResult) (w1 : World) (p : PullResult) (w2 : World)
    (f : pystr) (fs : list pystr) (e : pystr) :
  diff_files repo_name (Pipeline.machine s) = (Returned d, w1) ->
  diff_success d = true ->
  diff_files_list d = f :: fs ->
  pull_repository repo_name w1 = (Returned p, w2) ->
  pull_success p = true ->
  (forall w, has_collection collection_name w = (Raised e, w)) ->
  update_repository_pipeline s
  = (Pipeline.Failed e (str "unknown"),
     {| Pipeline.machine :=
          {| server := server w2;
             requests := requests w2 ++ [HasCollection collection_name;
                                         HasCollection collection_name] |};
        Pipeline.row :=
          {| Pipeline.status := str "error";
             Pipeline.vectordb_status := str "error";
             Pipeline.file_count := Pipeline.file_count (Pipeline.row s) |};
        Pipeline.events :=
          Pipeline.events s
          ++ [Pipeline.StatusWritten (str "updating") (str "pending");
              Pipeline.Called Pipeline.StageDiff [repo_name]
                Pipeline.ReportedSuccess;
              Pipeline.Called Pipeline.StagePull [repo_name]
                Pipeline.ReportedSuccess;
              Pipeline.StatusWritten (str "updating") (str "updating");
              Pipeline.Called Pipeline.StageDelete (f :: fs)
                Pipeline.RaisedException;
              Pipeline.StatusWritten (str "error") (str "error");
              Pipeline.DbClosed] |}).
Proof.
  intros Hd Hds Hdf Hp Hps Hhas.
  unfold_sync. rewrite Hd. cbn. rewrite Hds. cbn. rewrite Hp. cbn.
  rewrite Hps. cbn. rewrite Hdf. cbn.
  unfold_delete. rewrite ?Hhas. cbn. rewrite ?Hhas. cbn.
  rewrite <- !app_assoc. reflexivity.
Qed.

End Index.

Lemma missing_collection_fails_sync_witness :
  sync_on without_collection
  = (Pipeline.Failed
       (str "Failed to delete entities: Collection 'repo_f47ac10b_58cc_4372_a567_0e02b2c3d479' not found")
       (str "delete_entities"),
     {| Pipeline.machine :=
          {| server := tt;
             requests :=
               [HasCollection
                  (str "repo_f47ac10b_58cc_4372_a567_0e02b2c3d479");
                HasCollection
                  (str "repo_f47ac10b_58cc_4372_a567_0e02b2c3d479")] |};
        Pipeline.row :=
          {| Pipeline.status := str "active";
             Pipeline.vectordb_status := str "error";
             Pipeline.file_count := 3 |};
        Pipeline.events :=
          [Pipeline.StatusWritten (str "updating") (str "pending");
           Pipeline.Called Pipeline.StageDiff [str "RAGIT"]
             Pipeline.ReportedSuccess;
           Pipeline.Called Pipeline.StagePull [str "RAGIT"]
             Pipeline.ReportedSuccess;
           Pipeline.StatusWritten (str "updating") (str "updating");
           Pipeline.Called Pipeline.StageDelete [str "a.json"]
             Pipeline.ReportedFailure;
           Pipeline.StatusWritten (str "active") (str "error");
           Pipeline.DbClosed] |}).
Proof.
  exact (missing_collection_fails_sync unit
           (fun _ => without_collection bool false)
           (fun _ => without_collection unit tt)
           (fun _ _ => without_collection (option Z) None)
           (fun _ => without_collection unit tt)
           (diff_gives one_file) pull_done
           (fun name save w =>
              (Returned {| Pipeline.parse_success := true;
                           Pipeline.parse_message := None;
                           Pipeline.parse_total_files := Some 3%Z |}, w))
           (fun path name key w =>
              (Returned {| Pipeline.embed_success := true;
                           Pipeline.embed_inserted_count := Some 5%Z |}, w))
           (fun _ _ => true)
           (str "f47ac10b-58cc-4372-a567-0e02b2c3d479") (str "RAGIT")
           (str "repo_f47ac10b_58cc_4372_a567_0e02b2c3d479") true
           (str "text-embedding-3-small")
           {| Pipeline.machine := quiet_server;
              Pipeline.row := Pipeline.row PipelineSpec.idle;
              Pipeline.events := [] |}
           one_file quiet_server (pulled (str "RAGIT")) quiet_server
           (str "a.json") []
           eq_refl eq_refl eq_refl eq_refl eq_refl (fun _ => eq_refl)).
Defined.

Lemma unreachable_index_reported_unknown_witness :
  sync_on out_of_reach
  = (Pipeline.Failed unreachable (str "unknown"),
     {| Pipeline.machine :=
          {| server := tt;
             requests :=
               [HasCollection
                  (str "repo_f47ac10b_58cc_4372_a567_0e02b2c3d479");
                HasCollection
                  (str "repo_f47ac10b_58cc_4372_a567_0e02b2c3d479")] |};
        Pipeline.row :=
          {| Pipeline.status := str "error";
             Pipeline.vectordb_status := str "error";
             Pipeline.file_count := 3 |};
        Pipeline.events :=
          [Pipeline.StatusWritten (str "updating") (str "pending");
           Pipeline.Called Pipeline.StageDiff [str "RAGIT"]
             Pipeline.ReportedSuccess;
           Pipeline.Called Pipeline.StagePull [str "RAGIT"]
             Pipeline.ReportedSuccess;
           Pipeline.StatusWritten (str "updating") (str "updating");
           Pipeline.Called Pipeline.StageDelete [str "a.json"]
             Pipeline.RaisedException;
           Pipeline.StatusWritten (str "error") (str "error");
           Pipeline.DbClosed] |}).
Proof.
  exact (unreachable_index_reported_unknown unit
           (fun _ => out_of_reach bool false)
           (fun _ => out_of_reach unit tt)
           (fun _ _ => out_of_reach (option Z) None)
           (fun _ => out_of_reach unit tt)
           (diff_gives one_file) pull_done
           (fun name save w =>
              (Returned {| Pipeline.parse_success := true;
                           Pipeline.parse_message := None;
                           Pipeline.parse_total_files := Some 3%Z |}, w))
           (fun path name key w =>
              (Returned {| Pipeline.embed_success := true;
                           Pipeline.embed_inserted_count := Some 5%Z |}, w))
           (fun _ _ => true)
           (str "f47ac10b-58cc-4372-a567-0e02b2c3d479") (str "RAGIT")
           (str "repo_f47ac10b_58cc_4372_a567_0e02b2c3d479") true
           (str "text-embedding-3-small")
           {| Pipeline.machine := quiet_server;
              Pipeline.row := Pipeline.row PipelineSpec.idle;
              Pipeline.events := [] |}
           one_file quiet_server (pulled (str "RAGIT")) quiet_server
           (str "a.json") [] unreachable
           eq_refl eq_refl eq_refl eq_refl eq_refl (fun _ => eq_refl)).
Defined.

Section Parsing.

Variable Machine : Type.
Variable ChunkEntry : Type.
Variable path_exists : pystr -> Machine -> bool.
Variable scan_repository : pystr -> Machine -> outcome (list pystr) * Machine.
Variable parse_file : pystr -> Machine -> outcome (list ChunkEntry) * Machine.
Variable write_json : pystr -> pystr -> list ChunkEntry -> Machine -> Machine.
Variables get_repo_path get_output_path : pystr -> pystr.

Local Abbreviation World := (Parser.state Machine).

Variable diff_files : pystr -> World -> outcome DiffResult * World.
Variable pull_repository : pystr -> World -> outcome PullResult * World.
Variable delete_entities :
  pystr -> list pystr -> World -> outcome Pipeline.DeleteResult * World.
Variable embed_documents :
  pystr -> pystr -> pystr -> World -> outcome Pipeline.EmbedResult * World.
Variable json_exists : pystr -> World -> bool.
Variables repo_id repo_name collection_name : pystr.
Variable save_json : bool.
Variable model_key : pystr.

Local Abbreviation update_repository_pipeline :=
  (Pipeline.update_repository_pipeline World diff_files pull_repository
     delete_entities
     (Worker.parse_repository Machine ChunkEntry path_exists scan_repository
        parse_file write_json get_repo_path get_output_path)
     embed_documents json_exists repo_id repo_name collection_name save_json
     model_key).

(** X23: the update pipeline drops the error of the parser.  The parser
    reports a failure under the key [error] and the pipeline reads the key
    [message]: whenever the task returns a failure of the step [parse], its
    error is the text [Parsing failed: None], and both the repository and
    the index are in [error]. *)
Theorem parse_error_text_lost (s : Pipeline.pstate World) (msg : pystr) :
  fst (update_repository_pipeline s) = Pipeline.Failed msg (str "parse") ->
  msg = str "Parsing failed: None"
  /\ Pipeline.status (Pipeline.row (snd (update_repository_pipeline s)))
     = str "error"
  /\ Pipeline.vectordb_status
       (Pipeline.row (snd (update_repository_pipeline s)))
     = str "error".
Proof.
  destruct (update_repository_pipeline s) as [r s'] eqn:E.
  cbn [fst snd]. intros ->.
  apply SyncProofs.pipeline_run in E.
  destruct E as (tr & _ & [(_ & _ & H) | (_ & _ & d & w & ec & _ & H)] & _);
    [|discriminate].
  destruct (H msg eq_refl) as (pr & w & w' & Hpr & -> & Hs & Hv).
  unfold Worker.parse_repository in Hpr.
  destruct (Parser.parse_repository _ _ _ _ _ _ _ _ _ _ _) in Hpr.
  injection Hpr as <- _. repeat split; assumption.
Qed.

End Parsing.

Lemma parse_error_text_lost_witness :
  fst sync_unparsed = Pipeline.Failed (str "Parsing failed: None") (str "parse")
  /\ Pipeline.status (Pipeline.row (snd sync_unparsed)) = str "error"
  /\ Pipeline.vectordb_status (Pipeline.row (snd sync_unparsed))
     = str "error".
Proof.
  split; [reflexivity|].
  apply (parse_error_text_lost unit pystr (fun _ _ => false)
           ParserSpec.three_files ParserSpec.parse_but_b (fun _ _ _ w => w)
           GitSpec.repository_dir ParserSpec.parsed_dir
           (diff_gives no_file) pull_done
           (fun name files w =>
              (Returned {| Pipeline.delete_success := true;
                           Pipeline.delete_error := None |}, w))
           (fun path name key w =>
              (Returned {| Pipeline.embed_success := true;
                           Pipeline.embed_inserted_count := Some 5%Z |}, w))
           (fun _ _ => true)
           (str "f47ac10b-58cc-4372-a567-0e02b2c3d479") (str "RAGIT")
           (str "repo_f47ac10b_58cc_4372_a567_0e02b2c3d479") true
           (str "text-embedding-3-small")
           {| Pipeline.machine :=
                {| Parser.machine := tt; Parser.written := [] |};
              Pipeline.row := Pipeline.row PipelineSpec.idle;
              Pipeline.events := [] |}
           (str "Parsing failed: None")).
  reflexivity.
Defined.

End WorkerProofs.

(* ===================================================================== *)
(** * Properties of the status checks of the settings page *)
(* ===================================================================== *)

Module SettingsProofs.
Import Py Git Settings SettingsSpec.

Lemma run_timer_app (check : outcome StatusData -> page -> page)
    (a b : list (outcome StatusData)) (p : page) :
  run_timer check (a ++ b) p = run_timer check b (run_timer check a p).
Proof. unfold run_timer. apply fold_left_app. Qed.

Lemma sync_check_bounded (repo_name : pystr) (response : outcome StatusData)
    (n : nat) (p : page) :
  bounded 120 n p ->
  bounded 120 (S n) (tick (check_sync_status repo_name) response p).
Proof.
  unfold bounded, tick. intros (Ha & Hn & Hr & Hc & Hp).
  destruct (timer_active p) eqn:Et.
  - destruct (Ha eq_refl) as (Hnil & Hre & Hcount & Hlt).
    unfold check_sync_status.
    destruct response as [d|e].
    + destruct (is_ (status d) "error" || is_ (vectordb_status d) "error").
      { destruct (truthy (error_message d)); cbn;
          rewrite Hnil, Hre; cbn; repeat split; try lia; discriminate. }
      destruct (is_ (status d) "active" && is_ (vectordb_status d) "active").
      { cbn; rewrite Hnil, Hre; cbn; repeat split; try lia; discriminate. }
      cbn [count_up check_count].
      destruct (Nat.leb_spec0 120 (S (check_count p))); cbn;
        rewrite ?Hnil, ?Hre, ?Et; cbn; repeat split; try lia;
        try discriminate; auto.
    + cbn [count_up check_count].
      destruct (Nat.leb_spec0 5 (S (check_count p))); cbn;
        rewrite ?Hnil, ?Hre, ?Et; cbn; repeat split; try lia;
        try discriminate; auto.
  - repeat split; try lia; intros; congruence.
Qed.

Lemma creation_check_bounded (repo_name : pystr)
    (response : outcome StatusData) (n : nat) (p : page) :
  bounded 60 n p ->
  bounded 60 (S n) (tick (check_repository_status repo_name) response p).
Proof.
  unfold bounded, tick. intros (Ha & Hn & Hr & Hc & Hp).
  destruct (timer_active p) eqn:Et.
  - destruct (Ha eq_refl) as (Hnil & Hre & Hcount & Hlt).
    unfold check_repository_status.
    destruct response as [d|e].
    + destruct (is_ (status d) "error").
      { destruct (truthy (error_message d)); cbn;
          rewrite Hnil, Hre; cbn; repeat split; try lia; discriminate. }
      destruct (is_ (status d) "active").
      { cbn; rewrite Hnil, Hre; cbn; repeat split; try lia; discriminate. }
      cbn [count_up check_count].
      destruct (Nat.leb_spec0 60 (S (check_count p))); cbn;
        rewrite ?Hnil, ?Hre, ?Et; cbn; repeat split; try lia;
        try discriminate; auto.
    + cbn [count_up check_count].
      destruct (Nat.leb_spec0 5 (S (check_count p))); cbn;
        rewrite ?Hnil, ?Hre, ?Et; cbn; repeat split; try lia;
        try discriminate; auto.
  - repeat split; try lia; intros; congruence.
Qed.

Lemma started_bounded (max_checks : nat) :
  0 < max_checks -> bounded max_checks 0 started.
Proof. unfold bounded, started. cbn. repeat split; lia. Qed.

Lemma run_bounded (max_checks : nat)
    (check : outcome StatusData -> page -> page) :
  0 < max_checks ->
  (forall response n p,
     bounded max_checks n p -> bounded max_checks (S n) (tick check response p)) ->
  forall responses,
    bounded max_checks (length responses) (run_timer check responses started).
Proof.
  intros Hmax Hstep responses.
  induction responses as [|response responses IH] using rev_ind.
  - apply started_bounded, Hmax.
  - rewrite run_timer_app, length_app. cbn [length run_timer fold_left].
    rewrite Nat.add_1_r. apply Hstep, IH.
Qed.

(** The check of a synchronisation on answers that leave it going. *)
Lemma sync_check_goes_on (repo_name : pystr) (answers : list StatusData) :
  Forall (fun d => in_progress d = true) answers ->
  length answers < 120 ->
  run_timer (check_sync_status repo_name) (map Returned answers) started
  = polling (length answers).
Proof.
  induction answers as [|d answers IH] using rev_ind; intros Hall Hlen.
  - reflexivity.
  - apply Forall_app in Hall. destruct Hall as [Hall Hd].
    inversion Hd as [|? ? Hin _]; subst.
    rewrite length_app in *. cbn [length] in *.
    rewrite map_app, run_timer_app, IH by (auto; lia).
    cbn [map run_timer fold_left]. unfold tick, polling at 1.
    cbn [timer_active]. unfold check_sync_status.
    unfold in_progress in Hin. apply andb_true_iff in Hin.
    destruct Hin as [H1 H2].
    apply negb_true_iff in H1. apply negb_true_iff in H2.
    rewrite H1, H2. cbn [count_up check_count polling].
    destruct (Nat.leb_spec0 120 (S (length answers))); [lia|].
    unfold polling. rewrite Nat.add_1_r. reflexivity.
Qed.

(** X24: the status check of a synchronisation ends, and speaks once at most.
    Whatever the answers of the server, the check shows one notification at
    most and reloads the page only with a notification; it runs 120 times at
    most, and after 120 answers its timer is off.  As long as the timer is
    on, nothing has been shown and every answer has been counted. *)
Theorem sync_poll_ends (repo_name : pystr)
    (responses : list (outcome StatusData)) :
  length (notifications (sync_poll repo_name responses)) <= 1
  /\ reloads (sync_poll repo_name responses)
     <= length (notifications (sync_poll repo_name responses))
  /\ check_count (sync_poll repo_name responses) <= 120
  /\ (120 <= length responses ->
      timer_active (sync_poll repo_name responses) = false)
  /\ (timer_active (sync_poll repo_name responses) = true ->
      notifications (sync_poll repo_name responses) = []
      /\ check_count (sync_poll repo_name responses) = length responses).
Proof.
  assert (H : bounded 120 (length responses) (sync_poll repo_name responses)).
  { apply run_bounded; [lia|]. intros; now apply sync_check_bounded. }
  set (p := sync_poll repo_name responses) in *.
  destruct H as (Ha & Hn & Hr & Hc & Hp).
  repeat split; try assumption.
  - intros Hlen. destruct (timer_active p); [|reflexivity].
    destruct (Ha eq_refl) as (_ & _ & ? & ?). lia.
  - apply Ha; assumption.
  - apply Ha; assumption.
Qed.

(** X25: the status check of a new repository ends, and speaks once at most:
    one notification at most, a reload only with a notification, 60 runs at
    most, and the timer off after 60 answers. *)
Theorem creation_poll_ends (repo_name : pystr)
    (responses : list (outcome StatusData)) :
  length (notifications (creation_poll repo_name responses)) <= 1
  /\ reloads (creation_poll repo_name responses)
     <= length (notifications (creation_poll repo_name responses))
  /\ check_count (creation_poll repo_name responses) <= 60
  /\ (60 <= length responses ->
      timer_active (creation_poll repo_name responses) = false)
  /\ (timer_active (creation_poll repo_name responses) = true ->
      notifications (creation_poll repo_name responses) = []
      /\ check_count (creation_poll repo_name responses) = length responses).
Proof.
  assert (H : bounded 60 (length responses) (creation_poll repo_name responses)).
  { apply run_bounded; [lia|]. intros; now apply creation_check_bounded. }
  set (p := creation_poll repo_name responses) in *.
  destruct H as (Ha & Hn & Hr & Hc & Hp).
  repeat split; try assumption.
  - intros Hlen. destruct (timer_active p); [|reflexivity].
    destruct (Ha eq_refl) as (_ & _ & ? & ?). lia.
  - apply Ha; assumption.
  - apply Ha; assumption.
Qed.

(** X26: one request that fails ends the check of a synchronisation without a
    word, once four checks have been made.  The counter that the handler of
    the exception compares with 5 counts the checks, not the failures: after
    four or more answers that leave the check going, the first request that
    raises turns the timer off, and no notification is shown. *)
Theorem failed_request_stops_poll (repo_name : pystr)
    (answers : list StatusData) (e : pystr) :
  Forall (fun d => in_progress d = true) answers ->
  4 <= length answers < 120 ->
  run_timer (check_sync_status repo_name)
    (map Returned answers ++ [Raised e]) started
  = stopped_silently (S (length answers)).
Proof.
  intros Hall [Hmin Hmax].
  rewrite run_timer_app, sync_check_goes_on by assumption.
  cbn [run_timer fold_left]. unfold tick, polling. cbn [timer_active].
  unfold check_sync_status. cbn [count_up check_count].
  destruct (Nat.leb_spec0 5 (S (length answers))); [reflexivity|lia].
Qed.

Lemma failed_request_stops_poll_witness :
  run_timer (check_sync_status (str "RAGIT"))
    (map Returned [updating; updating; updating; updating]
     ++ [Raised gateway_timeout]) started
  = stopped_silently 5.
Proof.
  apply (failed_request_stops_poll (str "RAGIT")
           [updating; updating; updating; updating]
           gateway_timeout).
  - repeat constructor.
  - cbn; lia.
Defined.

End SettingsProofs.

(* ===================================================================== *)
(** * Properties of the status endpoint and of the name of the collection *)
(* ===================================================================== *)

Module StatusProofs.
Import Py Git Api StatusSpec.

Lemma find_holds {A} (f : A -> bool) (l : list A) (a : A) :
  find f l = Some a -> f a = true.
Proof. intros H. apply find_some in H. apply H. Qed.

Section Endpoint.

Variable check_user_permission : Database -> pystr -> pystr -> pystr -> bool.
Variable new_task_id : Broker -> pystr.
Variable can_access : Database -> pystr -> pystr -> bool.
Variable error_message : Repository -> option pystr.
Variable http_error : nat -> pystr.

(** X27: the check that follows an accepted synchronisation reads the state
    from before it.  The endpoint that accepts a synchronisation writes
    nothing to the repository: it only queues the task.  So for a repository
    whose two columns are [active], the first status check of the page, on
    the database as the endpoint has left it, reports the synchronisation
    as done and stops, while the task is still in the queue. *)
Theorem poll_reads_state_before_sync (repo_id current_user_id : pystr)
    (db db' : Database) (b b' : Broker) (message task_id rid : pystr)
    (repository : Repository) :
  sync_repository check_user_permission new_task_id repo_id current_user_id
    db b = (SyncStarted message task_id rid, db', b') ->
  get_repository db repo_id = Some repository ->
  status repository = str "active" ->
  vectordb_status repository = str "active" ->
  can_access db' repo_id current_user_id = true ->
  db' = db
  /\ Settings.check_sync_status (name repository)
       (StatusApi.fetch_status can_access error_message http_error repo_id
          current_user_id db') Settings.started
     = {| Settings.check_count := 1; Settings.timer_active := false;
          Settings.notifications := [SyncSpec.synchronized (name repository)];
          Settings.reloads := 1 |}
  /\ 1 <= pending_syncs repo_id b'.
Proof.
  intros Hsync Hget Hst Hvst Hacc. revert Hsync.
  unfold sync_repository.
  destruct (check_user_permission db repo_id current_user_id (str "admin"));
    cbn [negb]; [|discriminate].
  rewrite Hget.
  destruct (existsb (pystr_eqb (status repository)) in_progress_statuses);
    [discriminate|].
  unfold send_task. destruct (reachable b); [|discriminate].
  intros [= <- <- <- <- <-].
  split; [reflexivity|]. split.
  - unfold StatusApi.fetch_status, StatusApi.get_repository_status.
    rewrite Hacc, Hget. cbn [negb].
    unfold Settings.check_sync_status.
    cbn [Settings.status Settings.vectordb_status Settings.error_message].
    rewrite Hst, Hvst. reflexivity.
  - unfold pending_syncs. cbn [queue]. rewrite filter_app, length_app.
    cbn [filter snd task_repo_id].
    apply find_holds in Hget. rewrite Hget. cbn. lia.
Qed.

End Endpoint.

Lemma poll_reads_state_before_sync_witness :
  [ApiSpec.ragit] = [ApiSpec.ragit]
  /\ Settings.check_sync_status (str "RAGIT")
       (StatusApi.fetch_status everyone_reads no_message requests_error
          (id ApiSpec.ragit) (str "alice") [ApiSpec.ragit]) Settings.started
     = {| Settings.check_count := 1; Settings.timer_active := false;
          Settings.notifications := [SyncSpec.synchronized (str "RAGIT")];
          Settings.reloads := 1 |}
  /\ 1 <= pending_syncs (id ApiSpec.ragit)
            {| reachable := true;
               queue := [(str "task-0", ApiSpec.update_task)] |}.
Proof.
  exact (poll_reads_state_before_sync ApiSpec.everyone_admin ApiSpec.numbered
           everyone_reads no_message requests_error (id ApiSpec.ragit)
           (str "alice")
           [ApiSpec.ragit] [ApiSpec.ragit] ApiSpec.empty_broker
           {| reachable := true;
              queue := [(str "task-0", ApiSpec.update_task)] |}
           (str "Repository sync started for 'RAGIT'") (str "task-0")
           (id ApiSpec.ragit) ApiSpec.ragit
           eq_refl eq_refl eq_refl eq_refl eq_refl).
Defined.

Lemma replace_hyphens_cons (c : N) (s : pystr) :
  replace_hyphens (c :: s)
  = (if (c =? 45)%N then 95%N else c) :: replace_hyphens s.
Proof. reflexivity. Qed.

(** X28: the name of the collection tells repositories apart.  The name is
    [repo_] followed by the identifier with every hyphen replaced by an
    underscore; it holds no hyphen, and two identifiers without underscores,
    as UUIDs are, that give the same name are the same identifier. *)
Theorem collection_name_injective (a b : pystr) :
  ~ In 95%N a -> ~ In 95%N b ->
  str "repo_" ++ replace_hyphens a = str "repo_" ++ replace_hyphens b ->
  a = b /\ ~ In 45%N (replace_hyphens a).
Proof.
  intros Ha Hb H. apply app_inv_head in H. split.
  - revert b Hb H. induction a as [|c a IH]; intros [|c' b] Hb H;
      try discriminate; [reflexivity|].
    rewrite !replace_hyphens_cons in H. injection H as Hc Hrest.
    f_equal.
    + destruct (N.eqb_spec c 45), (N.eqb_spec c' 45); subst; auto.
      * exfalso. apply Hb. now left.
      * exfalso. apply Ha. now left.
    + apply IH; auto.
      * intros Hin. apply Ha. now right.
      * intros Hin. apply Hb. now right.
  - clear. induction a as [|c a IH]; [intros []|].
    rewrite replace_hyphens_cons. intros [Hc | Hin]; [|auto].
    destruct (N.eqb_spec c 45); [discriminate|]. congruence.
Qed.

Lemma collection_name_injective_witness :
  id ApiSpec.ragit = id ApiSpec.ragit
  /\ ~ In 45%N (replace_hyphens (id ApiSpec.ragit)).
Proof.
  apply (collection_name_injective (id ApiSpec.ragit) (id ApiSpec.ragit)).
  - vm_compute. intuition discriminate.
  - vm_compute. intuition discriminate.
  - reflexivity.
Defined.

End StatusProofs.
